(** * FAST platform: driver command encoder and serial communicator

    A shallow embedding of
      - [mpf/platforms/fast/fast_driver.py]       (class [FASTDriver]) and
      - [mpf/platforms/fast/communicators/base.py] (class [FastSerialCommunicator])
    followed by the properties of the encoder, the outbound flow control and
    the inbound dispatcher.

    Conventions of the embedding.
      - A Python [int] is a [Z].  A Python [float] is the rational it denotes
        ([Q]); [==] between numbers is numeric equality ([Qeq_bool]), which is
        also what Python does when an [int] meets a [float].  The one
        computation on floats, in [get_pwm_for_cmd], is given a second time
        with every operation rounded to binary64, and the two are shown to
        agree on the doubles of [0, 1].
      - A Python [str] is represented by its UTF-8 encoding, as a Rocq
        [string] (a sequence of 8-bit characters); [bytes] are [list byte].
      - Attribute assignments on [self] become updates of a record threaded
        through a small state monad.  Calls on collaborators that are not
        part of the two files append to a trace: the send primitives of the
        connection for the driver; the stream writer, the logger and the
        message router for the communicator.  The debug logging of the driver
        is left out.
      - [asyncio] appears through its results only: what [wait_for] returned
        to the writer task, and the chunks that [read] returned to the
        reader task. *)

From Stdlib Require Import ZArith QArith Qround List Bool Lia Lqa.
From Stdlib Require Import Strings.String Strings.Ascii Strings.Byte.
Import ListNotations.

Local Open Scope Z_scope.
Local Open Scope string_scope.

(* ===================================================================== *)
(** * Part I.  Python values                                              *)
(* ===================================================================== *)

(** [int(x)] on a float: truncation toward zero. *)
Definition py_int (x : Q) : Z := Z.quot (Qnum x) (Zpos (Qden x)).

(** [x < y] on numbers. *)
Definition Qlt_bool (x y : Q) : bool := negb (Qle_bool y x).

(** [str.upper()] on the ASCII range. *)
Definition ascii_upper (c : ascii) : ascii :=
  let n := N_of_ascii c in
  if ((97 <=? n) && (n <=? 122))%N then ascii_of_N (n - 32) else c.

Fixpoint upper (s : string) : string :=
  match s with
  | EmptyString => EmptyString
  | String c s' => String (ascii_upper c) (upper s')
  end.

(** Truthiness of a [str]: non-empty. *)
Definition str_truthy (s : string) : bool :=
  match s with EmptyString => false | _ => true end.

(** The helpers of [mpf.core.utility_functions.Util] that the driver calls.
    Their bodies live outside the two files; the driver is verified against
    any implementation of this interface.  They are taken as total: a request
    that one of them rejects with an exception is not covered. *)
Class Util : Type := {
  (** [Util.int_to_hex_string(source_int, allow_overflow=False)] *)
  int_to_hex_string : Z -> bool -> string;
  (** [Util.pwm8_to_hex_string(source_int)] *)
  pwm8_to_hex_string : Z -> string;
  (** [Util.pwm32_to_hex_string(source_int)] *)
  pwm32_to_hex_string : Z -> string;
  (** [Util.hex_string_to_int(source_string)] *)
  hex_string_to_int : string -> Z
}.

(* ===================================================================== *)
(** * Part II.  [fast_driver.py]                                          *)
(* ===================================================================== *)

(** [PulseSettings(power, duration)] and [HoldSettings(power, duration)]. *)
Record PulseSettings := { pulse_power : Q; pulse_duration : Z }.
Record HoldSettings := { hold_power : Q; hold_duration : Z }.

(** The cached tuple (pulse duration, pulse power, hold power). *)
Definition config_tuple : Type := (Q * Q * Q)%type.

(** [t1 == t2] on such tuples: componentwise numeric equality. *)
Definition tuple_eqb (a b : config_tuple) : bool :=
  let '(a0, a1, a2) := a in
  let '(b0, b1, b2) := b in
  Qeq_bool a0 b0 && Qeq_bool a1 b1 && Qeq_bool a2 b2.

Definition tuple_eq (a b : config_tuple) : Prop :=
  let '(a0, a1, a2) := a in
  let '(b0, b1, b2) := b in
  a0 == b0 /\ a1 == b1 /\ a2 == b2.

(** [self.config_state == config_state] where the left side may be [None]. *)
Definition opt_tuple_eqb (a : option config_tuple) (b : config_tuple) : bool :=
  match a with
  | Some t => tuple_eqb t b
  | None => false
  end.

(** The two keys of [platform_settings] the driver reads. *)
Record PlatformSettings := {
  hold_pwm_patter : option string;
  recycle_ms : option Z
}.

(** What the driver hands to its connection. *)
Inductive sent : Type :=
| send_with_confirmation (cmd confirm : string)
| send_and_forget (cmd : string).

(** The driver object: the first five fields are fixed at construction, the
    last three are the mutable state of the encoder. *)
Record FASTDriver := {
  number : string;
  platform_settings : PlatformSettings;
  default_recycle : bool;            (* self.config.default_recycle *)
  driver_cmd : string;               (* self.connection.driver_cmd *)
  trigger_cmd : string;              (* self.connection.trigger_cmd *)
  autofire : option (string * config_tuple);
  _autofire_cleared : bool;
  config_state : option config_tuple
}.

(** [__init__]: no autofire, flag down, cache unset. *)
Definition init (num : string) (ps : PlatformSettings) (recycle : bool)
  (dcmd tcmd : string) : FASTDriver :=
  {| number := num; platform_settings := ps; default_recycle := recycle;
     driver_cmd := dcmd; trigger_cmd := tcmd;
     autofire := None; _autofire_cleared := false; config_state := None |}.

(** ** The monad of driver methods: the object and the commands sent so far. *)
Module DriverM.

Definition t (A : Type) : Type := FASTDriver -> list sent -> A * FASTDriver * list sent.

Definition ret {A} (a : A) : t A := fun d out => (a, d, out).

Definition bind {A B} (m : t A) (k : A -> t B) : t B :=
  fun d out => let '(a, d', out') := m d out in k a d' out'.

Definition self : t FASTDriver := fun d out => (d, d, out).

Definition emit (c : sent) : t unit := fun d out => (tt, d, (out ++ [c])%list).

Definition set_autofire_attr (v : option (string * config_tuple)) : t unit :=
  fun d out =>
    (tt, {| number := number d; platform_settings := platform_settings d;
            default_recycle := default_recycle d;
            driver_cmd := driver_cmd d; trigger_cmd := trigger_cmd d;
            autofire := v; _autofire_cleared := _autofire_cleared d;
            config_state := config_state d |}, out).

Definition set_autofire_cleared (v : bool) : t unit :=
  fun d out =>
    (tt, {| number := number d; platform_settings := platform_settings d;
            default_recycle := default_recycle d;
            driver_cmd := driver_cmd d; trigger_cmd := trigger_cmd d;
            autofire := autofire d; _autofire_cleared := v;
            config_state := config_state d |}, out).

Definition set_config_state (v : option config_tuple) : t unit :=
  fun d out =>
    (tt, {| number := number d; platform_settings := platform_settings d;
            default_recycle := default_recycle d;
            driver_cmd := driver_cmd d; trigger_cmd := trigger_cmd d;
            autofire := autofire d; _autofire_cleared := _autofire_cleared d;
            config_state := v |}, out).

(** Run a method on an object with an empty outbox. *)
Definition run {A} (m : t A) (d : FASTDriver) : A * FASTDriver * list sent := m d [].
Definition object {A} (r : A * FASTDriver * list sent) : FASTDriver := snd (fst r).
Definition commands {A} (r : A * FASTDriver * list sent) : list sent := snd r.
Definition value {A} (r : A * FASTDriver * list sent) : A := fst (fst r).

End DriverM.

Declare Scope driver_scope.
Delimit Scope driver_scope with driver.
Notation "x <- m ;; k" := (DriverM.bind m (fun x => k))
  (at level 61, m at next level, right associativity) : driver_scope.
Notation "m ;; k" := (DriverM.bind m (fun _ => k))
  (at level 61, right associativity) : driver_scope.

Section Driver.

Context {U : Util}.

Local Open Scope driver_scope.
Import DriverM.

(** The literal [0.025]: the binary64 number nearest to 1/40. *)
Definition float_0_025 : Q := 3602879701896397 # 144115188075855872.

(** [get_pwm_for_cmd(cls, power)] *)
Definition get_pwm_for_cmd (power : Q) : string :=
  (* use PWM8 if sufficiently accurate *)
  if Qlt_bool (power * 8 - inject_Z (py_int (power * 8))) float_0_025
  then upper (pwm8_to_hex_string (py_int (power * 8)))
  else upper (pwm32_to_hex_string (py_int (power * 32))).

(** [get_hold_pwm_for_cmd(self, power)] *)
Definition get_hold_pwm_for_cmd (d : FASTDriver) (power : Q) : string :=
  match hold_pwm_patter (platform_settings d) with
  | Some pat => if str_truthy pat then pat else get_pwm_for_cmd power
  | None => get_pwm_for_cmd power
  end.

(** [get_recycle_ms_for_cmd(self, recycle, pulse_ms)] *)
Definition get_recycle_ms_for_cmd (d : FASTDriver) (recycle : bool) (pulse_ms : Z)
  : string :=
  if negb recycle then "00"
  else match recycle_ms (platform_settings d) with
       | Some r => int_to_hex_string r false
       | None =>
           (* default recycle_ms to pulse_ms * 2 *)
           if (pulse_ms * 2 >? 255)%Z then "FF"
           else int_to_hex_string (pulse_ms * 2) false
       end.

(** [_reenable_autofire_if_configured(self)] *)
Definition _reenable_autofire_if_configured : DriverM.t unit :=
  d <- self ;;
  match autofire d with
  | Some (cmd, tup) =>
      if _autofire_cleared d then
        set_autofire_cleared false ;;
        set_config_state (Some tup) ;;
        emit (send_with_confirmation cmd (driver_cmd d))
      else ret tt
  | None => ret tt
  end.

(** [reset(self)] *)
Definition reset : DriverM.t unit :=
  d <- self ;;
  let cmd := driver_cmd d ++ ":" ++ number d ++ ",00,00,00" in
  emit (send_with_confirmation cmd (driver_cmd d)).

(** [disable(self)] *)
Definition disable : DriverM.t unit :=
  d <- self ;;
  let cmd := trigger_cmd d ++ ":" ++ number d ++ ",02" in
  emit (send_and_forget cmd) ;;
  _reenable_autofire_if_configured ;;
  (* reenable the autofire *)
  d <- self ;;
  match autofire d with
  | Some _ =>
      let cmd := trigger_cmd d ++ ":" ++ number d ++ ",00" in
      emit (send_and_forget cmd)
  | None => ret tt
  end.

(** [set_autofire(self, autofire_cmd, pulse_duration, pulse_power, hold_power)] *)
Definition set_autofire (autofire_cmd : string) (pulse_duration pulse_power hold_power : Q)
  : DriverM.t unit :=
  set_autofire_attr (Some (autofire_cmd, (pulse_duration, pulse_power, hold_power))) ;;
  set_config_state (Some (pulse_duration, pulse_power, hold_power)) ;;
  set_autofire_cleared false ;;
  d <- self ;;
  emit (send_with_confirmation autofire_cmd (driver_cmd d)).

(** [clear_autofire(self, config_cmd, number)] *)
Definition clear_autofire (config_cmd num : string) : DriverM.t unit :=
  let cmd := config_cmd ++ num ++ ",81" in
  d <- self ;;
  emit (send_with_confirmation cmd (driver_cmd d)) ;;
  set_autofire_attr None ;;
  set_config_state None.

(** The command strings built by [enable] and [_pulse]. *)
Definition enable_trigger_cmd (d : FASTDriver) : string :=
  trigger_cmd d ++ ":" ++ number d ++ ",03".

Definition enable_config_cmd (d : FASTDriver) (pulse_settings : PulseSettings)
  (hold_settings : HoldSettings) : string :=
  driver_cmd d ++ ":" ++ number d ++ ",C1,00,18,"
    ++ int_to_hex_string (pulse_duration pulse_settings) false ++ ","
    ++ get_pwm_for_cmd (pulse_power pulse_settings) ++ ","
    ++ get_hold_pwm_for_cmd d (hold_power hold_settings) ++ ","
    ++ get_recycle_ms_for_cmd d (default_recycle d) (pulse_duration pulse_settings).

(** [enable(self, pulse_settings, hold_settings)] *)
Definition enable (pulse_settings : PulseSettings) (hold_settings : HoldSettings)
  : DriverM.t unit :=
  let config_state' : config_tuple :=
    (inject_Z (pulse_duration pulse_settings), pulse_power pulse_settings,
     hold_power hold_settings) in
  d <- self ;;
  cmd <- (if match autofire d with Some _ => true | None => false end
             && opt_tuple_eqb (config_state d) config_state'
          then
            (* manually trigger the autofire rule: trigger_cmd, manual on *)
            ret (enable_trigger_cmd d)
          else
            (* full config command, trigger C1, switch 00, mode 18 (latched) *)
            set_autofire_cleared true ;;
            let cmd := enable_config_cmd d pulse_settings hold_settings in
            set_config_state
              (Some (inject_Z (pulse_duration pulse_settings),
                     inject_Z (pulse_duration pulse_settings),
                     hold_power hold_settings)) ;;
            ret cmd) ;;
  emit (send_and_forget cmd).

Definition pulse_trigger_cmd (d : FASTDriver) : string :=
  trigger_cmd d ++ ":" ++ number d ++ ",01".

Definition pulse_config_cmd (d : FASTDriver) (hex_ms_string pwm hold_ms hold_pwm : string)
  : string :=
  driver_cmd d ++ ":" ++ number d ++ ",89,00,10,"
    ++ hex_ms_string ++ "," ++ pwm ++ "," ++ hold_ms ++ "," ++ hold_pwm ++ ",00".

(** The test of [_pulse]:
    [not self.config_state or self.config_state[0] != config_state[0]
     or self.config_state[1] != config_state[1]]. *)
Definition must_reconfigure (cached : option config_tuple) (requested : config_tuple)
  : bool :=
  match cached with
  | None => true
  | Some (c0, c1, _) =>
      let '(r0, r1, _) := requested in
      negb (Qeq_bool c0 r0) || negb (Qeq_bool c1 r1)
  end.

(** [_pulse(self, pulse_settings, hold_settings=None)] *)
Definition _pulse (pulse_settings : PulseSettings) (hold_settings : option HoldSettings)
  : DriverM.t Z :=
  d <- self ;;
  let hex_ms_string := int_to_hex_string (pulse_duration pulse_settings) false in
  let '(hold_pwm, hold_ms, config_state') :=
    match hold_settings with
    | Some hs =>
        (get_hold_pwm_for_cmd d (hold_power hs),
         int_to_hex_string (hold_duration hs) true,
         (inject_Z (pulse_duration pulse_settings), pulse_power pulse_settings,
          hold_power hs))
    | None =>
        ("00", "00",
         (inject_Z (pulse_duration pulse_settings), pulse_power pulse_settings, 0%Q))
    end in
  (* reconfigure if we have to *)
  (if must_reconfigure (config_state d) config_state' then
     set_config_state (Some config_state') ;;
     set_autofire_cleared true ;;
     (* the 89 trigger writes this rule to the driver and pulses it *)
     let cmd := pulse_config_cmd d hex_ms_string
                  (get_pwm_for_cmd (pulse_power pulse_settings)) hold_ms hold_pwm in
     emit (send_with_confirmation cmd (driver_cmd d))
   else
     (* trigger the driver directly using the existing configuration *)
     emit (send_and_forget (pulse_trigger_cmd d))) ;;
  (* restore autofire *)
  _reenable_autofire_if_configured ;;
  ret (hex_string_to_int hex_ms_string).

(** [timed_enable(self, pulse_settings, hold_settings)] *)
Definition timed_enable (pulse_settings : PulseSettings) (hold_settings : HoldSettings)
  : DriverM.t Z :=
  _pulse pulse_settings (Some hold_settings).

(** [pulse(self, pulse_settings)] *)
Definition pulse (pulse_settings : PulseSettings) : DriverM.t Z :=
  _pulse pulse_settings None.

End Driver.

(** ** Floating point

    The encoder computes with floats in one place only, the test of
    [get_pwm_for_cmd].  Below, the same method with every float operation
    rounded by [fl], the rounding of the arithmetic to binary64; the section
    on the power encoding shows that on the doubles of [0, 1] no operation
    of it rounds, so that it returns what [get_pwm_for_cmd] returns. *)

(** A binary64 number: [m * 2^e] with a mantissa below [2^53] and an exponent
    from -1074 to 971; stated on [q * 2^1074], which is an integer. *)
Definition binary64 (q : Q) : Prop :=
  exists m a : Z,
    (Z.abs m < 2 ^ 53)%Z /\ (0 <= a <= 2045)%Z
    /\ (q * inject_Z (2 ^ 1074) == inject_Z (m * 2 ^ a))%Q.

Section Rounded.

Context {U : Util}.
Variable fl : Q -> Q.

(** [get_pwm_for_cmd(cls, power)], operation by operation: two products, the
    conversion of the [int] to a float, and the subtraction. *)
Definition get_pwm_for_cmd_rounded (power : Q) : string :=
  if Qlt_bool (fl (fl (power * 8) - fl (inject_Z (py_int (fl (power * 8))))))
       float_0_025
  then upper (pwm8_to_hex_string (py_int (fl (power * 8))))
  else upper (pwm32_to_hex_string (py_int (fl (power * 32)))).

End Rounded.

(* ===================================================================== *)
(** * Part III.  [communicators/base.py]                                  *)
(* ===================================================================== *)

Definition bytes : Type := list byte.

(** [b'\r'] *)
Definition CR : byte := x0d.

(** [str.encode()]: a [str] is kept as its UTF-8 encoding. *)
Definition encode (s : string) : bytes := list_byte_of_string s.

Definition byte_in (lo hi : N) (b : byte) : bool :=
  ((lo <=? Byte.to_N b) && (Byte.to_N b <=? hi))%N.

Definition continuation : byte -> bool := byte_in 128 191.

(** Well-formed UTF-8 (no overlong forms, no surrogates, at most U+10FFFF):
    the byte sequences [bytes.decode()] accepts. *)
Fixpoint utf8_valid (b : bytes) : bool :=
  match b with
  | [] => true
  | b0 :: rest =>
      if byte_in 0 127 b0 then utf8_valid rest
      else if byte_in 194 223 b0 then
        match rest with
        | b1 :: rest' => continuation b1 && utf8_valid rest'
        | _ => false
        end
      else if byte_in 224 239 b0 then
        match rest with
        | b1 :: b2 :: rest' =>
            (if byte_in 224 224 b0 then byte_in 160 191 b1
             else if byte_in 237 237 b0 then byte_in 128 159 b1
             else continuation b1)
            && continuation b2 && utf8_valid rest'
        | _ => false
        end
      else if byte_in 240 244 b0 then
        match rest with
        | b1 :: b2 :: b3 :: rest' =>
            (if byte_in 240 240 b0 then byte_in 144 191 b1
             else if byte_in 244 244 b0 then byte_in 128 143 b1
             else continuation b1)
            && continuation b2 && continuation b3 && utf8_valid rest'
        | _ => false
        end
      else false
  end.

(** Exceptions a method of the communicator can end with.  [LoopBudget] is
    not a Python exception: it marks a loop of the model that ran out of its
    iteration budget (shown below never to happen). *)
Inductive exn : Type :=
| UnicodeDecodeError
| IndexError
| LoopBudget.

Inductive result (A : Type) : Type :=
| Ok (a : A)
| Raised (e : exn).
Arguments Ok {A} a.
Arguments Raised {A} e.

(** [bytes.decode()] *)
Definition decode (b : bytes) : result string :=
  if utf8_valid b then Ok (string_of_list_byte b) else Raised UnicodeDecodeError.

(** [bytes.find(b'\r')]: [None] stands for -1. *)
Fixpoint find_cr (b : bytes) : option nat :=
  match b with
  | [] => None
  | c :: b' => if Byte.eqb c CR then Some O else option_map S (find_cr b')
  end.

(** Calls on the logger: level, template and arguments, unformatted. *)
Inductive log_level := DEBUG | WARNING.
Inductive log_arg :=
| arg_str (s : string)
| arg_int (n : Z)
| arg_hex (b : bytes).          (* "".join(" 0x%02x" % b for b in msg) *)
Record log_record := { level : log_level; template : string; args : list log_arg }.

(** The communicator object.  [written], [log] and [routed] record the calls
    on the stream writer, the logger and
    [platform.process_received_message].  The methods read [port], [dmd],
    [max_messages_in_flight] and [messages_in_flight], which [__init__] does
    not set: they are taken as set by the subclass that is instantiated. *)
Record FastSerialCommunicator := {
  remote_processor : string;
  port : string;
  debug : bool;                       (* self.platform.config['debug'] *)
  dmd : bool;
  max_messages_in_flight : Z;
  messages_in_flight : Z;
  send_ready : bool;                  (* asyncio.Event: set / clear *)
  send_queue : list string;           (* asyncio.Queue *)
  received_msg : bytes;
  written : list bytes;
  log : list log_record;
  routed : list (string * string)
}.

Definition ignored_messages : list string :=
  [ "RX:P";  (* RGB Pass *)
    "SN:P";  (* Network Switch pass *)
    "SL:P";  (* Local Switch pass *)
    "LX:P";  (* Lamp pass *)
    "PX:P";  (* Segment pass *)
    "DN:P";  (* Network driver pass *)
    "DL:P";  (* Local driver pass *)
    "XX:F";  (* Unrecognized command? *)
    "R1:F";
    "L1:P";
    "GI:P";
    "TL:P";
    "TN:P";
    "XO:P";  (* Servo/Daughterboard Pass *)
    "XX:U";
    "XX:N" ].

(** [x in self.ignored_messages] *)
Definition is_ignored (s : string) : bool := existsb (String.eqb s) ignored_messages.

(** ** The monad of communicator methods: state and exceptions.  The state
    reached when an exception is raised is kept, as attribute writes are. *)
Module CommM.

Definition t (A : Type) : Type :=
  FastSerialCommunicator -> result A * FastSerialCommunicator.

Definition ret {A} (a : A) : t A := fun c => (Ok a, c).

Definition raise {A} (e : exn) : t A := fun c => (Raised e, c).

Definition bind {A B} (m : t A) (k : A -> t B) : t B :=
  fun c => match m c with
           | (Ok a, c') => k a c'
           | (Raised e, c') => (Raised e, c')
           end.

Definition lift {A} (r : result A) : t A := fun c => (r, c).

Definition self : t FastSerialCommunicator := fun c => (Ok c, c).

Definition update (f : FastSerialCommunicator -> FastSerialCommunicator) : t unit :=
  fun c => (Ok tt, f c).

Definition final {A} (r : result A * FastSerialCommunicator) : FastSerialCommunicator :=
  snd r.
Definition outcome {A} (r : result A * FastSerialCommunicator) : result A := fst r.

End CommM.

Declare Scope comm_scope.
Delimit Scope comm_scope with comm.
Notation "x <- m ;; k" := (CommM.bind m (fun x => k))
  (at level 61, m at next level, right associativity) : comm_scope.
Notation "m ;; k" := (CommM.bind m (fun _ => k))
  (at level 61, right associativity) : comm_scope.

(** Attribute writes and collaborator calls. *)
Definition with_messages_in_flight (n : Z) (c : FastSerialCommunicator) :=
  {| remote_processor := remote_processor c; port := port c; debug := debug c;
     dmd := dmd c; max_messages_in_flight := max_messages_in_flight c;
     messages_in_flight := n; send_ready := send_ready c;
     send_queue := send_queue c; received_msg := received_msg c;
     written := written c; log := log c; routed := routed c |}.

Definition with_send_ready (b : bool) (c : FastSerialCommunicator) :=
  {| remote_processor := remote_processor c; port := port c; debug := debug c;
     dmd := dmd c; max_messages_in_flight := max_messages_in_flight c;
     messages_in_flight := messages_in_flight c; send_ready := b;
     send_queue := send_queue c; received_msg := received_msg c;
     written := written c; log := log c; routed := routed c |}.

Definition with_send_queue (q : list string) (c : FastSerialCommunicator) :=
  {| remote_processor := remote_processor c; port := port c; debug := debug c;
     dmd := dmd c; max_messages_in_flight := max_messages_in_flight c;
     messages_in_flight := messages_in_flight c; send_ready := send_ready c;
     send_queue := q; received_msg := received_msg c;
     written := written c; log := log c; routed := routed c |}.

Definition with_received_msg (b : bytes) (c : FastSerialCommunicator) :=
  {| remote_processor := remote_processor c; port := port c; debug := debug c;
     dmd := dmd c; max_messages_in_flight := max_messages_in_flight c;
     messages_in_flight := messages_in_flight c; send_ready := send_ready c;
     send_queue := send_queue c; received_msg := b;
     written := written c; log := log c; routed := routed c |}.

Definition with_written (w : list bytes) (c : FastSerialCommunicator) :=
  {| remote_processor := remote_processor c; port := port c; debug := debug c;
     dmd := dmd c; max_messages_in_flight := max_messages_in_flight c;
     messages_in_flight := messages_in_flight c; send_ready := send_ready c;
     send_queue := send_queue c; received_msg := received_msg c;
     written := w; log := log c; routed := routed c |}.

Definition with_log (l : list log_record) (c : FastSerialCommunicator) :=
  {| remote_processor := remote_processor c; port := port c; debug := debug c;
     dmd := dmd c; max_messages_in_flight := max_messages_in_flight c;
     messages_in_flight := messages_in_flight c; send_ready := send_ready c;
     send_queue := send_queue c; received_msg := received_msg c;
     written := written c; log := l; routed := routed c |}.

Definition with_routed (r : list (string * string)) (c : FastSerialCommunicator) :=
  {| remote_processor := remote_processor c; port := port c; debug := debug c;
     dmd := dmd c; max_messages_in_flight := max_messages_in_flight c;
     messages_in_flight := messages_in_flight c; send_ready := send_ready c;
     send_queue := send_queue c; received_msg := received_msg c;
     written := written c; log := log c; routed := r |}.

(** [self.writer.write(data)] *)
Definition writer_write (data : bytes) : CommM.t unit :=
  CommM.update (fun c => with_written (written c ++ [data])%list c).

(** [self.log.debug(...)], [self.log.warning(...)] *)
Definition log_call (lv : log_level) (tpl : string) (a : list log_arg) : CommM.t unit :=
  CommM.update (fun c =>
    with_log (log c ++ [{| level := lv; template := tpl; args := a |}])%list c).

(** [self.platform.process_received_message(text, self.remote_processor)] *)
Definition process_received_message (text processor : string) : CommM.t unit :=
  CommM.update (fun c => with_routed (routed c ++ [(text, processor)])%list c).

(** [msg[0]] *)
Definition first_char (msg : string) : CommM.t ascii :=
  match msg with
  | EmptyString => CommM.raise IndexError
  | String ch _ => CommM.ret ch
  end.

Section Communicator.

Local Open Scope comm_scope.
Import CommM.

(** [send(self, msg)] *)
Definition send (msg : string) : CommM.t unit :=
  update (fun c => with_send_queue (send_queue c ++ [msg])%list c).

(** [_send(self, msg)] *)
Definition _send (msg : string) : CommM.t unit :=
  c <- self ;;
  if dmd c then
    writer_write (encode "BM:" ++ encode msg)%list ;;
    (* Don't log W(atchdog), they are noisy *)
    if debug c then
      _ <- first_char msg ;;       (* a byte never equals the str "W" *)
      log_call DEBUG "Send: %s" [arg_hex (encode msg)]
    else ret tt
  else if (max_messages_in_flight c =? 0)%Z then  (* processors that don't use this *)
    writer_write (encode msg ++ [CR])%list ;;
    log_call DEBUG "Sending without message flight tracking: %s" [arg_str msg]
  else
    update (fun c => with_messages_in_flight (messages_in_flight c + 1) c) ;;
    c <- self ;;
    (if (messages_in_flight c >? max_messages_in_flight c)%Z then
       update (with_send_ready false) ;;
       log_call DEBUG
         "Enabling Flow Control for %s connection. Messages in flight: %s, Max setting: %s"
         [arg_str (remote_processor c); arg_int (messages_in_flight c);
          arg_int (max_messages_in_flight c)]
     else ret tt) ;;
    writer_write (encode msg ++ [CR])%list ;;
    (* Don't log W(atchdog) or L(ight) messages, they are noisy *)
    if debug c then
      ch <- first_char msg ;;
      if negb (Ascii.eqb ch "W") && negb (Ascii.eqb ch "L")
      then log_call DEBUG "Send: %s" [arg_str msg]
      else ret tt
    else ret tt.

(** How [asyncio.wait_for(self.send_ready.wait(), 1.0)] returned. *)
Inductive gate_wait : Type :=
| gate_passed          (* the event was set within the second *)
| gate_timeout.        (* asyncio.TimeoutError *)

(** One turn of the loop of [_socket_writer], for the dequeued [msg]; the
    state is the one the task sees when [wait_for] returns. *)
Definition _socket_writer_turn (msg : string) (w : gate_wait) : CommM.t unit :=
  match w with
  | gate_passed => ret tt
  | gate_timeout =>
      c <- self ;;
      log_call WARNING
        "Port %s was blocked for more than 1s. Resetting send queue! If this happens frequently report a bug!"
        [arg_str (port c)] ;;
      update (with_messages_in_flight 0) ;;
      update (with_send_ready true)
  end ;;
  _send msg.

(** [_socket_writer(self)], for as many turns as there are wait outcomes;
    an empty queue suspends the task. *)
Fixpoint _socket_writer (waits : list gate_wait) : CommM.t unit :=
  match waits with
  | [] => ret tt
  | w :: waits' =>
      c <- self ;;
      match send_queue c with
      | [] => ret tt
      | msg :: q =>
          update (with_send_queue q) ;;
          _socket_writer_turn msg w ;;
          _socket_writer waits'
      end
  end.

(** The [while True] loop of [_parse_msg], with an iteration budget. *)
Fixpoint _parse_msg_loop (budget : nat) : CommM.t unit :=
  match budget with
  | O => raise LoopBudget
  | S budget' =>
      c <- self ;;
      match find_cr (received_msg c) with
      | None => ret tt                  (* no more complete messages *)
      | Some pos =>
          let msg := firstn pos (received_msg c) in
          update (with_received_msg (skipn (pos + 1) (received_msg c))) ;;
          match msg with
          | [] => _parse_msg_loop budget'
          | _ =>
              text <- lift (decode msg) ;;
              (if negb (is_ignored text)
               then process_received_message text (remote_processor c)
               else ret tt) ;;
              _parse_msg_loop budget'
          end
      end
  end.

(** [_parse_msg(self, msg)] *)
Definition _parse_msg (msg : bytes) : CommM.t unit :=
  update (fun c => with_received_msg (received_msg c ++ msg)%list c) ;;
  c <- self ;;
  _parse_msg_loop (S (List.length (received_msg c))).

(** The successive calls [_parse_msg(resp)] that [_socket_reader] makes for
    the chunks [resp] it reads. *)
Fixpoint feed_chunks (chunks : list bytes) : CommM.t unit :=
  match chunks with
  | [] => ret tt
  | resp :: chunks' => _parse_msg resp ;; feed_chunks chunks'
  end.

End Communicator.

(* ===================================================================== *)
(** * Part IV.  Vocabulary of the properties                              *)
(* ===================================================================== *)

Section DriverVocabulary.

Context {U : Util}.

(** The tuple a pulse or timed-enable request asks for; a plain pulse has
    hold power 0. *)
Definition requested (pulse_settings : PulseSettings)
  (hold_settings : option HoldSettings) : config_tuple :=
  (inject_Z (pulse_duration pulse_settings), pulse_power pulse_settings,
   match hold_settings with Some hs => hold_power hs | None => 0%Q end).

(** The cache is set and agrees with the request on duration and pulse
    power (hold power is not looked at). *)
Definition cache_agrees (d : FASTDriver) (pulse_settings : PulseSettings) : Prop :=
  exists c0 c1 c2,
    config_state d = Some (c0, c1, c2)
    /\ c0 == inject_Z (pulse_duration pulse_settings)
    /\ c1 == pulse_power pulse_settings.

(** The short re-trigger command, [<TRIGGER_CMD>:N,01]. *)
Definition retrigger_command (d : FASTDriver) : sent :=
  send_and_forget (trigger_cmd d ++ ":" ++ number d ++ ",01").

(** The full reconfiguration-and-fire command:
    [<DRIVER_CMD>:N,89,00,10,<dur_hex>,<pulse_pwm>,<hold_dur_hex>,<hold_pwm>,00]. *)
Definition reconfigure_command (d : FASTDriver) (pulse_settings : PulseSettings)
  (hold_settings : option HoldSettings) : sent :=
  send_with_confirmation
    (driver_cmd d ++ ":" ++ number d ++ ",89,00,10,"
       ++ int_to_hex_string (pulse_duration pulse_settings) false ++ ","
       ++ get_pwm_for_cmd (pulse_power pulse_settings) ++ ","
       ++ match hold_settings with
          | Some hs => int_to_hex_string (hold_duration hs) true
          | None => "00"
          end ++ ","
       ++ match hold_settings with
          | Some hs => get_hold_pwm_for_cmd d (hold_power hs)
          | None => "00"
          end ++ ",00")
    (driver_cmd d).

(** What the closing re-arm step of an operation sends from state [d]. *)
Definition rearm_commands (d : FASTDriver) : list sent :=
  match autofire d with
  | Some (cmd, _) =>
      if _autofire_cleared d then [send_with_confirmation cmd (driver_cmd d)] else []
  | None => []
  end.

(** The object with its cache set and its autofire flagged suspended. *)
Definition reconfigured (d : FASTDriver) (t : config_tuple) : FASTDriver :=
  {| number := number d; platform_settings := platform_settings d;
     default_recycle := default_recycle d;
     driver_cmd := driver_cmd d; trigger_cmd := trigger_cmd d;
     autofire := autofire d; _autofire_cleared := true;
     config_state := Some t |}.

(** An autofire binding exists and the cached Driver Command State equals
    the tuple an enable request asks for. *)
Definition enable_cache_hit (d : FASTDriver) (pulse_settings : PulseSettings)
  (hold_settings : HoldSettings) : Prop :=
  (exists b, autofire d = Some b)
  /\ exists t, config_state d = Some t
       /\ tuple_eq t (inject_Z (pulse_duration pulse_settings),
                      pulse_power pulse_settings, hold_power hold_settings).

(** An autofire binding exists and the tuple stored with it equals the
    tuple an enable request asks for. *)
Definition autofire_tuple_hit (d : FASTDriver) (pulse_settings : PulseSettings)
  (hold_settings : HoldSettings) : Prop :=
  exists cmd t, autofire d = Some (cmd, t)
    /\ tuple_eq t (inject_Z (pulse_duration pulse_settings),
                   pulse_power pulse_settings, hold_power hold_settings).

(** The k-th level of the 8-step encoding stands for the fraction k/8; it
    reproduces [power] within the tolerance when [power] lies at most
    [0.025] of a step above it (the encoder truncates, it never rounds up). *)
Definition pwm8_reproduces (power : Q) (k : Z) : Prop :=
  (inject_Z k / 8 <= power)%Q /\ (power < inject_Z k / 8 + float_0_025 / 8)%Q.

(** The manual trigger of the existing autofire rule, [<TRIGGER_CMD>:N,03]. *)
Definition manual_trigger_command (d : FASTDriver) : sent :=
  send_and_forget (trigger_cmd d ++ ":" ++ number d ++ ",03").

(** The full sustained-enable configuration command:
    [<DRIVER_CMD>:N,C1,00,18,<dur_hex>,<pulse_pwm>,<hold_pwm>,<recycle_hex>]. *)
Definition sustained_enable_command (d : FASTDriver) (pulse_settings : PulseSettings)
  (hold_settings : HoldSettings) : sent :=
  send_and_forget
    (driver_cmd d ++ ":" ++ number d ++ ",C1,00,18,"
       ++ int_to_hex_string (pulse_duration pulse_settings) false ++ ","
       ++ get_pwm_for_cmd (pulse_power pulse_settings) ++ ","
       ++ get_hold_pwm_for_cmd d (hold_power hold_settings) ++ ","
       ++ get_recycle_ms_for_cmd d (default_recycle d) (pulse_duration pulse_settings)).

(** The sentence on [enable] read with the tuple stored in the autofire
    binding: the manual trigger is sent exactly when that tuple equals the
    requested one. *)
Definition enable_by_autofire_tuple (d : FASTDriver) (pulse_settings : PulseSettings)
  (hold_settings : HoldSettings) : Prop :=
  DriverM.commands (DriverM.run (enable pulse_settings hold_settings) d)
    = [manual_trigger_command d]
  <-> autofire_tuple_hit d pulse_settings hold_settings.

End DriverVocabulary.

(** ** One implementation of [Util], to run the encoder on concrete requests.
    The tables of MPF are not part of the two files: the ones here stand in
    for them, with two hex digits per 8-step level and eight per 32-step
    level, and out-of-range integers clamped to "FF".  The properties below
    hold for every implementation. *)
Definition hex_digit (n : Z) : ascii :=
  nth (Z.to_nat n)
    ["0"; "1"; "2"; "3"; "4"; "5"; "6"; "7"; "8"; "9"; "A"; "B"; "C"; "D"; "E"; "F"]%char
    "0"%char.

Definition hex_byte (n : Z) : string :=
  String (hex_digit (n / 16)) (String (hex_digit (n mod 16)) EmptyString).

Definition hex_value (c : ascii) : Z :=
  let n := Z.of_N (N_of_ascii c) in
  if (48 <=? n)%Z && (n <=? 57)%Z then n - 48
  else if (65 <=? n)%Z && (n <=? 70)%Z then n - 55
  else if (97 <=? n)%Z && (n <=? 102)%Z then n - 87
  else 0.

Fixpoint hex_fold (acc : Z) (s : string) : Z :=
  match s with
  | EmptyString => acc
  | String c s' => hex_fold (acc * 16 + hex_value c) s'
  end.

Definition sample_util : Util :=
  {| int_to_hex_string := fun n _ =>
       if (0 <=? n)%Z && (n <=? 255)%Z then hex_byte n else "FF";
     pwm8_to_hex_string := fun k =>
       nth (Z.to_nat k) ["00"; "01"; "88"; "92"; "aa"; "ba"; "ee"; "fe"; "ff"] "ff";
     pwm32_to_hex_string := fun k =>
       let bits := 2 ^ k - 1 in
       hex_byte (bits / 16777216 mod 256) ++ hex_byte (bits / 65536 mod 256)
         ++ hex_byte (bits / 256 mod 256) ++ hex_byte (bits mod 256);
     hex_string_to_int := hex_fold 0 |}.

(** Output 5 of a NET processor, no platform overrides. *)
Definition sample_driver : FASTDriver :=
  init "05" {| hold_pwm_patter := None; recycle_ms := None |} true "DN" "TN".

Definition sample_autofire_cmd : string := "DN:05,01,0A,10,0A,FF,AA,14".

(** Requests used in the concrete runs: 10 ms and 20 ms at full power, held
    at half power. *)
Definition pulse_10ms : PulseSettings := {| pulse_power := 1; pulse_duration := 10 |}.
Definition pulse_20ms : PulseSettings := {| pulse_power := 1; pulse_duration := 20 |}.
Definition hold_half : HoldSettings := {| hold_power := 1 # 2; hold_duration := 0 |}.

(** The sample output after [set_autofire] for (10 ms, 1.0, 0.5), and after a
    further [enable] with a 20 ms pulse. *)
Definition driver_with_autofire : FASTDriver :=
  DriverM.object
    (DriverM.run (set_autofire sample_autofire_cmd 10 1 (1 # 2))
       sample_driver).

Definition driver_enabled_20ms : FASTDriver :=
  DriverM.object
    (DriverM.run (enable (U := sample_util) pulse_20ms hold_half) driver_with_autofire).

(** ** Vocabulary for the communicator *)

(** What [_send] hands to the stream writer for [msg]. *)
Definition frame_on_wire (c : FastSerialCommunicator) (msg : string) : bytes :=
  if dmd c then (encode "BM:" ++ encode msg)%list else (encode msg ++ [CR])%list.

(** The connection counts its in-flight messages: [_send] takes its last
    branch (not a DMD connection, a maximum that is set) and the maximum is
    positive. *)
Definition tracks_in_flight (c : FastSerialCommunicator) : Prop :=
  dmd c = false /\ 0 < max_messages_in_flight c.

(** The gate is open only if the counter is within the maximum. *)
Definition gate_invariant (c : FastSerialCommunicator) : Prop :=
  send_ready c = true -> messages_in_flight c <= max_messages_in_flight c.

(** The successive [_send] calls for [msgs] from [c]: state before, message,
    state after. *)
Fixpoint send_steps (msgs : list string) (c : FastSerialCommunicator)
  : list (FastSerialCommunicator * string * FastSerialCommunicator) :=
  match msgs with
  | [] => []
  | msg :: msgs' =>
      let c' := CommM.final (_send msg c) in
      (c, msg, c') :: send_steps msgs' c'
  end.

(** The warning of the stalled writer. *)
Definition stall_warning (c : FastSerialCommunicator) : log_record :=
  {| level := WARNING;
     template := "Port %s was blocked for more than 1s. Resetting send queue! If this happens frequently report a bug!";
     args := [arg_str (port c)] |}.

(** The state the writer recovers to when the wait timed out: warning
    logged, counter at zero, gate open. *)
Definition stall_recovered (c : FastSerialCommunicator) : FastSerialCommunicator :=
  with_send_ready true
    (with_messages_in_flight 0 (with_log (log c ++ [stall_warning c])%list c)).

(** Cutting a byte stream at every carriage return: the complete frames, in
    order and without their delimiter, and the bytes after the last
    delimiter. *)
Fixpoint split_frames (b : bytes) : list bytes * bytes :=
  match b with
  | [] => ([], [])
  | x :: b' =>
      let '(frames, rest) := split_frames b' in
      if Byte.eqb x CR then ([] :: frames, rest)
      else match frames with
           | [] => ([], x :: rest)
           | f :: frames' => ((x :: f) :: frames', rest)
           end
  end.

(** A frame is dispatched when it is not empty and its text is not an
    ignored acknowledgement. *)
Definition dispatched (f : bytes) : bool :=
  match f with
  | [] => false
  | _ => negb (is_ignored (string_of_list_byte f))
  end.

(** The calls on the message router for a list of frames. *)
Definition forwarded (processor : string) (frames : list bytes) : list (string * string) :=
  map (fun f => (string_of_list_byte f, processor)) (filter dispatched frames).

(** The sentence on the dispatcher for a connection [c] fed [chunks]: the
    buffer ends as the bytes after the last delimiter, and the router got
    every non-empty, non-ignored frame, in order, with the processor. *)
Definition dispatcher_claim (c : FastSerialCommunicator) (chunks : list bytes) : Prop :=
  let stream := (received_msg c ++ List.concat chunks)%list in
  let c' := CommM.final (feed_chunks chunks c) in
  received_msg c' = snd (split_frames stream)
  /\ routed c' = (routed c ++ forwarded (remote_processor c) (fst (split_frames stream)))%list.

(** A NET connection that allows 2 messages in flight. *)
Definition sample_comm : FastSerialCommunicator :=
  {| remote_processor := "NET"; port := "/dev/ttyUSB0"; debug := false;
     dmd := false; max_messages_in_flight := 2; messages_in_flight := 0;
     send_ready := true; send_queue := []; received_msg := [];
     written := []; log := []; routed := [] |}.

(** The chunks [SN:P\r-N:] and [0A\r\rXX]: an ignored acknowledgement, a
    frame split over two reads, an empty frame and a trailing partial one. *)
Definition sample_chunks : list bytes :=
  [ (encode "SN:P" ++ [CR] ++ encode "-N:")%list;
    (encode "0A" ++ [CR; CR] ++ encode "XX")%list ].

(* ===================================================================== *)
(** * Part IV-b.  The rest of the two files                                *)
(* ===================================================================== *)

(** ** [fast_driver.py]: the methods that build no pulse or enable command *)

(** A switch, as far as the driver looks at it. *)
Record Switch := { invert : bool }.

(** An I/O board, with [str(node_id)] for its node id, and the attributes of
    the platform that [get_board_name] reads; [io_boards] lists
    [platform.io_boards.values()] in the order of the dictionary. *)
Record IoBoard := { node_id : string; driver_count : Z }.
Record Platform := { is_retro : bool; machine_type : string; io_boards : list IoBoard }.

Section DriverRest.

Context {U : Util}.
Local Open Scope driver_scope.
Import DriverM.

(** The value [control] of [get_control_for_cmd], before it is formatted. *)
Definition control_for_cmd (switch1 : Switch) (switch2 : option Switch) : Z :=
  let control := 1 in                      (* 0x01: driver enabled *)
  let control := if invert switch1 then control + 16 else control in
  match switch2 with
  | Some s2 => if invert s2 then control + 32 else control
  | None => control
  end.

(** [get_control_for_cmd(cls, switch1, switch2=None)] *)
Definition get_control_for_cmd (switch1 : Switch) (switch2 : option Switch) : string :=
  int_to_hex_string (control_for_cmd switch1 switch2) false.

(** The [for] loop of [get_board_name]. *)
Fixpoint board_scan (coil_index num : Z) (boards : list IoBoard) : string :=
  match boards with
  | [] => "FAST Unknown Board"             (* fall back if not found *)
  | board_obj :: boards' =>
      if (coil_index <=? num)%Z && (num <? coil_index + driver_count board_obj)%Z
      then "FAST Board " ++ node_id board_obj
      else board_scan (coil_index + driver_count board_obj) num boards'
  end.

(** [get_board_name(self)] *)
Definition get_board_name (platform : Platform) (d : FASTDriver) : string :=
  if is_retro platform then "FAST Retro (" ++ upper (machine_type platform) ++ ")"
  else board_scan 0 (hex_string_to_int (number d)) (io_boards platform).

(** A call on the driver, and a sequence of calls. *)
Inductive driver_call : Type :=
| call_reset
| call_disable
| call_set_autofire (autofire_cmd : string) (pulse_duration pulse_power hold_power : Q)
| call_clear_autofire (config_cmd num : string)
| call_enable (pulse_settings : PulseSettings) (hold_settings : HoldSettings)
| call_timed_enable (pulse_settings : PulseSettings) (hold_settings : HoldSettings)
| call_pulse (pulse_settings : PulseSettings).

Definition perform (c : driver_call) : DriverM.t unit :=
  match c with
  | call_reset => reset
  | call_disable => disable
  | call_set_autofire cmd pd pp hp => set_autofire cmd pd pp hp
  | call_clear_autofire config_cmd num => clear_autofire config_cmd num
  | call_enable ps hs => enable ps hs
  | call_timed_enable ps hs => timed_enable ps hs ;; ret tt
  | call_pulse ps => pulse ps ;; ret tt
  end.

Fixpoint perform_all (calls : list driver_call) : DriverM.t unit :=
  match calls with
  | [] => ret tt
  | c :: calls' => perform c ;; perform_all calls'
  end.

End DriverRest.

(** A method only appends to the commands sent before it, and what it does
    is the same whatever was sent before. *)
Definition framed {A} (m : DriverM.t A) : Prop :=
  forall d out,
    m d out
    = (DriverM.value (m d []), DriverM.object (m d []),
       (out ++ DriverM.commands (m d []))%list).

(** The cache and the autofire binding agree: while a binding exists and is
    not suspended, the cached Driver Command State is the tuple of the
    binding. *)
Definition coherent (d : FASTDriver) : Prop :=
  forall cmd t, autofire d = Some (cmd, t) -> _autofire_cleared d = false ->
                config_state d = Some t.

(** The object after the re-arm step: a suspended binding is armed again and
    its tuple put in the cache; otherwise nothing changes. *)
Definition rearmed (d : FASTDriver) : FASTDriver :=
  match autofire d with
  | Some (_, t) =>
      if _autofire_cleared d then
        {| number := number d; platform_settings := platform_settings d;
           default_recycle := default_recycle d;
           driver_cmd := driver_cmd d; trigger_cmd := trigger_cmd d;
           autofire := autofire d; _autofire_cleared := false;
           config_state := Some t |}
      else d
  | None => d
  end.

(** The attributes no method assigns. *)
Definition same_output (d d' : FASTDriver) : Prop :=
  number d' = number d /\ platform_settings d' = platform_settings d
  /\ default_recycle d' = default_recycle d
  /\ driver_cmd d' = driver_cmd d /\ trigger_cmd d' = trigger_cmd d.

(** A call that names a new binding or removes the binding. *)
Definition rebinds (c : driver_call) : bool :=
  match c with
  | call_set_autofire _ _ _ _ | call_clear_autofire _ _ => true
  | _ => false
  end.

(** The sum of the driver counts of a list of boards. *)
Definition drivers_of (boards : list IoBoard) : Z :=
  fold_right (fun b n => driver_count b + n) 0 boards.

(** Concrete calls, boards and drivers for the runs below: a platform with
    two boards of eight drivers each, and the outputs 0x0A and 0x10. *)
Definition sample_calls : list driver_call :=
  [ call_set_autofire sample_autofire_cmd 10 1 (1 # 2);
    call_enable pulse_20ms hold_half;
    call_pulse pulse_10ms;
    call_disable ].

Definition sample_platform : Platform :=
  {| is_retro := false; machine_type := "fast";
     io_boards := [ {| node_id := "0"; driver_count := 8 |};
                    {| node_id := "1"; driver_count := 8 |} ] |}.

Definition driver_0A : FASTDriver :=
  init "0A" {| hold_pwm_patter := None; recycle_ms := None |} true "DN" "TN".

Definition driver_10 : FASTDriver :=
  init "10" {| hold_pwm_patter := None; recycle_ms := None |} true "DN" "TN".

(** ** [communicators/base.py]: vocabulary for the further properties *)

(** The successive calls [send(msg)] for a list of messages. *)
Fixpoint send_all (msgs : list string) : CommM.t unit :=
  match msgs with
  | [] => CommM.ret tt
  | msg :: msgs' => CommM.bind (send msg) (fun _ => send_all msgs')
  end.

(** A stream put together again from its frames and the bytes after the
    last delimiter. *)
Definition unsplit (frames : list bytes) (rest : bytes) : bytes :=
  (List.concat (map (fun f => f ++ [CR]) frames) ++ rest)%list.

(** What is to happen to the complete frames of a stream, frame by frame:
    how the call ends, what is handed to the router, what stays in the
    buffer.  A frame that does not decode ends the call; the frames behind
    it stay in the buffer with their delimiters. *)
Fixpoint dispatch_frames (processor : string) (frames : list bytes) (rest : bytes)
  : result unit * list (string * string) * bytes :=
  match frames with
  | [] => (Ok tt, [], rest)
  | f :: frames' =>
      if utf8_valid f then
        let '(o, routed', buf) := dispatch_frames processor frames' rest in
        (o, (forwarded processor [f] ++ routed')%list, buf)
      else (Raised UnicodeDecodeError, [], unsplit frames' rest)
  end.

(** [_send] raises on [msg[0]]: debug logging is on, the message is empty,
    and the branch taken is one that looks at its first character. *)
Definition send_raises (c : FastSerialCommunicator) (msg : string) : bool :=
  debug c && negb (str_truthy msg) && (dmd c || negb (max_messages_in_flight c =? 0)%Z).

(** ** [communicators/base.py]: reading replies, the handshake, the reader
    task and shutdown

    The stream reader and the clock are met through what they deliver: the
    bytes that arrive, what each open attempt and each read ends with.  The
    debug logs of the frames and chunks read ([self.debug]) are left out. *)

Fixpoint bytes_eqb (a b : bytes) : bool :=
  match a, b with
  | [], [] => true
  | x :: a', y :: b' => Byte.eqb x y && bytes_eqb a' b'
  | _, _ => false
  end.

(** The loop of [readuntil], from the bytes read so far. *)
Fixpoint readuntil_from (buffer separator : bytes) (min_chars : Z) (stream : bytes)
  : option (bytes * bytes) :=
  match stream with
  | [] => None
  | char :: stream' =>
      let buffer := (buffer ++ [char])%list in
      if bytes_eqb [char] separator && (Z.of_nat (List.length buffer) >? min_chars)%Z
      then Some (buffer, stream')
      else readuntil_from buffer separator min_chars stream'
  end.

(** [readuntil(self, separator, min_chars=0)] on the bytes [stream] that the
    reader delivers one by one: the frame read and the bytes not read, or
    [None] when the bytes run out before a frame is complete (the call is
    then still waiting, or ends with the exception of the reader when the
    stream is closed). *)
Definition readuntil (separator : bytes) (min_chars : Z) (stream : bytes)
  : option (bytes * bytes) :=
  readuntil_from [] separator min_chars stream.

(** [_read_with_timeout(self, timeout)], given the bytes that the reader
    delivers before the timeout: the reply, and the bytes left in the reader.
    On [asyncio.TimeoutError] the pending [readuntil] is cancelled, and the
    bytes it had read go with it. *)
Definition _read_with_timeout (arrived : bytes) : result string * bytes :=
  match readuntil [CR] 0 arrived with
  | Some (msg_raw, unread) => (decode msg_raw, unread)
  | None => (Ok "", [])
  end.

(** [msg.startswith(prefix)] *)
Definition startswith (msg prefix : string) : bool := String.prefix prefix msg.

(** [msg[n:]] where the first [n] characters are ASCII. *)
Fixpoint str_from (n : nat) (msg : string) : string :=
  match n, msg with
  | S n', String _ msg' => str_from n' msg'
  | _, _ => msg
  end.

(** The number of bytes of the whitespace character a (UTF-8) string starts
    with, 0 when it starts with none.  Whitespace for [str.split()] is
    U+0009..000D, U+001C..0020, U+0085, U+00A0, U+1680, U+2000..200A,
    U+2028, U+2029, U+202F, U+205F and U+3000. *)
Definition whitespace_at (s : string) : nat :=
  match s with
  | EmptyString => O
  | String c0 s1 =>
      let b0 := N_of_ascii c0 in
      if ((9 <=? b0) && (b0 <=? 13) || (28 <=? b0) && (b0 <=? 32))%N then 1%nat
      else match s1 with
           | EmptyString => O
           | String c1 s2 =>
               let b1 := N_of_ascii c1 in
               if (b0 =? 194)%N then
                 if ((b1 =? 133) || (b1 =? 160))%N then 2%nat else O
               else match s2 with
                    | EmptyString => O
                    | String c2 _ =>
                        let b2 := N_of_ascii c2 in
                        if ((b0 =? 225) && (b1 =? 154) && (b2 =? 128))%N then 3%nat
                        else if ((b0 =? 226) && (b1 =? 128)
                                 && ((128 <=? b2) && (b2 <=? 138)
                                     || (b2 =? 168) || (b2 =? 169) || (b2 =? 175)))%N
                        then 3%nat
                        else if ((b0 =? 226) && (b1 =? 129) && (b2 =? 159))%N then 3%nat
                        else if ((b0 =? 227) && (b1 =? 128) && (b2 =? 128))%N then 3%nat
                        else O
                    end
           end
  end.

(** The scan of [str.split()]: [skip] bytes of a whitespace character are
    still to be passed over, [word] is the word being read. *)
Fixpoint split_scan (skip : nat) (word : string) (s : string) : list string :=
  match s with
  | EmptyString => match word with EmptyString => [] | _ => [word] end
  | String c s' =>
      match skip with
      | S skip' => split_scan skip' word s'
      | O =>
          match whitespace_at s with
          | O => split_scan O (word ++ String c EmptyString) s'
          | S k =>
              match word with
              | EmptyString => split_scan k EmptyString s'
              | _ => word :: split_scan k EmptyString s'
              end
          end
      end
  end.

(** [s.split()] *)
Definition str_split (s : string) : list string := split_scan O EmptyString s.

(** What [connect] does, in order. *)
Inductive connect_event : Type :=
| ev_log_info (template : string) (args : list log_arg)
| ev_log_debug (template : string) (args : list log_arg)
| ev_open_serial_connection (url : string) (baudrate : Z)
| ev_sleep (seconds : Q)                    (* the literal [.1] or [.5] *)
| ev_set_low_latency_mode
| ev_set_write_buffer_limits (high low : Z)
| ev_reset_input_buffer
| ev_clear_reader_buffer
| ev_write (data : bytes)
| ev_debug_log (text : string).

(** How [connect] ends: connected, with the three attributes it sets; with
    an exception, its own or the one [_read_with_timeout] ended with; or
    still suspended when the attempts or replies given to it are used up. *)
Inductive connect_outcome : Type :=
| connected (remote_processor remote_model remote_firmware : string)
| raised_SerialException
| raised_ValueError
| raised_by_read (e : exn)
| suspended.

(** Whether [serial] has [set_low_latency_mode], and whether the call is
    accepted or ends with [NotImplementedError] or [ValueError], of text [e]. *)
Inductive low_latency : Type :=
| no_low_latency_mode
| low_latency_accepted
| low_latency_refused (e : string).

Section Connect.

(** [self.config['port']], [self.config['baud']] and
    [self.machine.options["production"]]. *)
Variable port_name : string.
Variable baud : Z.
Variable production : bool.

(** The first loop: open the port, again and again in production mode. *)
Fixpoint open_loop (attempts : list bool) : list connect_event * option bool :=
  match attempts with
  | [] => ([], None)
  | opened :: attempts' =>
      if opened then ([ev_open_serial_connection port_name baud], Some true)
      else if negb production
      then ([ev_open_serial_connection port_name baud], Some false)
      else
        (* if we are in production mode retry *)
        let '(events, r) := open_loop attempts' in
        (ev_open_serial_connection port_name baud
           :: ev_sleep (1 # 10)
           :: ev_log_debug "Connection to %s failed. Will retry." [arg_str port_name]
           :: events, r)
  end.

(** The inner loop: [while msg.startswith('XX:'): msg = await ...]. *)
Fixpoint skip_unrecognized (msg : string) (replies : list (result string))
  : option (result string) * list (result string) :=
  if startswith msg "XX:" then
    match replies with
    | [] => (None, [])
    | Ok msg' :: replies' => skip_unrecognized msg' replies'
    | Raised e :: replies' => (Some (Raised e), replies')
    end
  else (Some (Ok msg), replies).

(** The loop that asks for the identity, with an iteration budget. *)
Fixpoint probe_loop (budget : nat) (replies : list (result string))
  : list connect_event * option (result string) :=
  match budget with
  | O => ([], Some (Raised LoopBudget))
  | S budget' =>
      let asked :=
        [ev_debug_log ("Sending 'ID:' command to " ++ port_name);
         ev_write (encode "ID:" ++ [CR])%list] in
      match replies with
      | [] => (asked, None)
      | Raised e :: _ => (asked, Some (Raised e))
      | Ok msg :: replies' =>
          match skip_unrecognized msg replies' with
          | (None, _) => (asked, None)
          | (Some (Raised e), _) => (asked, Some (Raised e))
          | (Some (Ok msg), replies'') =>
              if startswith msg "ID:" then (asked, Some (Ok msg))
              else
                let '(events, r) := probe_loop budget' replies'' in
                ((asked ++ ev_sleep (1 # 2) :: events)%list, r)
          end
      end
  end.

(** The two unpackings of [msg[3:].split()]. *)
Definition identify (msg : string) : connect_outcome :=
  match str_split (str_from 3 msg) with
  | [processor; model; firmware] => connected processor model firmware
  | [model; firmware] =>
      (* some boards do not include a processor type, default to NET *)
      connected "NET" model firmware
  | _ => raised_ValueError
  end.

(** The filler: [((' ' * 256 * 4) + '\r').encode()]. *)
Definition filler : bytes := (repeat x20 1024 ++ [CR])%list.

(** [connect(self)]: [attempts] tells of each attempt to open the port
    whether it succeeded ([SerialException] otherwise), [replies] is what
    the successive calls of [_read_with_timeout] end with. *)
Definition connect (attempts : list bool) (low : low_latency)
  (replies : list (result string)) : list connect_event * connect_outcome :=
  let start :=
    [ev_log_info "Connecting to %s at %sbps" [arg_str port_name; arg_int baud]] in
  match open_loop attempts with
  | (opening, None) => ((start ++ opening)%list, suspended)
  | (opening, Some false) => ((start ++ opening)%list, raised_SerialException)
  | (opening, Some true) =>
      let tuning :=
        (match low with
         | no_low_latency_mode => []
         | low_latency_accepted => [ev_set_low_latency_mode]
         | low_latency_refused e =>
             [ev_set_low_latency_mode;
              ev_log_info "Could not set %s to low latency mode: %s"
                [arg_str port_name; arg_str e]]
         end
         ++ [ev_set_write_buffer_limits 2048 1024;
             ev_reset_input_buffer;
             ev_clear_reader_buffer;
             ev_write filler])%list in
      let '(probing, r) := probe_loop (S (List.length replies)) replies in
      let events := (start ++ opening ++ tuning ++ probing)%list in
      match r with
      | None => (events, suspended)
      | Some (Raised e) => (events, raised_by_read e)
      | Some (Ok msg) =>
          match identify msg with
          | connected processor model firmware =>
              ((events
                  ++ [ev_log_info "Connected! Processor: %s, Board Type: %s, Firmware: %s"
                        [arg_str processor; arg_str model; arg_str firmware]])%list,
               connected processor model firmware)
          | o => (events, o)
          end
      end
  end.

End Connect.

(** What the reader task does besides dispatching: its warnings and the
    call of [machine.stop]. *)
Inductive reader_event : Type :=
| rd_log_warning (text : string)
| rd_machine_stop (reason : string).

(** How [self.reader.read(n)] ends: with bytes (none when the stream is
    closed), with [asyncio.CancelledError], or with another exception, of
    text [e]. *)
Inductive stream_read : Type :=
| stream_bytes (resp : bytes)
| stream_cancelled
| stream_error (e : string).

(** How [read] ends: it returns bytes or [None], or lets
    [asyncio.CancelledError] through. *)
Inductive read_outcome : Type :=
| read_resp (resp : bytes)
| read_None
| read_CancelledError.

(** [read(self, n=-1)] *)
Definition read (c : FastSerialCommunicator) (r : stream_read)
  : read_outcome * list reader_event :=
  match r with
  | stream_cancelled => (read_CancelledError, [])
  | stream_error e => (read_None, [rd_log_warning ("Serial error: " ++ e)])
  | stream_bytes resp =>
      (* we either got empty response (-> socket closed) or and error *)
      match resp with
      | [] => (read_None,
               [rd_log_warning "Serial closed.";
                rd_machine_stop ("Serial " ++ port c ++ " closed.")])
      | _ => (read_resp resp, [])
      end
  end.

(** How the reader task ends: it returns, it is cancelled, [_parse_msg]
    raises, or it is still waiting when the reads given to it are used up. *)
Inductive reader_end : Type :=
| reader_returned
| reader_cancelled
| reader_raised (e : exn)
| reader_waiting.

(** [_socket_reader(self)] *)
Fixpoint _socket_reader (reads : list stream_read) (c : FastSerialCommunicator)
  : reader_end * FastSerialCommunicator * list reader_event :=
  match reads with
  | [] => (reader_waiting, c, [])
  | r :: reads' =>
      match read c r with
      | (read_CancelledError, events) => (reader_cancelled, c, events)
      | (read_None, events) => (reader_returned, c, events)
      | (read_resp resp, events) =>
          match _parse_msg resp c with
          | (Raised e, c') => (reader_raised e, c', events)
          | (Ok _, c') =>
              let '(e, c'', events') := _socket_reader reads' c' in
              (e, c'', (events ++ events')%list)
          end
      end
  end.

(** Whether [self.write_task], [self.read_task] and [self.writer] are set. *)
Record Handles := { write_task : bool; read_task : bool; writer : bool }.

(** What [stop] does, in order. *)
Inductive stop_event : Type :=
| st_write_task_cancel
| st_log_error (template : string) (args : list log_arg)
| st_read_task_cancel
| st_writer_close
| st_writer_wait_closed.

(** [stop(self)]; [has_wait_closed] is [hasattr(self.writer, "wait_closed")]. *)
Definition stop (has_wait_closed : bool) (c : FastSerialCommunicator) (h : Handles)
  : Handles * list stop_event :=
  let '(h, e1) :=
    if write_task h
    then ({| write_task := false; read_task := read_task h; writer := writer h |},
          [st_write_task_cancel])
    else (h, []) in
  let e2 := [st_log_error "Stop called on serial connection %s"
               [arg_str (remote_processor c)]] in
  let '(h, e3) :=
    if read_task h
    then ({| write_task := write_task h; read_task := false; writer := writer h |},
          [st_read_task_cancel])
    else (h, []) in
  let '(h, e4) :=
    if writer h
    then ({| write_task := write_task h; read_task := read_task h; writer := false |},
          st_writer_close
            :: (if has_wait_closed then [st_writer_wait_closed] else []))
    else (h, []) in
  (h, (e1 ++ e2 ++ e3 ++ e4)%list).

(** Words for the properties of the handshake. *)

(** A byte that begins no whitespace character. *)
Definition word_byte (c : ascii) : bool :=
  let b := N_of_ascii c in
  negb ((9 <=? b) && (b <=? 13) || (28 <=? b) && (b <=? 32)
        || (b =? 194) || (b =? 225) || (b =? 226) || (b =? 227))%N.

Fixpoint word_bytes (w : string) : bool :=
  match w with
  | EmptyString => true
  | String c w' => word_byte c && word_bytes w'
  end.

(** A field of an identity reply: not empty, and no whitespace in it. *)
Definition is_word (w : string) : bool :=
  str_truthy w && word_bytes w.

(** The fields, one space between them. *)
Fixpoint join_words (words : list string) : string :=
  match words with
  | [] => ""
  | [w] => w
  | w :: words' => w ++ " " ++ join_words words'
  end.

(** The reply of a board to [ID:] with the given fields. *)
Definition id_reply (words : list string) : string :=
  "ID:" ++ join_words words ++ String "013" "".

(** What one unanswered query adds to the trace of [connect], and the
    trace of the queries up to the one that is answered: every reply that
    is not an [XX:] one costs a pause and a new query. *)
Definition query (port_name : string) : list connect_event :=
  [ev_debug_log ("Sending 'ID:' command to " ++ port_name);
   ev_write (encode "ID:" ++ [CR])%list].

Definition queries (port_name : string) (junk : list string) : list connect_event :=
  (List.concat
     (map (fun _ => query port_name ++ [ev_sleep (1 # 2)])
        (filter (fun msg => negb (startswith msg "XX:")) junk))
   ++ query port_name)%list.

(** The replies before the one that decides, and the deciding one: an
    identity, or an exception. *)
Definition undecided (msg : string) : bool := negb (startswith msg "ID:").

Definition decisive (r : result string) : bool :=
  match r with
  | Ok msg => startswith msg "ID:"
  | Raised _ => true
  end.

(** The replies that follow the undecided ones: a deciding one and
    whatever comes after it, or none at all. *)
Definition ending (next : option (result string)) (rest : list (result string))
  : list (result string) :=
  match next with
  | Some r => r :: rest
  | None => []
  end.

Definition decides (next : option (result string)) : Prop :=
  match next with
  | Some r => decisive r = true
  | None => True
  end.

(** What a trace of [connect] writes to the port, and the pauses in it. *)
Definition writes (events : list connect_event) : list bytes :=
  flat_map (fun ev => match ev with ev_write data => [data] | _ => [] end) events.

Definition pauses (events : list connect_event) : list Q :=
  flat_map (fun ev => match ev with ev_sleep seconds => [seconds] | _ => [] end) events.

(** The replies that are answered with a pause and a new query. *)
Definition unanswered (junk : list string) : nat :=
  List.length (filter (fun msg => negb (startswith msg "XX:")) junk).

(** A handshake: the port opens at the third attempt, the board answers an
    empty reply (a timeout), an [XX:] reply and a watchdog reply before its
    identity. *)
Definition sample_attempts : list bool := [false; false; true].

Definition sample_junk : list string :=
  [""; "XX:F" ++ String "013" ""; "WD:P" ++ String "013" ""].

Definition sample_identity : list string := ["NET"; "FP-CPU-2000"; "1.05"].

Definition sample_handles : Handles :=
  {| write_task := true; read_task := true; writer := true |}.

(* ===================================================================== *)
(** * Part V.  Properties of the driver command encoder                   *)
(* ===================================================================== *)

Section DriverProperties.

Context {U : Util}.
Import DriverM.

Ltac run_driver :=
  unfold run, commands, object, value, _pulse, enable, disable, set_autofire,
    clear_autofire, _reenable_autofire_if_configured, bind, ret, self, emit,
    set_autofire_attr, set_autofire_cleared, set_config_state; cbn.

Lemma tuple_eqb_iff (a b : config_tuple) : tuple_eqb a b = true <-> tuple_eq a b.
Proof.
  destruct a as [[a0 a1] a2], b as [[b0 b1] b2]; unfold tuple_eqb, tuple_eq.
  rewrite !andb_true_iff, !Qeq_bool_iff. tauto.
Qed.

Lemma must_reconfigure_false (d : FASTDriver) ps hs :
  must_reconfigure (config_state d) (requested ps hs) = false <-> cache_agrees d ps.
Proof.
  unfold must_reconfigure, cache_agrees, requested.
  destruct (config_state d) as [[[c0 c1] c2]|].
  - rewrite orb_false_iff, !negb_false_iff, !Qeq_bool_iff. split.
    + intros [H0 H1]. exists c0, c1, c2. auto.
    + intros (x0 & x1 & x2 & E & H0 & H1). inversion E; subst. auto.
  - split; [discriminate|]. intros (x0 & x1 & x2 & E & _). discriminate.
Qed.

Lemma must_reconfigure_true (d : FASTDriver) ps hs :
  must_reconfigure (config_state d) (requested ps hs) = true <-> ~ cache_agrees d ps.
Proof.
  rewrite <- (must_reconfigure_false d ps hs).
  destruct (must_reconfigure (config_state d) (requested ps hs));
    split; intros H; try reflexivity; try discriminate.
  exfalso; apply H; reflexivity.
Qed.

(** What [_pulse] does, step by step: the chosen command, then the re-arm
    step run from the state the choice left behind. *)
Lemma _pulse_unfold (d : FASTDriver) ps hs :
  run (_pulse ps hs) d =
  let d1 := if must_reconfigure (config_state d) (requested ps hs)
            then reconfigured d (requested ps hs) else d in
  let c := if must_reconfigure (config_state d) (requested ps hs)
           then reconfigure_command d ps hs else retrigger_command d in
  (hex_string_to_int (int_to_hex_string (pulse_duration ps) false),
   object (run _reenable_autofire_if_configured d1),
   (c :: rearm_commands d1)%list).
Proof.
  unfold requested, reconfigure_command, retrigger_command, rearm_commands,
    reconfigured, pulse_config_cmd, pulse_trigger_cmd.
  run_driver.
  destruct hs as [hs|]; cbn;
    destruct (must_reconfigure (config_state d) _); cbn;
    destruct (autofire d) as [[acmd atup]|]; cbn; try reflexivity;
    destruct (_autofire_cleared d); reflexivity.
Qed.

(** C1.  A pulse or timed-enable request whose (duration, pulse power)
    equal the first two components of a set cache sends the short
    re-trigger command [<TRIGGER_CMD>:N,01]; every other request (cache
    unset, or one of the two components differs) sends the full
    reconfiguration-and-fire command (trigger 89) carrying duration, pulse
    power, hold duration and hold power, and sets the cache to the
    requested (duration, pulse power, hold power).  Hold power takes no
    part in the comparison.  The only thing that may follow the chosen
    command is the re-arm step of the autofire rule. *)
Theorem pulse_retrigger_or_reconfigure (d : FASTDriver) (ps : PulseSettings)
  (hs : option HoldSettings) :
  let r := run (_pulse ps hs) d in
  (cache_agrees d ps ->
     commands r = (retrigger_command d :: rearm_commands d)%list
     /\ object r = object (run _reenable_autofire_if_configured d))
  /\ (~ cache_agrees d ps ->
     commands r = (reconfigure_command d ps hs
                     :: rearm_commands (reconfigured d (requested ps hs)))%list
     /\ config_state (reconfigured d (requested ps hs)) = Some (requested ps hs)
     /\ object r = object (run _reenable_autofire_if_configured
                             (reconfigured d (requested ps hs)))
     /\ (autofire d = None -> config_state (object r) = Some (requested ps hs))).
Proof.
  cbv zeta. rewrite _pulse_unfold. split; intros H.
  - apply must_reconfigure_false with (hs := hs) in H. rewrite H. cbn. auto.
  - apply must_reconfigure_true with (hs := hs) in H. rewrite H. cbn.
    repeat split; auto.
    intros Hnone. run_driver. rewrite Hnone. reflexivity.
Qed.


Lemma enable_test (d : FASTDriver) ps hs :
  (match autofire d with Some _ => true | None => false end
   && opt_tuple_eqb (config_state d)
        (inject_Z (pulse_duration ps), pulse_power ps, hold_power hs)) = true
  <-> enable_cache_hit d ps hs.
Proof.
  unfold enable_cache_hit, opt_tuple_eqb. rewrite andb_true_iff. split.
  - intros [Ha Hc]. split.
    + destruct (autofire d) as [b|]; [eauto | discriminate].
    + destruct (config_state d) as [t|]; [| discriminate].
      exists t. split; [reflexivity | now apply tuple_eqb_iff].
  - intros [[b Hb] (t & Ht & Heq)]. rewrite Hb, Ht. split; [reflexivity |].
    now apply tuple_eqb_iff.
Qed.

(** On its full-configuration path [enable] stores the pulse duration in
    both the duration and the pulse-power slot of the cache. *)
Lemma enable_full_path_cache (d : FASTDriver) ps hs :
  ~ enable_cache_hit d ps hs ->
  config_state (object (run (enable ps hs) d))
  = Some (inject_Z (pulse_duration ps), inject_Z (pulse_duration ps), hold_power hs).
Proof.
  intros H. rewrite <- enable_test in H. apply not_true_is_false in H.
  run_driver. rewrite H. reflexivity.
Qed.

(** Whatever the helpers of [Util] return: once an [enable] with a 20 ms
    pulse has suspended the binding for (10 ms, 1.0, 0.5), an [enable] that
    asks for the tuple of the binding is answered with the full
    configuration command, which is not the manual trigger. *)
Lemma enable_after_suspension :
  commands (run (enable pulse_10ms hold_half) driver_enabled_20ms)
  = [sustained_enable_command driver_enabled_20ms pulse_10ms hold_half]
  /\ sustained_enable_command driver_enabled_20ms pulse_10ms hold_half
     <> manual_trigger_command driver_enabled_20ms.
Proof.
  split; [reflexivity |].
  unfold sustained_enable_command, manual_trigger_command. cbn.
  intros H. discriminate H.
Qed.

(** C2 (amended).  [enable] sends the manual trigger [<TRIGGER_CMD>:N,03],
    and leaves the object as it is, when an autofire binding exists and the
    cached Driver Command State equals the requested (pulse duration, pulse
    power, hold power); in every other case it sends the full
    sustained-enable configuration command (trigger C1, mode 18) and marks
    the autofire binding as suspended. *)
Theorem enable_trigger_iff_cache_hit (d : FASTDriver) (ps : PulseSettings)
  (hs : HoldSettings) :
  let r := run (enable ps hs) d in
  (enable_cache_hit d ps hs ->
     commands r = [manual_trigger_command d] /\ object r = d)
  /\ (~ enable_cache_hit d ps hs ->
     commands r = [sustained_enable_command d ps hs]
     /\ _autofire_cleared (object r) = true
     /\ autofire (object r) = autofire d).
Proof.
  cbv zeta. split; intros H.
  - rewrite <- enable_test in H.
    unfold manual_trigger_command. run_driver. rewrite H. cbn.
    split; [reflexivity | destruct d; reflexivity].
  - rewrite <- enable_test in H. apply not_true_is_false in H.
    unfold sustained_enable_command. run_driver. rewrite H. cbn. auto.
Qed.

(** C7.  [disable] called right after [set_autofire] sends exactly two
    commands: the immediate-disable trigger [<TRIGGER_CMD>:N,02], then the
    re-enable-autofire trigger [<TRIGGER_CMD>:N,00]. *)
Theorem disable_after_set_autofire (d : FASTDriver) (autofire_cmd : string)
  (pulse_duration pulse_power hold_power : Q) :
  commands (run disable
              (object (run (set_autofire autofire_cmd pulse_duration pulse_power
                              hold_power) d)))
  = [send_and_forget (trigger_cmd d ++ ":" ++ number d ++ ",02");
     send_and_forget (trigger_cmd d ++ ":" ++ number d ++ ",00")].
Proof. run_driver. reflexivity. Qed.

(** A disable on an output whose binding is suspended first re-sends the
    rule, then re-arms it. *)
Lemma disable_with_suspended_autofire (d : FASTDriver) acmd atup :
  autofire d = Some (acmd, atup) ->
  _autofire_cleared d = true ->
  commands (run disable d)
  = [send_and_forget (trigger_cmd d ++ ":" ++ number d ++ ",02");
     send_with_confirmation acmd (driver_cmd d);
     send_and_forget (trigger_cmd d ++ ":" ++ number d ++ ",00")].
Proof. intros Ha Hc. run_driver. rewrite Ha, Hc. cbn. rewrite Ha. reflexivity. Qed.

(** C8.  A pulse or timed-enable on an output whose autofire binding
    exists and is suspended, be it from an earlier operation or because
    this request reconfigured the output, ends by re-sending the stored
    autofire rule command; afterwards the suspended flag is down and the
    cached Driver Command State is the tuple of the binding. *)
Theorem pulse_rearms_suspended_autofire (d : FASTDriver) (ps : PulseSettings)
  (hs : option HoldSettings) (acmd : string) (atup : config_tuple) :
  autofire d = Some (acmd, atup) ->
  _autofire_cleared d = true \/ ~ cache_agrees d ps ->
  let r := run (_pulse ps hs) d in
  (exists first, commands r = [first; send_with_confirmation acmd (driver_cmd d)])
  /\ _autofire_cleared (object r) = false
  /\ config_state (object r) = Some atup
  /\ autofire (object r) = Some (acmd, atup).
Proof.
  intros Ha Hs. cbv zeta. rewrite _pulse_unfold. cbv zeta.
  destruct (must_reconfigure (config_state d) (requested ps hs)) eqn:Hm.
  - unfold rearm_commands, reconfigured. run_driver. rewrite Ha. cbn. eauto.
  - destruct Hs as [Hc | Hn].
    + unfold rearm_commands. run_driver. rewrite Ha, Hc. cbn. eauto.
    + apply (must_reconfigure_true d ps hs) in Hn. congruence.
Qed.

(** When the binding is not suspended and the cache agrees with the
    request, nothing is re-sent: the re-trigger is the only command. *)
Lemma pulse_leaves_armed_autofire (d : FASTDriver) ps hs :
  _autofire_cleared d = false ->
  cache_agrees d ps ->
  commands (run (_pulse ps hs) d) = [retrigger_command d]
  /\ object (run (_pulse ps hs) d) = d.
Proof.
  intros Hc Hk. rewrite _pulse_unfold. cbv zeta.
  apply (must_reconfigure_false d ps hs) in Hk. rewrite Hk.
  unfold rearm_commands. run_driver. rewrite Hc.
  destruct (autofire d) as [[a t]|]; cbn; split; try reflexivity;
    destruct d; cbn in *; subst; reflexivity.
Qed.

(** C10.  After [clear_autofire] the autofire binding and the cached
    Driver Command State are both unset, and the next pulse or timed-enable
    sends the full reconfiguration command (trigger 89) and nothing else. *)
Theorem clear_autofire_forces_reconfigure (d : FASTDriver) (config_cmd num : string)
  (ps : PulseSettings) (hs : option HoldSettings) :
  let d' := object (run (clear_autofire config_cmd num) d) in
  autofire d' = None
  /\ config_state d' = None
  /\ commands (run (_pulse ps hs) d') = [reconfigure_command d' ps hs]
  /\ commands (run (_pulse ps hs) d') <> [retrigger_command d'].
Proof.
  cbv zeta. split; [reflexivity |]. split; [reflexivity |].
  assert (E : commands (run (_pulse ps hs)
                          (object (run (clear_autofire config_cmd num) d)))
              = [reconfigure_command
                   (object (run (clear_autofire config_cmd num) d)) ps hs]).
  { rewrite _pulse_unfold. reflexivity. }
  split; [exact E |]. rewrite E. unfold reconfigure_command, retrigger_command.
  intros H. inversion H.
Qed.

End DriverProperties.


(** ** The power encoding *)

Section PowerEncoding.

Context {U : Util}.
Local Open Scope Q_scope.

Lemma Qlt_bool_iff (x y : Q) : Qlt_bool x y = true <-> x < y.
Proof.
  unfold Qlt_bool. rewrite negb_true_iff. split.
  - intros H. apply Qnot_le_lt. intros Hle.
    apply Qle_bool_iff in Hle. congruence.
  - intros H. destruct (Qle_bool y x) eqn:E; [| reflexivity].
    apply Qle_bool_iff in E. exfalso. exact (Qlt_not_le _ _ H E).
Qed.

(** On non-negative numbers [int()] is the floor. *)
Lemma py_int_floor (x : Q) : 0 <= x -> py_int x = Qfloor x.
Proof.
  destruct x as [n d]. unfold Qle, py_int, Qfloor. cbn. intros H.
  apply Z.quot_div_nonneg; lia.
Qed.

Lemma py_int_bounds (x : Q) :
  0 <= x -> inject_Z (py_int x) <= x /\ x < inject_Z (py_int x) + 1.
Proof.
  intros H. rewrite (py_int_floor x H). split.
  - apply Qfloor_le.
  - pose proof (Qlt_floor x) as Hf. rewrite inject_Z_plus in Hf. exact Hf.
Qed.

Lemma py_int_range (x : Q) (n : Z) :
  0 <= x -> x <= inject_Z n -> (0 <= py_int x <= n)%Z.
Proof.
  intros H0 Hn. rewrite (py_int_floor x H0). split.
  - rewrite <- (Qfloor_Z 0). now apply Qfloor_resp_le.
  - rewrite <- (Qfloor_Z n). now apply Qfloor_resp_le.
Qed.

Lemma eighth (x : Q) : x / 8 == x * (1 # 8).
Proof. unfold Qdiv. reflexivity. Qed.

(** The same in units of one step. *)
Lemma pwm8_reproduces_scaled (power : Q) (k : Z) :
  pwm8_reproduces power k
  <-> inject_Z k <= power * 8 /\ power * 8 < inject_Z k + float_0_025.
Proof.
  unfold pwm8_reproduces. rewrite !eighth. unfold float_0_025.
  split; intros [H1 H2]; split; lra.
Qed.

(** At most one level reproduces a fraction: the one [int(power * 8)] picks. *)
Lemma pwm8_level_unique (power : Q) (k : Z) :
  0 <= power -> pwm8_reproduces power k -> k = py_int (power * 8).
Proof.
  intros H0 Hk. apply pwm8_reproduces_scaled in Hk. destruct Hk as [Hlo Hhi].
  assert (H8 : 0 <= power * 8) by lra.
  destruct (py_int_bounds _ H8) as [Flo Fhi].
  unfold float_0_025 in Hhi.
  assert (A : inject_Z k < inject_Z (py_int (power * 8) + 1)).
  { rewrite inject_Z_plus. change (inject_Z 1) with 1. lra. }
  assert (B : inject_Z (py_int (power * 8)) < inject_Z (k + 1)).
  { rewrite inject_Z_plus. change (inject_Z 1) with 1. lra. }
  rewrite <- Zlt_Qlt in A, B. lia.
Qed.

Lemma get_pwm_for_cmd_test (power : Q) :
  0 <= power ->
  (Qlt_bool (power * 8 - inject_Z (py_int (power * 8))) float_0_025 = true
   <-> pwm8_reproduces power (py_int (power * 8))).
Proof.
  intros H0. assert (H8 : 0 <= power * 8) by lra.
  destruct (py_int_bounds _ H8) as [Flo _].
  rewrite Qlt_bool_iff, pwm8_reproduces_scaled. split.
  - intros H. split; [exact Flo | lra].
  - intros [_ H]. lra.
Qed.

(** C9.  For a power fraction in [0, 1], [get_pwm_for_cmd] returns the
    8-step encoding of level k exactly when level k reproduces the fraction
    within the tolerance (level k then lies in 0..8), and the 32-step
    encoding of [int(power * 32)] (a level in 0..32) when no 8-step level
    does.  In particular every fraction k/8 (0.0, 0.125, 0.5, 1.0, ...) gets
    the 8-step encoding of level k, and 0.3333 gets the 32-step encoding (of
    level 10). *)
Theorem get_pwm_for_cmd_resolution (power : Q) :
  0 <= power <= 1 ->
  (forall k : Z, pwm8_reproduces power k ->
     (0 <= k <= 8)%Z /\ get_pwm_for_cmd power = upper (pwm8_to_hex_string k))
  /\ ((forall k : Z, ~ pwm8_reproduces power k) ->
      (0 <= py_int (power * 32) <= 32)%Z
      /\ get_pwm_for_cmd power = upper (pwm32_to_hex_string (py_int (power * 32))))
  /\ ((exists k : Z, pwm8_reproduces power k) \/ (forall k : Z, ~ pwm8_reproduces power k))
  /\ (forall k : Z, (0 <= k <= 8)%Z ->
        get_pwm_for_cmd (inject_Z k / 8) = upper (pwm8_to_hex_string k))
  /\ get_pwm_for_cmd 0 = upper (pwm8_to_hex_string 0)
  /\ get_pwm_for_cmd 0.125 = upper (pwm8_to_hex_string 1)
  /\ get_pwm_for_cmd 0.5 = upper (pwm8_to_hex_string 4)
  /\ get_pwm_for_cmd 1 = upper (pwm8_to_hex_string 8)
  /\ get_pwm_for_cmd 0.3333 = upper (pwm32_to_hex_string 10).
Proof.
  intros [H0 H1].
  assert (Hsel : forall q k, 0 <= q -> pwm8_reproduces q k ->
                   get_pwm_for_cmd q = upper (pwm8_to_hex_string k)).
  { intros q k Hq Hk. pose proof (pwm8_level_unique q k Hq Hk) as ->.
    apply (get_pwm_for_cmd_test q Hq) in Hk.
    unfold get_pwm_for_cmd. rewrite Hk. reflexivity. }
  split; [| split; [| split; [| split]]].
  - intros k Hk. split; [| now apply Hsel].
    rewrite (pwm8_level_unique power k H0 Hk).
    apply py_int_range; [lra |]. change (inject_Z 8) with 8. lra.
  - intros Hnone. split.
    + apply py_int_range; [lra |]. change (inject_Z 32) with 32. lra.
    + unfold get_pwm_for_cmd.
      destruct (Qlt_bool _ float_0_025) eqn:E; [| reflexivity].
      apply (get_pwm_for_cmd_test power H0) in E. destruct (Hnone _ E).
  - destruct (Qlt_bool (power * 8 - inject_Z (py_int (power * 8))) float_0_025) eqn:E.
    + left. exists (py_int (power * 8)). now apply (get_pwm_for_cmd_test power H0).
    + right. intros k Hk. pose proof (pwm8_level_unique power k H0 Hk) as ->.
      apply (get_pwm_for_cmd_test power H0) in Hk. congruence.
  - intros k [Hk0 Hk8]. apply Hsel.
    + rewrite eighth. rewrite Zle_Qle in Hk0. change (inject_Z 0) with 0 in Hk0. lra.
    + unfold pwm8_reproduces, float_0_025. rewrite !eighth. split; lra.
  - repeat split; vm_compute; reflexivity.
Qed.

End PowerEncoding.

(** ** Rounding

    [fl] is any rounding to binary64 that returns a number that is binary64
    unchanged, as rounding to nearest does. *)

Section RoundedProperties.

Context {U : Util}.
Variable fl : Q -> Q.
Hypothesis fl_exact : forall q, binary64 q -> fl q == q.
Local Open Scope Q_scope.

Lemma binary64_comp (x y : Q) : x == y -> binary64 x -> binary64 y.
Proof.
  intros E (m & a & Hm & Ha & H). exists m, a. repeat split; try assumption.
  all: try lia. rewrite <- E. exact H.
Qed.

Lemma binary64_small (k : Z) : (0 <= k <= 32)%Z -> binary64 (inject_Z k).
Proof.
  intros Hk. exists k, 1074%Z. split; [| split]; [lia | lia |].
  rewrite <- inject_Z_mult. reflexivity.
Qed.

Lemma S_pos : 0 < inject_Z (2 ^ 1074).
Proof. rewrite <- (Zlt_Qlt 0). apply Z.pow_pos_nonneg; lia. Qed.

(** Scaling a double of [0, 1] by 8 or by 32 is exact. *)
Lemma binary64_scale (q : Q) (j : Z) :
  (0 <= j <= 5)%Z -> 0 <= q <= 1 -> binary64 q -> binary64 (q * inject_Z (2 ^ j)).
Proof.
  intros Hj [H0 H1] (m & a & Hm & Ha & H).
  destruct (Z.eq_dec m 0) as [-> | Hnz].
  - exists 0%Z, 0%Z. split; [lia |]. split; [lia |].
    rewrite Z.mul_0_l in *. change (inject_Z 0) with 0 in *.
    rewrite <- Qmult_assoc, (Qmult_comm (inject_Z (2 ^ j))), Qmult_assoc, H. ring.
  - assert (Hle : (m * 2 ^ a <= 2 ^ 1074)%Z).
    { rewrite Zle_Qle, <- H. pose proof S_pos. nra. }
    assert (Hge : (0 <= m * 2 ^ a)%Z).
    { rewrite Zle_Qle, <- H. pose proof S_pos. change (inject_Z 0) with 0. nra. }
    assert (Hpa : (0 < 2 ^ a)%Z) by (apply Z.pow_pos_nonneg; lia).
    assert (Hmpos : (0 < m)%Z) by nia.
    assert (Ha' : (a <= 1074)%Z).
    { destruct (Z_le_gt_dec a 1074) as [|Hgt]; [assumption | exfalso].
      assert ((2 ^ 1074 < 2 ^ a)%Z) by (apply Z.pow_lt_mono_r; lia). nia. }
    exists m, (a + j)%Z. split; [exact Hm |]. split; [lia |].
    rewrite Z.pow_add_r by lia. rewrite Z.mul_assoc, inject_Z_mult, <- H. ring.
Qed.

(** [int()] depends on the value only. *)
Lemma py_int_comp (x y : Q) : 0 <= x -> x == y -> py_int x = py_int y.
Proof.
  intros Hx E. rewrite (py_int_floor x Hx), (py_int_floor y) by (rewrite <- E; exact Hx).
  now apply Qfloor_comp.
Qed.

(** The part of a non-negative double after the point is a double. *)
Lemma binary64_frac (x : Q) :
  0 <= x -> binary64 x -> binary64 (x - inject_Z (py_int x)).
Proof.
  intros Hx (m & a & Hm & Ha & H).
  destruct (py_int_bounds x Hx) as [Flo Fhi].
  pose proof S_pos as HS.
  assert (Hpa : (0 < 2 ^ a)%Z) by (apply Z.pow_pos_nonneg; lia).
  destruct (Z_le_gt_dec 1074 a) as [Hbig | Hsmall].
  - (* an integer *)
    assert (Hx' : x == inject_Z (m * 2 ^ (a - 1074))).
    { apply (Qmult_inj_r _ _ (inject_Z (2 ^ 1074))); [lra |].
      rewrite H, <- inject_Z_mult, <- Z.mul_assoc, <- Z.pow_add_r by lia.
      replace (a - 1074 + 1074)%Z with a by lia. reflexivity. }
    assert (Hk : py_int x = (m * 2 ^ (a - 1074))%Z).
    { rewrite (py_int_comp _ _ Hx Hx'), py_int_floor by (rewrite <- Hx'; exact Hx).
      apply Qfloor_Z. }
    exists 0%Z, 0%Z. split; [lia |]. split; [lia |].
    rewrite Hk, Hx'. change (inject_Z (0 * 2 ^ 0)) with 0.
    generalize (inject_Z (2 ^ 1074)) (inject_Z (m * 2 ^ (a - 1074))).
    intros s n. ring.
  - exists (m - py_int x * 2 ^ (1074 - a))%Z, a.
    assert (E : (x - inject_Z (py_int x)) * inject_Z (2 ^ 1074)
                == inject_Z ((m - py_int x * 2 ^ (1074 - a)) * 2 ^ a)).
    { rewrite Z.mul_sub_distr_r, <- Z.mul_assoc, <- Z.pow_add_r by lia.
      replace (1074 - a + a)%Z with 1074%Z by lia.
      unfold Z.sub. rewrite inject_Z_plus, inject_Z_opp, <- H.
      rewrite (inject_Z_mult (py_int x)).
      generalize (inject_Z (2 ^ 1074)). intros s. ring. }
    assert (Hk0 : (0 <= py_int x)%Z).
    { rewrite (py_int_floor x Hx), <- (Qfloor_Z 0). now apply Qfloor_resp_le. }
    assert (Hp : (0 < 2 ^ (1074 - a))%Z) by (apply Z.pow_pos_nonneg; lia).
    assert (Hnn : (0 <= (m - py_int x * 2 ^ (1074 - a)) * 2 ^ a)%Z).
    { rewrite Zle_Qle, <- E. change (inject_Z 0) with 0. nra. }
    split; [| split; [lia | exact E]].
    assert (0 <= m - py_int x * 2 ^ (1074 - a))%Z by nia.
    assert (m - py_int x * 2 ^ (1074 - a) <= m)%Z by nia.
    lia.
Qed.

(** On a double of [0, 1] the rounded computation is the exact one. *)
Lemma get_pwm_for_cmd_rounded_exact (power : Q) :
  binary64 power -> 0 <= power <= 1 ->
  get_pwm_for_cmd_rounded fl power = get_pwm_for_cmd power.
Proof.
  intros Hb [H0 H1].
  assert (B8 : binary64 (power * 8)) by (apply (binary64_scale power 3); [lia | split; assumption | exact Hb]).
  assert (B32 : binary64 (power * 32)) by (apply (binary64_scale power 5); [lia | split; assumption | exact Hb]).
  pose proof (fl_exact _ B8) as E8. pose proof (fl_exact _ B32) as E32.
  assert (K8 : py_int (fl (power * 8)) = py_int (power * 8))
    by (apply py_int_comp; [rewrite E8; lra | exact E8]).
  assert (K32 : py_int (fl (power * 32)) = py_int (power * 32))
    by (apply py_int_comp; [rewrite E32; lra | exact E32]).
  unfold get_pwm_for_cmd_rounded, get_pwm_for_cmd. rewrite K8, K32.
  assert (Hk : (0 <= py_int (power * 8) <= 8)%Z).
  { apply py_int_range; [lra |]. change (inject_Z 8) with 8. lra. }
  pose proof (fl_exact _ (binary64_small (py_int (power * 8)) ltac:(lia))) as Ek.
  assert (Ed : fl (power * 8) - fl (inject_Z (py_int (power * 8)))
               == power * 8 - inject_Z (py_int (power * 8)))
    by (rewrite E8, Ek; reflexivity).
  assert (Bd : binary64 (fl (power * 8) - fl (inject_Z (py_int (power * 8))))).
  { apply (binary64_comp (power * 8 - inject_Z (py_int (power * 8)))).
    - symmetry. exact Ed.
    - apply binary64_frac; [lra | exact B8]. }
  pose proof (fl_exact _ Bd) as Ef.
  assert (Et : Qlt_bool (fl (fl (power * 8) - fl (inject_Z (py_int (power * 8)))))
                 float_0_025
               = Qlt_bool (power * 8 - inject_Z (py_int (power * 8))) float_0_025).
  { unfold Qlt_bool. f_equal. apply Qleb_comp; [reflexivity |]. now rewrite Ef, Ed. }
  rewrite Et. reflexivity.
Qed.

End RoundedProperties.

(** The literals of the examples are doubles; [0.3333] denotes the last one. *)
Lemma binary64_examples :
  binary64 0 /\ binary64 0.125 /\ binary64 0.5 /\ binary64 1
  /\ binary64 (6004199023210345 # 18014398509481984).
Proof.
  split; [exists 0, 0 | split; [exists 1, 1071 | split; [exists 1, 1073 |
    split; [exists 1, 1074 | exists 6004199023210345, 1020]]]].
  all: split; [vm_compute; reflexivity |]; split; [lia |].
  all: unfold Qeq; vm_compute; reflexivity.
Qed.

(** The examples, computed with rounding: exact arithmetic is one rounding
    that leaves doubles unchanged, and every other gives the same. *)
Lemma get_pwm_for_cmd_rounded_examples (fl : Q -> Q) :
  (forall q, binary64 q -> (fl q == q)%Q) ->
  get_pwm_for_cmd_rounded (U := sample_util) fl 0 = "00"
  /\ get_pwm_for_cmd_rounded (U := sample_util) fl 0.125 = "01"
  /\ get_pwm_for_cmd_rounded (U := sample_util) fl 0.5 = "AA"
  /\ get_pwm_for_cmd_rounded (U := sample_util) fl 1 = "FF"
  /\ get_pwm_for_cmd_rounded (U := sample_util) fl
       (6004199023210345 # 18014398509481984) = "000003FF".
Proof.
  intros Hfl. destruct binary64_examples as (B0 & B1 & B2 & B3 & B4).
  repeat split; rewrite (get_pwm_for_cmd_rounded_exact fl Hfl);
    try assumption; try reflexivity; split; discriminate.
Qed.

(** ** Concrete runs of the encoder *)

(** C1 on the sample output with its autofire rule for (10 ms, 1.0, 0.5): a
    10 ms pulse is re-triggered, a 20 ms pulse is reconfigured and the rule
    re-armed. *)
Lemma pulse_retrigger_or_reconfigure_run :
  DriverM.commands (DriverM.run (_pulse (U := sample_util) pulse_10ms None)
                      driver_with_autofire)
  = [send_and_forget "TN:05,01"]
  /\ DriverM.commands (DriverM.run (_pulse (U := sample_util) pulse_20ms None)
                         driver_with_autofire)
     = [send_with_confirmation "DN:05,89,00,10,14,FF,00,00,00" "DN";
        send_with_confirmation sample_autofire_cmd "DN"].
Proof.
  destruct (pulse_retrigger_or_reconfigure (U := sample_util)
              driver_with_autofire pulse_10ms None) as [Hit _].
  destruct (pulse_retrigger_or_reconfigure (U := sample_util)
              driver_with_autofire pulse_20ms None) as [_ Miss].
  split.
  - refine (proj1 (Hit _)).
    exists 10%Q, 1%Q, (1 # 2)%Q. repeat split; reflexivity.
  - refine (proj1 (Miss _)).
    intros (c0 & c1 & c2 & E & H0 & _). inversion E; subst. discriminate H0.
Defined.

(** C2, as stated, fails: after [set_autofire] for (10 ms, 1.0, 0.5) and an
    [enable] with a 20 ms pulse, the autofire binding still stores the tuple
    (10, 1.0, 0.5), yet an [enable] asking for exactly that tuple sends the
    full configuration command, not the manual trigger. *)
Lemma enable_by_autofire_tuple_fails :
  autofire_tuple_hit driver_enabled_20ms pulse_10ms hold_half
  /\ DriverM.commands (DriverM.run (enable (U := sample_util) pulse_10ms hold_half)
                         driver_enabled_20ms)
     = [send_and_forget "DN:05,C1,00,18,0A,FF,AA,14"]
  /\ manual_trigger_command driver_enabled_20ms = send_and_forget "TN:05,03"
  /\ ~ enable_by_autofire_tuple (U := sample_util) driver_enabled_20ms pulse_10ms hold_half.
Proof.
  assert (Hit : autofire_tuple_hit driver_enabled_20ms pulse_10ms hold_half).
  { exists sample_autofire_cmd, (10, 1, 1 # 2)%Q.
    split; [reflexivity | repeat split; reflexivity]. }
  split; [exact Hit |]. split; [reflexivity |]. split; [reflexivity |].
  intros [_ H]. specialize (H Hit). discriminate H.
Qed.

(** C2 (amended) on the sample output: with the rule armed the manual
    trigger, with the binding suspended the full configuration command. *)
Lemma enable_trigger_iff_cache_hit_run :
  DriverM.commands (DriverM.run (enable (U := sample_util) pulse_10ms hold_half)
                      driver_with_autofire)
  = [send_and_forget "TN:05,03"]
  /\ DriverM.commands (DriverM.run (enable (U := sample_util) pulse_10ms hold_half)
                         driver_enabled_20ms)
     = [send_and_forget "DN:05,C1,00,18,0A,FF,AA,14"].
Proof.
  destruct (enable_trigger_iff_cache_hit (U := sample_util)
              driver_with_autofire pulse_10ms hold_half) as [Hit _].
  destruct (enable_trigger_iff_cache_hit (U := sample_util)
              driver_enabled_20ms pulse_10ms hold_half) as [_ Miss].
  split.
  - refine (proj1 (Hit _)). split.
    + eexists. reflexivity.
    + exists (10, 1, 1 # 2)%Q. split; [reflexivity | repeat split; reflexivity].
  - refine (proj1 (Miss _)).
    intros [_ (t & E & Ht)]. inversion E; subst.
    destruct Ht as (H0 & _). discriminate H0.
Defined.

(** C3.  What the code does on the full-configuration path of [enable]: for
    a 10 ms pulse at full power held at half power on a fresh output, the
    command written to the board carries pulse power FF, but the cache
    becomes (10, 10, 0.5): the pulse-power slot holds the duration, and the
    cache differs from the requested (10, 1.0, 0.5). *)
Theorem enable_cache_holds_duration_as_power :
  let r := DriverM.run (enable (U := sample_util) pulse_10ms hold_half) sample_driver in
  DriverM.commands r = [send_and_forget "DN:05,C1,00,18,0A,FF,AA,14"]
  /\ config_state (DriverM.object r) = Some (10, 10, 1 # 2)%Q
  /\ ~ tuple_eq (10, 10, 1 # 2)%Q
        (inject_Z (pulse_duration pulse_10ms), pulse_power pulse_10ms,
         hold_power hold_half).
Proof.
  cbv zeta. split; [reflexivity |]. split; [reflexivity |].
  intros (_ & H & _). discriminate H.
Qed.

(** C8 on the sample output whose binding an [enable] has suspended. *)
Lemma pulse_rearms_suspended_autofire_run :
  let r := DriverM.run (_pulse (U := sample_util) pulse_10ms (Some hold_half))
             driver_enabled_20ms in
  (exists first,
      DriverM.commands r = [first; send_with_confirmation sample_autofire_cmd "DN"])
  /\ _autofire_cleared (DriverM.object r) = false
  /\ config_state (DriverM.object r) = Some (10, 1, 1 # 2)%Q
  /\ autofire (DriverM.object r) = Some (sample_autofire_cmd, (10, 1, 1 # 2)%Q).
Proof.
  apply (pulse_rearms_suspended_autofire (U := sample_util) driver_enabled_20ms
           pulse_10ms (Some hold_half) sample_autofire_cmd (10, 1, 1 # 2)%Q).
  - reflexivity.
  - left. reflexivity.
Defined.

(** C9 at one half and at 0.3333. *)
Lemma get_pwm_for_cmd_resolution_run :
  get_pwm_for_cmd (U := sample_util) (1 # 2) = "AA"
  /\ get_pwm_for_cmd (U := sample_util) 0.3333 = "000003FF".
Proof.
  assert (R : (0 <= 1 # 2 <= 1)%Q) by (split; discriminate).
  destruct (get_pwm_for_cmd_resolution (U := sample_util) (1 # 2) R)
    as (H8 & _ & _ & _ & _ & _ & _ & _ & H32).
  split.
  - refine (proj2 (H8 4%Z _)). split; [discriminate | reflexivity].
  - exact H32.
Defined.

(* ===================================================================== *)
(** * Part VI.  Properties of the communicator                            *)
(* ===================================================================== *)

Section CommunicatorProperties.

Import CommM.
Local Open Scope list_scope.

Ltac run_comm :=
  unfold _socket_writer_turn, _send, writer_write, log_call, first_char,
    process_received_message, send, bind, ret, raise, lift, self, update,
    final, outcome; cbn.

(** Case analysis on every test a method run is stuck on. *)
Ltac split_tests :=
  repeat (cbn;
          match goal with
          | |- context [if ?b then _ else _] => destruct b
          | |- context [match ?m with EmptyString => _ | String _ _ => _ end] =>
              destruct m
          end).

(** The state after [_send] on the counting branch. *)
Lemma _send_counting (c : FastSerialCommunicator) (msg : string) :
  dmd c = false ->
  max_messages_in_flight c <> 0 ->
  let c' := final (_send msg c) in
  messages_in_flight c' = messages_in_flight c + 1
  /\ send_ready c' = (if messages_in_flight c + 1 >? max_messages_in_flight c
                      then false else send_ready c)%Z
  /\ written c' = (written c ++ [encode msg ++ [CR]])%list
  /\ dmd c' = dmd c
  /\ max_messages_in_flight c' = max_messages_in_flight c.
Proof.
  intros Hd Hm. apply Z.eqb_neq in Hm. run_comm. rewrite Hd, Hm.
  split_tests; repeat split; cbn; auto.
Qed.

(** Whatever the branch, [_send] writes the message once and logs; it never
    opens the gate. *)
Lemma _send_writes (c : FastSerialCommunicator) (msg : string) :
  written (final (_send msg c)) = (written c ++ [frame_on_wire c msg])%list
  /\ (exists l, log (final (_send msg c)) = (log c ++ l)%list)
  /\ (send_ready c = false -> send_ready (final (_send msg c)) = false).
Proof.
  unfold frame_on_wire. run_comm.
  split_tests; (split; [reflexivity |]); (split; [| auto]); cbn;
    first [ exists []; now rewrite app_nil_r
          | eexists; reflexivity
          | eexists; rewrite <- app_assoc; reflexivity ].
Qed.

(** C4.  When the wait for the send-permitted gate times out, the writer
    logs the warning, resets the in-flight counter to zero and opens the
    gate, and then sends the dequeued command from that recovered state: the
    command reaches the stream writer, it is not dropped. *)
Theorem socket_writer_timeout_still_sends (c : FastSerialCommunicator) (msg : string) :
  let r := _socket_writer_turn msg gate_timeout c in
  r = _send msg (stall_recovered c)
  /\ messages_in_flight (stall_recovered c) = 0
  /\ send_ready (stall_recovered c) = true
  /\ (exists l, log (final r) = (log c ++ stall_warning c :: l)%list)
  /\ written (final r) = (written c ++ [frame_on_wire c msg])%list.
Proof.
  cbv zeta.
  assert (E : _socket_writer_turn msg gate_timeout c = _send msg (stall_recovered c))
    by reflexivity.
  split; [exact E |]. split; [reflexivity |]. split; [reflexivity |].
  rewrite E. destruct (_send_writes (stall_recovered c) msg) as (Hw & [l Hl] & _).
  split.
  - exists l. rewrite Hl. cbn. rewrite <- app_assoc. reflexivity.
  - exact Hw.
Qed.

(** The same through the loop: the command at the head of the queue is
    taken off the queue and written. *)
Lemma socket_writer_loop_timeout (c : FastSerialCommunicator) (msg : string)
  (q : list string) :
  send_queue c = (msg :: q)%list ->
  let c' := final (_socket_writer [gate_timeout] c) in
  send_queue c' = q
  /\ written c' = (written c ++ [frame_on_wire c msg])%list.
Proof.
  intros Hq. cbv zeta.
  assert (E : final (_socket_writer [gate_timeout] c)
              = final (_send msg (stall_recovered (with_send_queue q c)))).
  { cbn [_socket_writer]. unfold bind, self, update, final. rewrite Hq.
    change (_socket_writer_turn msg gate_timeout (with_send_queue q c))
      with (_send msg (stall_recovered (with_send_queue q c))).
    destruct (_send msg (stall_recovered (with_send_queue q c))) as [[[]|e] c1];
      reflexivity. }
  rewrite E.
  destruct (_send_writes (stall_recovered (with_send_queue q c)) msg) as (Hw & _ & _).
  split; [| exact Hw].
  run_comm. split_tests; reflexivity.
Qed.

(** C5.  On a connection that counts its in-flight messages (maximum above
    zero), in every sequence of [_send] calls: after each call the gate is
    open only if the counter is at most the maximum; a call that takes the
    counter above the maximum leaves the gate closed, and still writes the
    command; each call adds one to the counter, and a gate that is closed
    stays closed. *)
Theorem send_gate_invariant (c : FastSerialCommunicator) (msgs : list string) :
  tracks_in_flight c ->
  Forall (fun step : FastSerialCommunicator * string * FastSerialCommunicator =>
            let '(before, msg, after) := step in
            gate_invariant after
            /\ (max_messages_in_flight before < messages_in_flight before + 1 ->
                send_ready after = false)
            /\ written after = (written before ++ [encode msg ++ [CR]])%list
            /\ messages_in_flight after = messages_in_flight before + 1
            /\ max_messages_in_flight after = max_messages_in_flight before
            /\ (send_ready before = false -> send_ready after = false))
         (send_steps msgs c).
Proof.
  revert c. induction msgs as [| msg msgs IH]; intros c [Hd Hm]; cbn [send_steps].
  - constructor.
  - destruct (_send_counting c msg Hd) as (Hc & Hg & Hw & Hd' & Hm'); [lia |].
    constructor.
    + unfold gate_invariant. rewrite Hg, Hc, Hm'.
      destruct (Z.gtb_spec (messages_in_flight c + 1) (max_messages_in_flight c));
        repeat split; intros; try congruence; try lia; auto.
    + apply IH. split; congruence.
Qed.

(** ** The inbound dispatcher *)

Lemma find_cr_none (b : bytes) :
  find_cr b = None -> split_frames b = ([], b) /\ ~ In CR b.
Proof.
  induction b as [| x b IH]; cbn; intros H.
  - split; [reflexivity | intros []].
  - destruct (Byte.eqb x CR) eqn:E; [discriminate |].
    destruct (find_cr b); [discriminate |].
    destruct (IH eq_refl) as [-> Hn]. split; [reflexivity |].
    intros [-> | Hin]; [| exact (Hn Hin)].
    rewrite (byte_dec_lb (eq_refl CR)) in E. discriminate.
Qed.

Lemma find_cr_some (b : bytes) (pos : nat) :
  find_cr b = Some pos ->
  split_frames b
  = ((firstn pos b :: fst (split_frames (skipn (pos + 1) b)))%list,
     snd (split_frames (skipn (pos + 1) b)))
  /\ (List.length (skipn (pos + 1) b) < List.length b)%nat.
Proof.
  revert pos. induction b as [| x b IH]; cbn [find_cr]; intros pos H.
  - discriminate.
  - cbn [split_frames]. destruct (Byte.eqb x CR) eqn:E.
    + inversion H; subst. cbn. destruct (split_frames b). split; [reflexivity | lia].
    + destruct (find_cr b) as [p |]; [| discriminate]. inversion H; subst.
      destruct (IH p eq_refl) as [-> Hlen]. cbn. split; [reflexivity | lia].
Qed.

(** The buffer and the router after the frames of a stream were handled. *)
Lemma dispatch_state (c : FastSerialCommunicator) (b : bytes)
  (r1 r2 : list (string * string)) :
  with_routed ((routed c ++ r1) ++ r2)%list (with_received_msg b c)
  = with_routed (routed c ++ (r1 ++ r2))%list (with_received_msg b c).
Proof. now rewrite app_assoc. Qed.

Lemma _parse_msg_loop_spec (budget : nat) (c : FastSerialCommunicator) :
  (List.length (received_msg c) < budget)%nat ->
  Forall (fun f => utf8_valid f = true) (fst (split_frames (received_msg c))) ->
  _parse_msg_loop budget c
  = (Ok tt,
     with_routed
       (routed c ++ forwarded (remote_processor c) (fst (split_frames (received_msg c))))%list
       (with_received_msg (snd (split_frames (received_msg c))) c)).
Proof.
  revert c. induction budget as [| budget IH]; intros c Hlen Hval; [lia |].
  cbn [_parse_msg_loop]. unfold bind at 1. unfold self at 1.
  destruct (find_cr (received_msg c)) as [pos |] eqn:Hf.
  - destruct (find_cr_some _ _ Hf) as [Hs Hshort]. rewrite Hs in Hval |- *.
    cbn [fst snd] in Hval |- *. inversion Hval as [| f fs Hv Hrest]; subst.
    unfold bind at 1. unfold update at 1.
    set (c1 := with_received_msg (skipn (pos + 1) (received_msg c)) c).
    assert (IH1 : forall c',
               received_msg c' = skipn (pos + 1) (received_msg c) ->
               _parse_msg_loop budget c'
               = (Ok tt,
                  with_routed
                    (routed c' ++ forwarded (remote_processor c')
                                     (fst (split_frames (skipn (pos + 1) (received_msg c)))))%list
                    (with_received_msg
                       (snd (split_frames (skipn (pos + 1) (received_msg c)))) c'))).
    { intros c' Hc'. rewrite <- Hc'. apply IH; rewrite Hc'; [lia | exact Hrest]. }
    destruct (firstn pos (received_msg c)) as [| x f] eqn:Hmsg.
    + rewrite (IH1 c1 eq_refl). reflexivity.
    + unfold bind at 1. unfold lift, decode. rewrite Hv.
      unfold forwarded. cbn [filter dispatched map].
      destruct (is_ignored (string_of_list_byte (x :: f))) eqn:Hi; cbn [negb].
      * unfold bind at 1. unfold ret at 1. rewrite (IH1 c1 eq_refl). reflexivity.
      * unfold bind at 1. unfold process_received_message, update.
        rewrite IH1 by reflexivity. cbn.
        rewrite <- app_assoc. reflexivity.
  - destruct (find_cr_none _ Hf) as [Hs _]. rewrite Hs. cbn.
    unfold ret. rewrite app_nil_r. destruct c; reflexivity.
Qed.

Lemma _parse_msg_spec (c : FastSerialCommunicator) (chunk : bytes) :
  Forall (fun f => utf8_valid f = true)
    (fst (split_frames (received_msg c ++ chunk))) ->
  _parse_msg chunk c
  = (Ok tt,
     with_routed
       (routed c ++ forwarded (remote_processor c)
                      (fst (split_frames (received_msg c ++ chunk))))%list
       (with_received_msg (snd (split_frames (received_msg c ++ chunk))) c)).
Proof.
  intros Hval. unfold _parse_msg, bind, update, self.
  rewrite _parse_msg_loop_spec; cbn; [reflexivity | lia | exact Hval].
Qed.

(** Frames of a stream received in two parts. *)
Lemma split_frames_app (a b : bytes) :
  split_frames (a ++ b)
  = ((fst (split_frames a) ++ fst (split_frames (snd (split_frames a) ++ b)))%list,
     snd (split_frames (snd (split_frames a) ++ b))).
Proof.
  induction a as [| x a IH]; cbn [app split_frames].
  - cbn. now destruct (split_frames b).
  - rewrite IH. destruct (split_frames a) as [F1 R1]. cbn [fst snd].
    destruct (Byte.eqb x CR) eqn:E.
    + reflexivity.
    + destruct F1 as [| f F1']; cbn [fst snd app].
      * cbn [split_frames]. rewrite E.
        destruct (split_frames (R1 ++ b)) as [F2 R2]. cbn.
        now destruct F2.
      * reflexivity.
Qed.

(** One frame per delimiter, nothing lost, no delimiter left inside. *)
Lemma split_frames_framing (b : bytes) :
  List.length (fst (split_frames b)) = List.length (filter (Byte.eqb CR) b)
  /\ b = (List.concat (map (fun f => f ++ [CR]) (fst (split_frames b)))
          ++ snd (split_frames b))%list
  /\ ~ In CR (snd (split_frames b))
  /\ Forall (fun f => ~ In CR f) (fst (split_frames b)).
Proof.
  induction b as [| x b (Hn & Hc & Hr & Hf)]; cbn [split_frames].
  - cbn. repeat split; auto.
  - destruct (split_frames b) as [F R]. cbn [fst snd] in *.
    cbn [filter]. destruct (Byte.eqb x CR) eqn:E.
    + apply byte_dec_bl in E. subst x.
      rewrite (byte_dec_lb (eq_refl CR)). cbn [fst snd].
      split; [cbn; congruence |]. split; [cbn; congruence |].
      split; [exact Hr |]. constructor; [intros [] | exact Hf].
    + assert (Hx : x <> CR)
        by (intros ->; rewrite (byte_dec_lb (eq_refl CR)) in E; discriminate).
      assert (E' : Byte.eqb CR x = false).
      { destruct (Byte.eqb CR x) eqn:E2; [| reflexivity].
        apply byte_dec_bl in E2. congruence. }
      rewrite E'. destruct F as [| f F']; cbn [fst snd] in *.
      * split; [exact Hn |]. split; [cbn in *; congruence |].
        split; [| constructor].
        intros [Heq | Hin]; [now apply Hx | exact (Hr Hin)].
      * inversion Hf as [| ? ? Hf1 Hf2]; subst.
        split; [exact Hn |]. split; [cbn in *; congruence |].
        split; [exact Hr |]. constructor; [| exact Hf2].
        intros [Heq | Hin]; [now apply Hx | exact (Hf1 Hin)].
Qed.

(** ASCII frames decode. *)
Lemma ascii_utf8_valid (f : bytes) :
  Forall (fun b => byte_in 0 127 b = true) f -> utf8_valid f = true.
Proof.
  induction 1 as [| b f Hb _ IH]; cbn [utf8_valid]; [reflexivity |].
  now rewrite Hb.
Qed.

Lemma feed_chunks_spec (chunks : list bytes) (c : FastSerialCommunicator) :
  ~ In CR (received_msg c) ->
  Forall (fun f => utf8_valid f = true)
    (fst (split_frames (received_msg c ++ List.concat chunks))) ->
  feed_chunks chunks c
  = (Ok tt,
     with_routed
       (routed c ++ forwarded (remote_processor c)
                      (fst (split_frames (received_msg c ++ List.concat chunks))))%list
       (with_received_msg
          (snd (split_frames (received_msg c ++ List.concat chunks))) c)).
Proof.
  revert c. induction chunks as [| chunk chunks IH]; intros c Hclean Hval.
  - cbn [List.concat feed_chunks] in *. rewrite app_nil_r in *.
    assert (Hs : split_frames (received_msg c) = ([], received_msg c)).
    { destruct (find_cr (received_msg c)) as [pos |] eqn:Hf.
      - exfalso. apply Hclean.
        destruct (find_cr_some _ _ Hf) as [Hs _].
        destruct (split_frames_framing (received_msg c)) as (_ & Hc & _).
        rewrite Hc, Hs. cbn. apply in_or_app. left. apply in_or_app. left.
        apply in_or_app. right. now left.
      - now destruct (find_cr_none _ Hf). }
    rewrite Hs. cbn. unfold ret. rewrite app_nil_r. destruct c; reflexivity.
  - cbn [List.concat feed_chunks] in *. rewrite app_assoc in Hval |- *.
    rewrite split_frames_app in Hval |- *. cbn [fst snd] in Hval |- *.
    apply Forall_app in Hval. destruct Hval as [Hv1 Hv2].
    unfold bind at 1. rewrite (_parse_msg_spec c chunk Hv1).
    destruct (split_frames_framing (received_msg c ++ chunk)) as (_ & _ & Hr & _).
    rewrite IH; cbn; [| exact Hr | exact Hv2].
    unfold forwarded. rewrite filter_app, map_app, <- app_assoc. reflexivity.
Qed.


(** C6 (amended).  For a connection fed one chunk or more, the complete
    frames of the stream (what the buffer held, then the chunks) being all
    valid UTF-8 (as every ASCII frame is): the calls end normally; the
    stream is cut into exactly one frame per carriage return; the bytes
    after the last delimiter stay in the buffer, to be put before the next
    chunk; empty frames and frames whose text is an ignored acknowledgement
    are dropped, and every other frame is forwarded, in arrival order, with
    the processor of the connection. *)
Theorem dispatcher_forwards_decodable_frames (c : FastSerialCommunicator)
  (chunk : bytes) (chunks : list bytes) :
  let stream := received_msg c ++ List.concat (chunk :: chunks) in
  let frames := fst (split_frames stream) in
  let rest := snd (split_frames stream) in
  Forall (fun f => utf8_valid f = true) frames ->
  feed_chunks (chunk :: chunks) c
  = (Ok tt,
     with_routed (routed c ++ forwarded (remote_processor c) frames)
       (with_received_msg rest c))
  /\ dispatcher_claim c (chunk :: chunks)
  /\ List.length frames = List.length (filter (Byte.eqb CR) stream)
  /\ stream = List.concat (map (fun f => f ++ [CR]) frames) ++ rest
  /\ ~ In CR rest
  /\ Forall (fun f => ~ In CR f) frames.
Proof.
  cbv zeta. intros Hval.
  assert (E : feed_chunks (chunk :: chunks) c
              = (Ok tt,
                 with_routed
                   (routed c ++ forwarded (remote_processor c)
                      (fst (split_frames
                              (received_msg c ++ List.concat (chunk :: chunks)))))
                   (with_received_msg
                      (snd (split_frames
                              (received_msg c ++ List.concat (chunk :: chunks)))) c))).
  { cbn [List.concat feed_chunks] in *. rewrite app_assoc in Hval |- *.
    rewrite split_frames_app in Hval |- *. cbn [fst snd] in Hval |- *.
    apply Forall_app in Hval. destruct Hval as [Hv1 Hv2].
    unfold bind at 1. rewrite (_parse_msg_spec c chunk Hv1).
    destruct (split_frames_framing (received_msg c ++ chunk)) as (_ & _ & Hr & _).
    rewrite feed_chunks_spec; cbn; [| exact Hr | exact Hv2].
    unfold forwarded. rewrite filter_app, map_app, <- app_assoc. reflexivity. }
  split; [exact E |]. split.
  - unfold dispatcher_claim. cbv zeta. rewrite E. split; reflexivity.
  - apply split_frames_framing.
Qed.

End CommunicatorProperties.

(** ** Concrete runs of the communicator *)

(** C5 on the sample connection: the third message in flight closes the
    gate. *)
Lemma send_gate_invariant_run :
  tracks_in_flight sample_comm
  /\ map (fun step : FastSerialCommunicator * string * FastSerialCommunicator =>
            (messages_in_flight (snd step), send_ready (snd step)))
       (send_steps ["WD:3E8"; "SA:"; "DN:05,01"] sample_comm)
     = [(1, true); (2, true); (3, false)]
  /\ Forall (fun step : FastSerialCommunicator * string * FastSerialCommunicator =>
               let '(before, msg, after) := step in
               gate_invariant after
               /\ (max_messages_in_flight before < messages_in_flight before + 1 ->
                   send_ready after = false)
               /\ written after = (written before ++ [encode msg ++ [CR]])%list
               /\ messages_in_flight after = messages_in_flight before + 1
               /\ max_messages_in_flight after = max_messages_in_flight before
               /\ (send_ready before = false -> send_ready after = false))
       (send_steps ["WD:3E8"; "SA:"; "DN:05,01"] sample_comm).
Proof.
  assert (T : tracks_in_flight sample_comm) by (split; reflexivity).
  split; [exact T |]. split; [reflexivity |].
  exact (send_gate_invariant sample_comm ["WD:3E8"; "SA:"; "DN:05,01"] T).
Defined.

(** C6 (amended) on the sample chunks: one frame is forwarded, [XX] stays
    in the buffer. *)
Lemma dispatcher_forwards_decodable_frames_run :
  feed_chunks sample_chunks sample_comm
  = (Ok tt,
     with_routed [("-N:0A", "NET")] (with_received_msg (encode "XX") sample_comm)).
Proof.
  refine (proj1 (dispatcher_forwards_decodable_frames sample_comm
                   (encode "SN:P" ++ [CR] ++ encode "-N:")%list
                   [(encode "0A" ++ [CR; CR] ++ encode "XX")%list] _)).
  repeat constructor.
Defined.

(** C6, as stated for every byte sequence, fails: the frame [b'\xff'] is not
    empty and no ignored acknowledgement, yet it is not forwarded:
    [decode] raises and the reader ends. *)
Lemma dispatcher_claim_fails_on_undecodable_frame :
  let chunks := [[xff; CR]] in
  fst (split_frames (received_msg sample_comm ++ List.concat chunks)%list) = [[xff]]
  /\ dispatched [xff] = true
  /\ CommM.outcome (feed_chunks chunks sample_comm) = Raised UnicodeDecodeError
  /\ routed (CommM.final (feed_chunks chunks sample_comm)) = []
  /\ ~ dispatcher_claim sample_comm chunks.
Proof.
  cbv zeta. split; [reflexivity |]. split; [reflexivity |].
  split; [reflexivity |]. split; [reflexivity |].
  intros [_ H]. discriminate H.
Qed.

(* ===================================================================== *)
(** * Part VII.  Further properties of the driver                         *)
(* ===================================================================== *)

Section DriverSequences.

Context {U : Util}.
Import DriverM.
Local Open Scope list_scope.

Lemma framed_ret {A} (a : A) : framed (ret a).
Proof. intros d out. unfold ret, value, object, commands. cbn. now rewrite app_nil_r. Qed.

Lemma framed_self : framed self.
Proof. intros d out. unfold self, value, object, commands. cbn. now rewrite app_nil_r. Qed.

Lemma framed_emit (c : sent) : framed (emit c).
Proof. intros d out. reflexivity. Qed.

Lemma framed_set_autofire_attr v : framed (set_autofire_attr v).
Proof.
  intros d out. unfold set_autofire_attr, value, object, commands. cbn.
  now rewrite app_nil_r.
Qed.

Lemma framed_set_autofire_cleared v : framed (set_autofire_cleared v).
Proof.
  intros d out. unfold set_autofire_cleared, value, object, commands. cbn.
  now rewrite app_nil_r.
Qed.

Lemma framed_set_config_state v : framed (set_config_state v).
Proof.
  intros d out. unfold set_config_state, value, object, commands. cbn.
  now rewrite app_nil_r.
Qed.

Lemma framed_bind {A B} (m : DriverM.t A) (k : A -> DriverM.t B) :
  framed m -> (forall a, framed (k a)) -> framed (bind m k).
Proof.
  intros Hm Hk d out. unfold bind.
  rewrite (Hm d out). rewrite (Hm d []) at 1 2 3.
  unfold value, object, commands. cbn.
  destruct (m d []) as [[a d1] o1]. cbn.
  rewrite (Hk a d1 (out ++ o1)), (Hk a d1 o1).
  unfold value, object, commands. cbn. now rewrite app_assoc.
Qed.

Ltac framed_step :=
  match goal with
  | |- forall _, _ => intro
  | |- framed (bind _ _) => apply framed_bind
  | |- framed (ret _) => apply framed_ret
  | |- framed self => apply framed_self
  | |- framed (emit _) => apply framed_emit
  | |- framed (set_autofire_attr _) => apply framed_set_autofire_attr
  | |- framed (set_autofire_cleared _) => apply framed_set_autofire_cleared
  | |- framed (set_config_state _) => apply framed_set_config_state
  | |- framed (match ?x with _ => _ end) => destruct x
  end.

Lemma framed_reenable : framed _reenable_autofire_if_configured.
Proof. unfold _reenable_autofire_if_configured. repeat framed_step. Qed.

Lemma framed_perform (c : driver_call) : framed (perform c).
Proof.
  destruct c; unfold perform, reset, disable, set_autofire, clear_autofire, enable,
    timed_enable, pulse, _pulse; repeat framed_step; apply framed_reenable.
Qed.

Lemma framed_perform_all (calls : list driver_call) : framed (perform_all calls).
Proof.
  induction calls as [| c calls IH]; cbn [perform_all].
  - apply framed_ret.
  - apply framed_bind; [apply framed_perform | intros; exact IH].
Qed.

(** Running one method after another: the second starts from the object the
    first left, and its commands follow those of the first. *)
Lemma run_then {A B} (m : DriverM.t A) (k : DriverM.t B) (d : FASTDriver) :
  framed k ->
  object (run (bind m (fun _ => k)) d) = object (run k (object (run m d)))
  /\ commands (run (bind m (fun _ => k)) d)
     = commands (run m d) ++ commands (run k (object (run m d))).
Proof.
  intros Hk. unfold run, bind, object, commands.
  destruct (m d []) as [[a d1] o1]. cbn. rewrite (Hk d1 o1).
  unfold object, commands. cbn. split; reflexivity.
Qed.


Ltac run_calls :=
  unfold run, object, commands, value, perform, timed_enable, pulse, reset, _pulse,
    enable, disable, set_autofire, clear_autofire, _reenable_autofire_if_configured,
    bind, ret, self, emit, set_autofire_attr, set_autofire_cleared,
    set_config_state; cbn.

Lemma reenable_coherent (d : FASTDriver) :
  coherent d -> coherent (object (run _reenable_autofire_if_configured d)).
Proof.
  unfold coherent. intros H. run_calls.
  destruct (autofire d) as [[acmd atup] |] eqn:Ha; cbn; [| now rewrite Ha].
  destruct (_autofire_cleared d) eqn:Hc; cbn; rewrite ?Ha, ?Hc.
  - intros cmd tup E _. inversion E. reflexivity.
  - intros cmd tup E Hf. now apply (H cmd tup).
Qed.

Lemma pulse_coherent (ps : PulseSettings) (hs : option HoldSettings) (d : FASTDriver) :
  coherent d -> coherent (object (run (_pulse ps hs) d)).
Proof.
  intros H. rewrite _pulse_unfold. cbv zeta. unfold object at 1. cbn [fst snd].
  apply reenable_coherent.
  destruct (must_reconfigure (config_state d) (requested ps hs)); [| exact H].
  intros cmd tup _ Hf. discriminate Hf.
Qed.

Lemma perform_coherent (c : driver_call) (d : FASTDriver) :
  coherent d -> coherent (object (run (perform c) d)).
Proof.
  intros H. destruct c.
  - exact H.
  - unfold perform, disable.
    assert (G : object (run disable d) = object (run _reenable_autofire_if_configured d)).
    { run_calls. destruct (autofire d) as [[acmd atup] |] eqn:Ha; cbn;
        [destruct (_autofire_cleared d); cbn; rewrite ?Ha |]; cbn; rewrite ?Ha;
        reflexivity. }
    unfold disable in G. rewrite G. now apply reenable_coherent.
  - unfold coherent. run_calls. intros cmd tup E _. inversion E. reflexivity.
  - unfold coherent. run_calls. intros cmd tup E. discriminate.
  - unfold coherent in *. run_calls.
    destruct (autofire d) as [[acmd atup] |] eqn:Ha; cbn.
    + destruct (opt_tuple_eqb _ _); cbn; rewrite ?Ha.
      * intros cmd tup E Hf. now apply (H cmd tup).
      * intros cmd tup E Hf. discriminate.
    + intros cmd tup E Hf. discriminate.
  - assert (G : object (run (perform (call_timed_enable pulse_settings hold_settings)) d)
                = object (run (_pulse pulse_settings (Some hold_settings)) d)).
    { unfold perform, timed_enable, run, object, bind, ret.
      now destruct (_pulse pulse_settings (Some hold_settings) d []) as [[? ?] ?]. }
    rewrite G. now apply pulse_coherent.
  - assert (G : object (run (perform (call_pulse pulse_settings)) d)
                = object (run (_pulse pulse_settings None) d)).
    { unfold perform, pulse, run, object, bind, ret.
      now destruct (_pulse pulse_settings None d []) as [[? ?] ?]. }
    rewrite G. now apply pulse_coherent.
Qed.

(** X1.  Whatever is called on a driver, in whatever order, the cache stays
    coherent with the autofire binding: in every state reached from a
    coherent one (a new driver is), a binding that is not suspended has its
    tuple in the cache. *)
Theorem calls_keep_coherence (calls : list driver_call) (d : FASTDriver) :
  coherent d -> coherent (object (run (perform_all calls) d)).
Proof.
  revert d. induction calls as [| c calls IH]; intros d H.
  - exact H.
  - cbn [perform_all].
    destruct (run_then (perform c) (perform_all calls) d (framed_perform_all calls))
      as [-> _].
    apply IH. now apply perform_coherent.
Qed.


Lemma reenable_run (d : FASTDriver) :
  object (run _reenable_autofire_if_configured d) = rearmed d
  /\ commands (run _reenable_autofire_if_configured d) = rearm_commands d.
Proof.
  unfold rearmed, rearm_commands. run_calls.
  destruct (autofire d) as [[acmd atup] |] eqn:Ha; cbn; [| split; reflexivity].
  destruct (_autofire_cleared d); cbn; rewrite ?Ha; split; reflexivity.
Qed.

Lemma rearmed_same (d : FASTDriver) :
  same_output d (rearmed d) /\ autofire (rearmed d) = autofire d.
Proof.
  unfold rearmed, same_output.
  destruct (autofire d) as [[acmd atup] |] eqn:Ha; [| rewrite Ha; repeat split].
  destruct (_autofire_cleared d); cbn; rewrite ?Ha; repeat split.
Qed.

Lemma pulse_object (ps : PulseSettings) (hs : option HoldSettings) (d : FASTDriver) :
  object (run (_pulse ps hs) d)
  = rearmed (if must_reconfigure (config_state d) (requested ps hs)
             then reconfigured d (requested ps hs) else d).
Proof.
  rewrite _pulse_unfold. cbv zeta. unfold object at 1. cbn [fst snd].
  apply reenable_run.
Qed.

Lemma disable_run (d : FASTDriver) :
  object (run disable d) = rearmed d
  /\ commands (run disable d)
     = send_and_forget (trigger_cmd d ++ ":" ++ number d ++ ",02")%string
         :: rearm_commands d
         ++ match autofire d with
            | Some _ => [send_and_forget (trigger_cmd d ++ ":" ++ number d ++ ",00")%string]
            | None => []
            end.
Proof.
  unfold rearmed, rearm_commands. run_calls.
  destruct (autofire d) as [[acmd atup] |] eqn:Ha; cbn.
  - destruct (_autofire_cleared d); cbn; rewrite ?Ha; split; reflexivity.
  - rewrite Ha. split; reflexivity.
Qed.

Lemma perform_same (c : driver_call) (d : FASTDriver) :
  same_output d (object (run (perform c) d))
  /\ (rebinds c = false -> autofire (object (run (perform c) d)) = autofire d).
Proof.
  destruct c; cbn [rebinds].
  - unfold same_output. run_calls. repeat split.
  - unfold perform. rewrite (proj1 (disable_run d)).
    destruct (rearmed_same d) as [Hs Ha]. split; [exact Hs | intros _; exact Ha].
  - unfold same_output. run_calls. repeat split. discriminate.
  - unfold same_output. run_calls. repeat split. discriminate.
  - unfold same_output. run_calls.
    destruct (match autofire d with Some _ => true | None => false end
              && opt_tuple_eqb _ _); cbn; repeat split.
  - assert (G : object (run (perform (call_timed_enable pulse_settings hold_settings)) d)
                = object (run (_pulse pulse_settings (Some hold_settings)) d)).
    { unfold perform, timed_enable, run, object, bind, ret.
      now destruct (_pulse pulse_settings (Some hold_settings) d []) as [[? ?] ?]. }
    rewrite G, pulse_object.
    destruct (must_reconfigure _ _);
      match goal with |- context [rearmed ?x] => destruct (rearmed_same x) as [Hs Ha] end;
      (split; [exact Hs | intros _; exact Ha]).
  - assert (G : object (run (perform (call_pulse pulse_settings)) d)
                = object (run (_pulse pulse_settings None) d)).
    { unfold perform, pulse, run, object, bind, ret.
      now destruct (_pulse pulse_settings None d []) as [[? ?] ?]. }
    rewrite G, pulse_object.
    destruct (must_reconfigure _ _);
      match goal with |- context [rearmed ?x] => destruct (rearmed_same x) as [Hs Ha] end;
      (split; [exact Hs | intros _; exact Ha]).
Qed.

(** X2.  No call changes the number of the output, its platform settings,
    its recycle default or the command prefixes of its connection, and only
    [set_autofire] and [clear_autofire] change the autofire binding: reset,
    disable, enable, pulse and timed-enable suspend and re-arm it, they never
    replace or remove it. *)
Theorem calls_keep_output_and_binding (calls : list driver_call) (d : FASTDriver) :
  same_output d (object (run (perform_all calls) d))
  /\ (Forall (fun c => rebinds c = false) calls ->
      autofire (object (run (perform_all calls) d)) = autofire d).
Proof.
  revert d. induction calls as [| c calls IH]; intros d.
  - split; [repeat split | reflexivity].
  - cbn [perform_all].
    destruct (run_then (perform c) (perform_all calls) d (framed_perform_all calls))
      as [-> _].
    destruct (perform_same c d) as [S1 A1].
    destruct (IH (object (run (perform c) d))) as [S2 A2].
    split.
    + unfold same_output in *. intuition congruence.
    + intros HF. inversion HF as [| ? ? Hc Hcs]; subst.
      rewrite (A2 Hcs). now apply A1.
Qed.

(** X3.  [reset] writes the zero configuration to the board and leaves the
    cache as it is: a pulse right after it whose (duration, pulse power)
    agree with the cache is sent as the short re-trigger, not as a
    reconfiguration. *)
Theorem reset_keeps_cache (d : FASTDriver) (ps : PulseSettings) :
  cache_agrees d ps ->
  object (run reset d) = d
  /\ commands (run (perform_all [call_reset; call_pulse ps]) d)
     = send_with_confirmation (driver_cmd d ++ ":" ++ number d ++ ",00,00,00")%string
         (driver_cmd d)
         :: retrigger_command d :: rearm_commands d.
Proof.
  intros Hk.
  assert (R : object (run reset d) = d) by (run_calls; now destruct d).
  split; [exact R |].
  cbn [perform_all].
  destruct (run_then (perform call_reset)
              (bind (perform (call_pulse ps)) (fun _ => ret tt)) d) as [_ ->].
  { apply (framed_perform_all [call_pulse ps]). }
  cbn [perform]. rewrite R.
  destruct (run_then (bind (pulse ps) (fun _ => ret tt)) (ret tt) d (framed_ret tt))
    as [_ ->].
  assert (P : commands (run (bind (pulse ps) (fun _ => ret tt)) d)
              = commands (run (_pulse ps None) d)).
  { unfold pulse, run, commands, bind, ret.
    now destruct (_pulse ps None d []) as [[? ?] ?]. }
  rewrite P, _pulse_unfold. cbv zeta.
  apply (must_reconfigure_false d ps None) in Hk. rewrite Hk.
  unfold commands at 2 3. cbn [snd]. rewrite app_nil_r.
  run_calls. reflexivity.
Qed.

(** X4.  [disable] always sends the [,02] trigger first.  With a binding it
    ends with the [,00] trigger, and re-sends the rule in between exactly
    when the binding was suspended; afterwards the binding is armed and the
    cache holds its tuple.  Without a binding nothing else is sent and the
    object is left as it was. *)
Theorem disable_in_every_state (d : FASTDriver) :
  let r := run disable d in
  let off := send_and_forget (trigger_cmd d ++ ":" ++ number d ++ ",02")%string in
  let on := send_and_forget (trigger_cmd d ++ ":" ++ number d ++ ",00")%string in
  match autofire d with
  | None => commands r = [off] /\ object r = d
  | Some (acmd, atup) =>
      commands r = (if _autofire_cleared d
                    then [off; send_with_confirmation acmd (driver_cmd d); on]
                    else [off; on])
      /\ autofire (object r) = Some (acmd, atup)
      /\ _autofire_cleared (object r) = false
      /\ config_state (object r)
         = (if _autofire_cleared d then Some atup else config_state d)
  end.
Proof.
  cbv zeta. destruct (disable_run d) as [Ho Hc]. rewrite Ho, Hc.
  unfold rearmed, rearm_commands.
  destruct (autofire d) as [[acmd atup] |] eqn:Ha.
  - destruct (_autofire_cleared d) eqn:Hf; cbn; rewrite ?Ha, ?Hf; repeat split.
  - split; reflexivity.
Qed.


(** The decision of [_pulse] looks at duration and pulse power only. *)
Lemma must_reconfigure_hold (cached : option config_tuple) ps hs hs' :
  must_reconfigure cached (requested ps hs) = must_reconfigure cached (requested ps hs').
Proof. destruct cached as [[[c0 c1] c2] |]; reflexivity. Qed.

Lemma must_reconfigure_same ps hs hs' :
  must_reconfigure (Some (requested ps hs)) (requested ps hs') = false.
Proof.
  unfold must_reconfigure, requested.
  now rewrite !(proj2 (Qeq_bool_iff _ _) (Qeq_refl _)).
Qed.

(** X5.  On an output without autofire binding, a pulse or timed-enable
    that repeats the (duration, pulse power) of the one before is answered
    with the short re-trigger alone and changes nothing in the driver,
    whatever its hold settings: hold settings that differ from those of the
    request before do not reach the board. *)
Theorem repeated_pulse_retriggers (d : FASTDriver) (ps : PulseSettings)
  (hs hs' : option HoldSettings) :
  autofire d = None ->
  let d1 := object (run (_pulse ps hs) d) in
  commands (run (_pulse ps hs') d1) = [retrigger_command d]
  /\ object (run (_pulse ps hs') d1) = d1.
Proof.
  intros Ha. cbv zeta. rewrite (pulse_object ps hs d).
  set (d1 := rearmed (if must_reconfigure (config_state d) (requested ps hs)
                      then reconfigured d (requested ps hs) else d)).
  assert (H1 : autofire d1 = None /\ must_reconfigure (config_state d1) (requested ps hs') = false
               /\ retrigger_command d1 = retrigger_command d).
  { unfold d1, rearmed.
    destruct (must_reconfigure (config_state d) (requested ps hs)) eqn:Hm; cbn; rewrite Ha.
    - cbn. rewrite Ha. repeat split. apply (must_reconfigure_same ps hs hs').
    - rewrite Ha. repeat split. now rewrite <- (must_reconfigure_hold _ ps hs hs'). }
  destruct H1 as (Ha1 & Hm1 & Hr1).
  rewrite pulse_object, _pulse_unfold. cbv zeta. rewrite Hm1.
  unfold commands. cbn [snd]. unfold rearm_commands, rearmed. rewrite Ha1, Hr1.
  split; reflexivity.
Qed.

(** X6.  On an output whose autofire rule is armed, with the cache coherent,
    and has another duration or pulse power than the request, a pulse or
    timed-enable writes two configurations, the request and then the rule
    again, and leaves the driver as it was: every repetition of the request
    costs the same two writes, the short re-trigger is never used. *)
Theorem pulse_against_armed_binding (d : FASTDriver) (ps : PulseSettings)
  (hs : option HoldSettings) (acmd : string) (a0 a1 a2 : Q) :
  autofire d = Some (acmd, (a0, a1, a2)) ->
  _autofire_cleared d = false ->
  config_state d = Some (a0, a1, a2) ->
  ~ (a0 == inject_Z (pulse_duration ps) /\ a1 == pulse_power ps)%Q ->
  commands (run (_pulse ps hs) d)
  = [reconfigure_command d ps hs; send_with_confirmation acmd (driver_cmd d)]
  /\ object (run (_pulse ps hs) d) = d.
Proof.
  intros Ha Hf Hc Hn.
  assert (Hm : must_reconfigure (config_state d) (requested ps hs) = true).
  { apply must_reconfigure_true. intros (c0 & c1 & c2 & E & H0 & H1).
    rewrite Hc in E. inversion E; subst. now apply Hn. }
  rewrite pulse_object, _pulse_unfold. cbv zeta. rewrite Hm.
  unfold commands. cbn [snd]. unfold rearm_commands, rearmed, reconfigured. cbn.
  rewrite Ha. split; [reflexivity |].
  destruct d; cbn in *; subst; reflexivity.
Qed.

(** X7.  While the autofire rule is armed and the cache coherent, [enable]
    asking for the tuple of the binding is answered with the manual trigger
    [<TRIGGER_CMD>:N,03] alone, and changes nothing in the driver. *)
Theorem enable_on_armed_binding (d : FASTDriver) (ps : PulseSettings)
  (hs : HoldSettings) (acmd : string) (atup : config_tuple) :
  coherent d ->
  autofire d = Some (acmd, atup) ->
  _autofire_cleared d = false ->
  tuple_eq atup (inject_Z (pulse_duration ps), pulse_power ps, hold_power hs) ->
  commands (run (enable ps hs) d) = [manual_trigger_command d]
  /\ object (run (enable ps hs) d) = d.
Proof.
  intros Hco Ha Hf Heq.
  assert (Hit : enable_cache_hit d ps hs).
  { split; [eauto |]. exists atup. split; [now apply (Hco acmd) | exact Heq]. }
  apply enable_test in Hit.
  unfold manual_trigger_command. run_calls. rewrite Hit. cbn.
  split; [reflexivity | now destruct d].
Qed.

(** X8.  The control byte: bit 0 (driver enabled) is always set, bit 4 is the
    invert flag of the first switch, bit 5 that of the second switch when
    there is one; no other bit is ever set, so the value is one of 0x01,
    0x11, 0x21, 0x31, and it is what [int_to_hex_string] is asked to
    format. *)
Theorem control_byte_bits (switch1 : Switch) (switch2 : option Switch) :
  let v := control_for_cmd switch1 switch2 in
  get_control_for_cmd switch1 switch2 = int_to_hex_string v false
  /\ (1 <= v <= 49)%Z
  /\ v = Z.lor 1 (Z.lor (if invert switch1 then 16 else 0)
                    (match switch2 with
                     | Some s2 => if invert s2 then 32 else 0
                     | None => 0
                     end))
  /\ Z.testbit v 0 = true
  /\ Z.testbit v 4 = invert switch1
  /\ Z.testbit v 5 = match switch2 with Some s2 => invert s2 | None => false end.
Proof.
  cbv zeta. unfold get_control_for_cmd, control_for_cmd.
  destruct (invert switch1); destruct switch2 as [[[|]] |]; cbn; repeat split; lia.
Qed.

Lemma board_scan_skip (pre : list IoBoard) (coil_index num : Z) (rest : list IoBoard) :
  Forall (fun b => (0 <= driver_count b)%Z) pre ->
  (num < coil_index \/ coil_index + drivers_of pre <= num)%Z ->
  board_scan coil_index num (pre ++ rest)
  = board_scan (coil_index + drivers_of pre) num rest.
Proof.
  revert coil_index. induction pre as [| b pre IH]; intros ci Hnn Hout.
  - cbn. now rewrite Z.add_0_r.
  - inversion Hnn as [| ? ? Hb Hpre]; subst. cbn [app board_scan drivers_of fold_right] in *.
    fold (drivers_of pre) in *.
    assert (Hsum : (0 <= drivers_of pre)%Z).
    { clear -Hpre. induction Hpre; cbn; [lia |]. fold (drivers_of l). lia. }
    replace ((ci <=? num)%Z && (num <? ci + driver_count b)%Z) with false
      by (symmetry; apply andb_false_iff; rewrite Z.leb_gt, Z.ltb_ge; lia).
    rewrite IH; [f_equal; lia | exact Hpre | lia].
Qed.

(** X9.  On a platform that is not retro, [get_board_name] names the board
    whose range of driver numbers holds the number of the driver, the boards
    taking consecutive ranges in the order of [io_boards], each as long as
    its driver count. *)
Theorem get_board_name_locates (platform : Platform) (d : FASTDriver)
  (pre : list IoBoard) (b : IoBoard) (post : list IoBoard) :
  is_retro platform = false ->
  io_boards platform = pre ++ b :: post ->
  Forall (fun x => (0 <= driver_count x)%Z) pre ->
  (drivers_of pre <= hex_string_to_int (number d)
   < drivers_of pre + driver_count b)%Z ->
  get_board_name platform d = ("FAST Board " ++ node_id b)%string.
Proof.
  intros Hr Hb Hnn Hin. unfold get_board_name. rewrite Hr, Hb.
  rewrite board_scan_skip; [| exact Hnn | lia].
  cbn [board_scan Z.add].
  replace ((drivers_of pre <=? hex_string_to_int (number d))%Z
           && (hex_string_to_int (number d) <? drivers_of pre + driver_count b)%Z)
    with true; [reflexivity |].
  symmetry. apply andb_true_iff. rewrite Z.leb_le, Z.ltb_lt. lia.
Qed.

(** X10.  A driver number that is negative, or not below the total of the
    driver counts, belongs to no board: [get_board_name] answers
    "FAST Unknown Board"; it does so in particular when there is no board. *)
Theorem get_board_name_unknown (platform : Platform) (d : FASTDriver) :
  is_retro platform = false ->
  Forall (fun x => (0 <= driver_count x)%Z) (io_boards platform) ->
  (hex_string_to_int (number d) < 0
   \/ drivers_of (io_boards platform) <= hex_string_to_int (number d))%Z ->
  get_board_name platform d = "FAST Unknown Board".
Proof.
  intros Hr Hnn Hout. unfold get_board_name. rewrite Hr.
  rewrite <- (app_nil_r (io_boards platform)).
  rewrite board_scan_skip; [reflexivity | exact Hnn | lia].
Qed.

End DriverSequences.


(** ** Concrete runs *)

(** X1 on the sample output: set the rule, enable with other settings, pulse,
    disable. *)
Lemma calls_keep_coherence_run :
  coherent sample_driver
  /\ coherent (DriverM.object
                 (DriverM.run (perform_all (U := sample_util) sample_calls) sample_driver)).
Proof.
  assert (H : coherent sample_driver) by (intros cmd tup E; discriminate E).
  split; [exact H |].
  exact (calls_keep_coherence (U := sample_util) sample_calls sample_driver H).
Defined.

(** X2 on the sample output: enable, pulse and disable keep the rule. *)
Lemma calls_keep_output_and_binding_run :
  autofire (DriverM.object
              (DriverM.run (perform_all (U := sample_util)
                              [call_enable pulse_20ms hold_half; call_pulse pulse_10ms;
                               call_disable])
                 driver_with_autofire))
  = Some (sample_autofire_cmd, (10, 1, 1 # 2)%Q).
Proof.
  refine (proj2 (calls_keep_output_and_binding (U := sample_util)
                   [call_enable pulse_20ms hold_half; call_pulse pulse_10ms;
                    call_disable] driver_with_autofire) _).
  repeat constructor.
Defined.

(** X3 on the sample output with its rule for (10 ms, 1.0, 0.5). *)
Lemma reset_keeps_cache_run :
  DriverM.commands
    (DriverM.run (perform_all (U := sample_util) [call_reset; call_pulse pulse_10ms])
       driver_with_autofire)
  = [send_with_confirmation "DN:05,00,00,00" "DN"; send_and_forget "TN:05,01"].
Proof.
  refine (proj2 (reset_keeps_cache (U := sample_util) driver_with_autofire pulse_10ms _)).
  exists 10%Q, 1%Q, (1 # 2)%Q. repeat split; reflexivity.
Defined.

(** X5 on the sample output: a pulse, then a timed-enable of the same
    duration and power. *)
Lemma repeated_pulse_retriggers_run :
  DriverM.commands
    (DriverM.run (_pulse (U := sample_util) pulse_10ms (Some hold_half))
       (DriverM.object (DriverM.run (_pulse (U := sample_util) pulse_10ms None)
                          sample_driver)))
  = [send_and_forget "TN:05,01"].
Proof.
  exact (proj1 (repeated_pulse_retriggers (U := sample_util) sample_driver pulse_10ms
                  None (Some hold_half) eq_refl)).
Defined.

(** X6 on the sample output: a 20 ms pulse against the rule for 10 ms. *)
Lemma pulse_against_armed_binding_run :
  DriverM.commands (DriverM.run (_pulse (U := sample_util) pulse_20ms None)
                      driver_with_autofire)
  = [send_with_confirmation "DN:05,89,00,10,14,FF,00,00,00" "DN";
     send_with_confirmation sample_autofire_cmd "DN"]
  /\ DriverM.object (DriverM.run (_pulse (U := sample_util) pulse_20ms None)
                       driver_with_autofire)
     = driver_with_autofire.
Proof.
  apply (pulse_against_armed_binding (U := sample_util) driver_with_autofire pulse_20ms
           None sample_autofire_cmd 10 1 (1 # 2)); try reflexivity.
  intros [H _]. discriminate H.
Defined.

(** X7 on the sample output with its rule armed. *)
Lemma enable_on_armed_binding_run :
  DriverM.commands (DriverM.run (enable (U := sample_util) pulse_10ms hold_half)
                      driver_with_autofire)
  = [send_and_forget "TN:05,03"]
  /\ DriverM.object (DriverM.run (enable (U := sample_util) pulse_10ms hold_half)
                       driver_with_autofire)
     = driver_with_autofire.
Proof.
  apply (enable_on_armed_binding (U := sample_util) driver_with_autofire pulse_10ms
           hold_half sample_autofire_cmd (10, 1, 1 # 2)%Q); try reflexivity.
  - intros cmd tup E _. inversion E. reflexivity.
  - repeat split; reflexivity.
Defined.

(** X9: output 0x0A is the third driver of the second board. *)
Lemma get_board_name_locates_run :
  get_board_name (U := sample_util) sample_platform driver_0A = "FAST Board 1".
Proof.
  apply (get_board_name_locates (U := sample_util) sample_platform driver_0A
           [ {| node_id := "0"; driver_count := 8 |} ]
           {| node_id := "1"; driver_count := 8 |} []).
  - reflexivity.
  - reflexivity.
  - repeat constructor. discriminate.
  - split; [discriminate | reflexivity].
Defined.

(** X10: output 0x10 is one past the last driver of the two boards. *)
Lemma get_board_name_unknown_run :
  get_board_name (U := sample_util) sample_platform driver_10 = "FAST Unknown Board".
Proof.
  apply (get_board_name_unknown (U := sample_util) sample_platform driver_10).
  - reflexivity.
  - repeat constructor; discriminate.
  - right. discriminate.
Defined.

(* ===================================================================== *)
(** * Part VIII.  Further properties of the communicator                  *)
(* ===================================================================== *)

Section WriterProperties.

Import CommM.
Local Open Scope list_scope.

Ltac run_writer :=
  unfold _socket_writer_turn, _send, writer_write, log_call, first_char,
    send, bind, ret, raise, lift, self, update, final, outcome; cbn.

Ltac split_writer_tests :=
  repeat (cbn;
          match goal with
          | |- context [if ?b then _ else _] => destruct b eqn:?
          | |- context [match ?m with EmptyString => _ | String _ _ => _ end] =>
              destruct m
          end).

(** What [_send] leaves alone. *)
Lemma _send_keeps (c : FastSerialCommunicator) (msg : string) :
  let c' := final (_send msg c) in
  dmd c' = dmd c /\ debug c' = debug c
  /\ max_messages_in_flight c' = max_messages_in_flight c
  /\ send_queue c' = send_queue c
  /\ written c' = written c ++ [frame_on_wire c msg].
Proof.
  cbv zeta. unfold frame_on_wire. run_writer.
  split_writer_tests; repeat split; cbn; congruence.
Qed.

(** X11.  [_send] raises, with [IndexError], exactly when debug logging is
    on, the message is empty and the connection is a DMD one or counts its
    in-flight messages; and even then the frame has been written (and
    counted) before. *)
Theorem send_raises_after_writing (c : FastSerialCommunicator) (msg : string) :
  outcome (_send msg c) = (if send_raises c msg then Raised IndexError else Ok tt)
  /\ written (final (_send msg c)) = written c ++ [frame_on_wire c msg]
  /\ (dmd c = false -> max_messages_in_flight c <> 0 ->
      messages_in_flight (final (_send msg c)) = messages_in_flight c + 1).
Proof.
  split; [| split].
  - unfold send_raises. run_writer.
    destruct (dmd c); cbn.
    + destruct (debug c); cbn; [destruct msg; reflexivity | reflexivity].
    + destruct (max_messages_in_flight c =? 0)%Z; cbn.
      * now rewrite andb_false_r.
      * destruct (messages_in_flight c + 1 >? max_messages_in_flight c)%Z; cbn;
          destruct (debug c); cbn; try reflexivity;
          destruct msg as [| ch msg']; cbn; try reflexivity;
          destruct (negb (Ascii.eqb ch "W") && negb (Ascii.eqb ch "L")); reflexivity.
  - apply _send_keeps.
  - intros Hd Hm. apply Z.eqb_neq in Hm. run_writer. rewrite Hd, Hm.
    split_writer_tests; reflexivity.
Qed.

(** X12.  [_send] never opens the gate and never lowers the counter; on a
    DMD connection, and on one whose maximum is 0, it touches neither. *)
Theorem send_never_opens_gate (c : FastSerialCommunicator) (msg : string) :
  let c' := final (_send msg c) in
  (send_ready c' = true -> send_ready c = true)
  /\ messages_in_flight c <= messages_in_flight c'
  /\ (dmd c = true \/ max_messages_in_flight c = 0 ->
      messages_in_flight c' = messages_in_flight c /\ send_ready c' = send_ready c).
Proof.
  cbv zeta. run_writer.
  destruct (dmd c) eqn:Hd; cbn.
  - destruct (debug c); cbn; [destruct msg |]; cbn; repeat split; auto; lia.
  - destruct (max_messages_in_flight c =? 0)%Z eqn:Hm; cbn.
    + repeat split; auto; lia.
    + apply Z.eqb_neq in Hm.
      destruct (messages_in_flight c + 1 >? max_messages_in_flight c)%Z; cbn;
        destruct (debug c); cbn;
        try (destruct msg as [| ch msg']; cbn;
             try destruct (negb (Ascii.eqb ch "W") && negb (Ascii.eqb ch "L")); cbn);
        (split; [try discriminate; auto |]); (split; [lia |]);
        intros [? | ?]; congruence.
Qed.


(** X13.  After the writer recovered from a stalled gate on a connection
    that counts its in-flight messages, the command it then wrote is the
    only one counted, and the gate is open, whatever the counter and the
    gate were before: what was in flight is forgotten. *)
Theorem stall_recovery_restarts_count (c : FastSerialCommunicator) (msg : string) :
  tracks_in_flight c ->
  let c' := final (_socket_writer_turn msg gate_timeout c) in
  messages_in_flight c' = 1 /\ send_ready c' = true
  /\ written c' = written c ++ [encode msg ++ [CR]].
Proof.
  intros [Hd Hm]. cbv zeta. run_writer. rewrite Hd.
  replace (max_messages_in_flight c =? 0)%Z with false by (symmetry; apply Z.eqb_neq; lia).
  cbn. replace (1 >? max_messages_in_flight c)%Z with false
    by (symmetry; rewrite Z.gtb_ltb; apply Z.ltb_ge; lia).
  split_writer_tests; repeat split; reflexivity.
Qed.

(** One turn of the writer: the frame of the message is written, the queue
    and the kind of the connection stay. *)
Lemma turn_keeps (c : FastSerialCommunicator) (msg : string) (w : gate_wait) :
  let c' := final (_socket_writer_turn msg w c) in
  dmd c' = dmd c /\ debug c' = debug c
  /\ max_messages_in_flight c' = max_messages_in_flight c
  /\ send_queue c' = send_queue c
  /\ written c' = written c ++ [frame_on_wire c msg]
  /\ outcome (_socket_writer_turn msg w c)
     = (if send_raises c msg then Raised IndexError else Ok tt).
Proof.
  cbv zeta. destruct w.
  - change (_socket_writer_turn msg gate_passed c) with (_send msg c).
    destruct (_send_keeps c msg) as (H1 & H2 & H3 & H4 & H5).
    repeat split; try assumption.
    unfold send_raises. run_writer.
    destruct (dmd c); cbn.
    + destruct (debug c); cbn; [destruct msg; reflexivity | reflexivity].
    + destruct (max_messages_in_flight c =? 0)%Z; cbn.
      * now rewrite andb_false_r.
      * destruct (messages_in_flight c + 1 >? max_messages_in_flight c)%Z; cbn;
          destruct (debug c); cbn; try reflexivity;
          destruct msg as [| ch msg']; cbn; try reflexivity;
          destruct (negb (Ascii.eqb ch "W") && negb (Ascii.eqb ch "L")); reflexivity.
  - change (_socket_writer_turn msg gate_timeout c) with (_send msg (stall_recovered c)).
    destruct (_send_keeps (stall_recovered c) msg) as (H1 & H2 & H3 & H4 & H5).
    repeat split; try assumption.
    unfold send_raises. run_writer.
    destruct (dmd c); cbn.
    + destruct (debug c); cbn; [destruct msg; reflexivity | reflexivity].
    + destruct (max_messages_in_flight c =? 0)%Z; cbn.
      * now rewrite andb_false_r.
      * destruct (1 >? max_messages_in_flight c)%Z; cbn;
          destruct (debug c); cbn; try reflexivity;
          destruct msg as [| ch msg']; cbn; try reflexivity;
          destruct (negb (Ascii.eqb ch "W") && negb (Ascii.eqb ch "L")); reflexivity.
Qed.

(** The loop of the writer, turn by turn. *)
Lemma _socket_writer_cons (w : gate_wait) (waits : list gate_wait)
  (msg : string) (q : list string) (c : FastSerialCommunicator) :
  send_queue c = msg :: q ->
  _socket_writer (w :: waits) c
  = match _socket_writer_turn msg w (with_send_queue q c) with
    | (Ok _, c') => _socket_writer waits c'
    | (Raised e, c') => (Raised e, c')
    end.
Proof.
  intros Hq. cbn [_socket_writer]. unfold bind at 1. unfold self at 1. rewrite Hq.
  unfold bind at 1. unfold update at 1. unfold bind at 1.
  destruct (_socket_writer_turn msg w (with_send_queue q c)) as [[[] | e] c']; reflexivity.
Qed.

(** X14.  The writer task writes the queued commands in the order of the
    queue, each once: whatever happens, what it has written is the frames of
    the first k queued commands, in order, and the queue then holds the
    rest; when it ends normally, k is the number of turns it was given, or
    the length of the queue if that is less. *)
Theorem writer_keeps_order (waits : list gate_wait) (c : FastSerialCommunicator) :
  exists k : nat,
    (k <= List.length waits)%nat
    /\ written (final (_socket_writer waits c))
       = written c ++ map (frame_on_wire c) (firstn k (send_queue c))
    /\ send_queue (final (_socket_writer waits c)) = skipn k (send_queue c)
    /\ (outcome (_socket_writer waits c) = Ok tt ->
        k = Nat.min (List.length waits) (List.length (send_queue c))).
Proof.
  revert c. induction waits as [| w waits IH]; intros c.
  - exists O. cbn. rewrite app_nil_r. repeat split; auto.
  - destruct (send_queue c) as [| msg q] eqn:Hq.
    + exists O. cbn [_socket_writer]. unfold bind, self, final, outcome. rewrite Hq.
      cbn. rewrite Hq, app_nil_r. repeat split; auto. lia.
    + rewrite (_socket_writer_cons w waits msg q c Hq).
      destruct (turn_keeps (with_send_queue q c) msg w) as (Hd & _ & _ & Hs & Hw & _).
      unfold final in *.
      destruct (_socket_writer_turn msg w (with_send_queue q c)) as [[[] | e] c1];
        cbn [fst snd] in *.
      * destruct (IH c1) as (k & Hk & Hwr & Hqu & Hok). exists (S k).
        unfold final, outcome in *. rewrite Hwr, Hqu, Hw, Hs. cbn.
        assert (Hf : map (frame_on_wire c1) (firstn k q)
                     = map (frame_on_wire c) (firstn k q)).
        { apply map_ext. intros m. unfold frame_on_wire. now rewrite Hd. }
        rewrite Hf, <- app_assoc.
        change (frame_on_wire (with_send_queue q c) msg) with (frame_on_wire c msg).
        repeat split; [lia | ].
        intros Ho. rewrite (Hok Ho), Hs. reflexivity.
      * exists 1%nat. unfold outcome. cbn. rewrite Hw, Hs. cbn.
        repeat split; [lia | discriminate].
Qed.

(** With debug logging off, or with no empty command in the queue, the
    writer task ends normally, and given a turn for every queued command it
    writes them all. *)
Lemma _socket_writer_safe (waits : list gate_wait) (c : FastSerialCommunicator) :
  debug c = false \/ Forall (fun msg => msg <> ""%string) (send_queue c) ->
  outcome (_socket_writer waits c) = Ok tt
  /\ ((List.length (send_queue c) <= List.length waits)%nat ->
      written (final (_socket_writer waits c))
      = written c ++ map (frame_on_wire c) (send_queue c)
      /\ send_queue (final (_socket_writer waits c)) = []).
Proof.
  revert c. induction waits as [| w waits IH]; intros c Hsafe.
  - split; [reflexivity |]. intros Hlen.
    destruct (send_queue c) eqn:Hq; [| cbn in Hlen; lia].
    cbn. rewrite Hq, app_nil_r. split; reflexivity.
  - destruct (send_queue c) as [| msg q] eqn:Hq.
    + cbn [_socket_writer]. unfold bind, self, final, outcome. rewrite Hq. cbn.
      rewrite Hq, app_nil_r. repeat split; reflexivity.
    + rewrite (_socket_writer_cons w waits msg q c Hq).
      destruct (turn_keeps (with_send_queue q c) msg w) as (Hd & Hdb & _ & Hs & Hw & Ho).
      assert (Hnr : send_raises (with_send_queue q c) msg = false).
      { unfold send_raises. cbn. destruct Hsafe as [-> | HF]; [reflexivity |].
        inversion HF as [| ? ? Hne _]; subst.
        destruct msg; [now destruct Hne | cbn; now rewrite andb_false_r]. }
      rewrite Hnr in Ho. unfold final, outcome in *.
      destruct (_socket_writer_turn msg w (with_send_queue q c)) as [[[] | e] c1];
        cbn [fst snd] in *; [| discriminate].
      assert (Hsafe1 : debug c1 = false \/ Forall (fun m => m <> ""%string) (send_queue c1)).
      { rewrite Hdb, Hs. cbn. destruct Hsafe as [H | HF]; [now left | right].
        now inversion HF. }
      destruct (IH c1 Hsafe1) as [Hok Hall]. split; [exact Hok |].
      intros Hlen. cbn in Hlen.
      destruct Hall as [Hwr Hqu]; [rewrite Hs; cbn; lia |].
      unfold final in *. rewrite Hwr, Hqu, Hw, Hs. cbn.
      assert (Hf : map (frame_on_wire c1) q = map (frame_on_wire c) q).
      { apply map_ext. intros m. unfold frame_on_wire. now rewrite Hd. }
      rewrite Hf, <- app_assoc.
      change (frame_on_wire (with_send_queue q c) msg) with (frame_on_wire c msg).
      split; reflexivity.
Qed.


Lemma send_all_queue (msgs : list string) (c : FastSerialCommunicator) :
  send_all msgs c = (Ok tt, with_send_queue (send_queue c ++ msgs) c).
Proof.
  revert c. induction msgs as [| m msgs IH]; intros c.
  - cbn. unfold ret. rewrite app_nil_r. now destruct c.
  - cbn [send_all]. unfold bind, send, update. rewrite IH. cbn.
    now rewrite <- app_assoc.
Qed.

(** X15.  [send] only appends to the queue, so that commands sent in the
    order m1 .. mn are written in that order, behind what was queued before
    them, each framed once: with debug logging off or no empty command among
    them, and a turn of the writer for each, the writer ends normally with
    all of them written and the queue empty. *)
Theorem sent_commands_are_written_in_order (msgs : list string)
  (waits : list gate_wait) (c : FastSerialCommunicator) :
  debug c = false \/ Forall (fun msg => msg <> ""%string) (send_queue c ++ msgs) ->
  (List.length (send_queue c ++ msgs) <= List.length waits)%nat ->
  let queued := final (send_all msgs c) in
  send_queue queued = send_queue c ++ msgs
  /\ outcome (_socket_writer waits queued) = Ok tt
  /\ written (final (_socket_writer waits queued))
     = written c ++ map (frame_on_wire c) (send_queue c ++ msgs)
  /\ send_queue (final (_socket_writer waits queued)) = [].
Proof.
  intros Hsafe Hlen. cbv zeta. rewrite send_all_queue. unfold final at 1 2 4 6.
  cbn [snd].
  split; [reflexivity |].
  destruct (_socket_writer_safe waits (with_send_queue (send_queue c ++ msgs) c))
    as [Hok Hall]; [exact Hsafe |].
  split; [exact Hok |]. exact (Hall Hlen).
Qed.

End WriterProperties.

Section DispatcherProperties.

Import CommM.
Local Open Scope list_scope.

Lemma skipn_unsplit (b : bytes) :
  b = unsplit (fst (split_frames b)) (snd (split_frames b)).
Proof. exact (proj1 (proj2 (split_frames_framing b))). Qed.

(** The loop of [_parse_msg] on any buffer: it ends, normally or at the
    first frame that does not decode. *)
Lemma _parse_msg_loop_run (budget : nat) (c : FastSerialCommunicator) :
  (List.length (received_msg c) < budget)%nat ->
  _parse_msg_loop budget c
  = let '(o, routed', buf) :=
      dispatch_frames (remote_processor c) (fst (split_frames (received_msg c)))
        (snd (split_frames (received_msg c))) in
    (o, with_routed (routed c ++ routed') (with_received_msg buf c)).
Proof.
  revert c. induction budget as [| budget IH]; intros c Hlen; [lia |].
  cbn [_parse_msg_loop]. unfold bind at 1. unfold self at 1.
  destruct (find_cr (received_msg c)) as [pos |] eqn:Hf.
  - destruct (find_cr_some _ _ Hf) as [Hs Hshort]. rewrite Hs.
    cbn [fst snd dispatch_frames].
    unfold bind at 1. unfold update at 1.
    set (tail := skipn (pos + 1) (received_msg c)) in *.
    set (c1 := with_received_msg tail c).
    assert (IH1 : forall c', received_msg c' = tail ->
               _parse_msg_loop budget c'
               = let '(o, routed', buf) :=
                   dispatch_frames (remote_processor c') (fst (split_frames tail))
                     (snd (split_frames tail)) in
                 (o, with_routed (routed c' ++ routed') (with_received_msg buf c'))).
    { intros c' Hc'. rewrite <- Hc'. apply IH. rewrite Hc'. lia. }
    destruct (firstn pos (received_msg c)) as [| x f] eqn:Hmsg.
    + change (utf8_valid []) with true. cbn iota.
      rewrite (IH1 c1 eq_refl). cbn [remote_processor c1 with_received_msg].
      destruct (dispatch_frames (remote_processor c) (fst (split_frames tail))
                  (snd (split_frames tail))) as [[o r] buf].
      reflexivity.
    + unfold bind at 1. unfold lift, decode.
      destruct (utf8_valid (x :: f)) eqn:Hv.
      * unfold forwarded. cbn [filter dispatched map].
        destruct (is_ignored (string_of_list_byte (x :: f))) eqn:Hi; cbn [negb].
        -- unfold bind at 1. unfold ret at 1. rewrite (IH1 c1 eq_refl).
           cbn [remote_processor c1 with_received_msg].
           destruct (dispatch_frames (remote_processor c) (fst (split_frames tail))
                       (snd (split_frames tail))) as [[o r] buf].
           reflexivity.
        -- unfold bind at 1. unfold process_received_message, update.
           rewrite IH1 by reflexivity. cbn.
           destruct (dispatch_frames (remote_processor c) (fst (split_frames tail))
                       (snd (split_frames tail))) as [[o r] buf].
           cbn. rewrite <- app_assoc. reflexivity.
      * rewrite <- (skipn_unsplit tail). rewrite app_nil_r.
        unfold c1. destruct c; reflexivity.
  - destruct (find_cr_none _ Hf) as [Hs _]. rewrite Hs. cbn.
    unfold ret. rewrite app_nil_r. destruct c; reflexivity.
Qed.

Lemma _parse_msg_run (c : FastSerialCommunicator) (chunk : bytes) :
  _parse_msg chunk c
  = let '(o, routed', buf) :=
      dispatch_frames (remote_processor c)
        (fst (split_frames (received_msg c ++ chunk)))
        (snd (split_frames (received_msg c ++ chunk))) in
    (o, with_routed (routed c ++ routed') (with_received_msg buf c)).
Proof.
  unfold _parse_msg, bind, update, self.
  rewrite _parse_msg_loop_run by (cbn; lia). cbn.
  destruct (dispatch_frames (remote_processor c)
              (fst (split_frames (received_msg c ++ chunk)))
              (snd (split_frames (received_msg c ++ chunk)))) as [[o r] buf].
  reflexivity.
Qed.


Lemma dispatch_frames_app (processor : string) (good frames : list bytes) (rest : bytes) :
  Forall (fun f => utf8_valid f = true) good ->
  dispatch_frames processor (good ++ frames) rest
  = let '(o, routed', buf) := dispatch_frames processor frames rest in
    (o, forwarded processor good ++ routed', buf).
Proof.
  induction 1 as [| f good Hf _ IH]; cbn [app dispatch_frames].
  - now destruct (dispatch_frames processor frames rest) as [[o r] buf].
  - rewrite Hf, IH.
    destruct (dispatch_frames processor frames rest) as [[o r] buf].
    unfold forwarded. cbn [filter]. destruct (dispatched f); cbn; reflexivity.
Qed.

Lemma dispatch_frames_sound (processor : string) (frames : list bytes) (rest : bytes) :
  let '(o, routed', buf) := dispatch_frames processor frames rest in
  (o = Ok tt \/ o = Raised UnicodeDecodeError)
  /\ (o = Ok tt -> buf = rest)
  /\ Forall (fun e => is_ignored (fst e) = false /\ fst e <> ""%string
                      /\ snd e = processor) routed'.
Proof.
  induction frames as [| f frames IH]; cbn [dispatch_frames].
  - split; [now left |]. split; [reflexivity | constructor].
  - destruct (utf8_valid f).
    + destruct (dispatch_frames processor frames rest) as [[o r] buf].
      destruct IH as (Ho & Hb & Hr). split; [exact Ho |]. split; [exact Hb |].
      unfold forwarded. cbn [filter]. destruct f as [| x f]; cbn [dispatched]; [exact Hr |].
      destruct (is_ignored (string_of_list_byte (x :: f))) eqn:Hi; cbn; [exact Hr |].
      constructor; [| exact Hr]. cbn. repeat split; [exact Hi | discriminate].
    + split; [now right |]. split; [discriminate | constructor].
Qed.

(** X16.  When a frame does not decode, the frames before it have been
    dispatched as usual, the call ends with [UnicodeDecodeError], the frame
    itself is gone from the buffer, and the frames behind it stay in the
    buffer, with their delimiters and the trailing partial frame. *)
Theorem dispatcher_stops_at_undecodable_frame (c : FastSerialCommunicator)
  (chunk : bytes) (good : list bytes) (bad : bytes) (later : list bytes) :
  fst (split_frames (received_msg c ++ chunk)) = good ++ bad :: later ->
  Forall (fun f => utf8_valid f = true) good ->
  utf8_valid bad = false ->
  _parse_msg chunk c
  = (Raised UnicodeDecodeError,
     with_routed (routed c ++ forwarded (remote_processor c) good)
       (with_received_msg
          (unsplit later (snd (split_frames (received_msg c ++ chunk)))) c)).
Proof.
  intros Hfr Hgood Hbad. rewrite _parse_msg_run, Hfr.
  rewrite (dispatch_frames_app _ good _ _ Hgood). cbn [dispatch_frames].
  rewrite Hbad, app_nil_r. reflexivity.
Qed.

(** X17.  Whatever bytes arrive, the loop of [_parse_msg] comes to an end,
    normally or with [UnicodeDecodeError], and what it hands to the router
    is never an ignored acknowledgement and never an empty text, and always
    carries the processor of the connection. *)
Theorem router_gets_no_ignored_frame (c : FastSerialCommunicator) (chunk : bytes) :
  (outcome (_parse_msg chunk c) = Ok tt
   \/ outcome (_parse_msg chunk c) = Raised UnicodeDecodeError)
  /\ exists new,
       routed (final (_parse_msg chunk c)) = routed c ++ new
       /\ Forall (fun e => is_ignored (fst e) = false /\ fst e <> ""%string
                           /\ snd e = remote_processor c) new.
Proof.
  rewrite _parse_msg_run.
  pose proof (dispatch_frames_sound (remote_processor c)
                (fst (split_frames (received_msg c ++ chunk)))
                (snd (split_frames (received_msg c ++ chunk)))) as H.
  destruct (dispatch_frames (remote_processor c)
              (fst (split_frames (received_msg c ++ chunk)))
              (snd (split_frames (received_msg c ++ chunk)))) as [[o r] buf].
  destruct H as (Ho & _ & Hr). split; [exact Ho |].
  exists r. split; [reflexivity | exact Hr].
Qed.

Lemma split_frames_clean (b : bytes) : ~ In CR b -> split_frames b = ([], b).
Proof.
  induction b as [| x b IH]; intros Hn; [reflexivity |].
  cbn [split_frames]. rewrite IH by (intros Hin; apply Hn; now right).
  destruct (Byte.eqb x CR) eqn:E; [| reflexivity].
  apply byte_dec_bl in E. subst x. exfalso. apply Hn. now left.
Qed.

(** X18.  After a call of [_parse_msg] that ended normally the buffer holds
    no delimiter, only the bytes of a frame still to be completed, and a
    call with no new bytes changes nothing. *)
Theorem dispatcher_leaves_partial_frame (c : FastSerialCommunicator) (chunk : bytes) :
  outcome (_parse_msg chunk c) = Ok tt ->
  let c' := final (_parse_msg chunk c) in
  ~ In CR (received_msg c') /\ _parse_msg [] c' = (Ok tt, c').
Proof.
  cbv zeta. rewrite _parse_msg_run.
  pose proof (dispatch_frames_sound (remote_processor c)
                (fst (split_frames (received_msg c ++ chunk)))
                (snd (split_frames (received_msg c ++ chunk)))) as H.
  destruct (dispatch_frames (remote_processor c)
              (fst (split_frames (received_msg c ++ chunk)))
              (snd (split_frames (received_msg c ++ chunk)))) as [[o r] buf].
  destruct H as (_ & Hb & _). unfold outcome, final. cbn [fst snd]. intros Ho.
  specialize (Hb Ho). subst buf.
  destruct (split_frames_framing (received_msg c ++ chunk)) as (_ & _ & Hclean & _).
  split; [exact Hclean |].
  rewrite _parse_msg_run. cbn [received_msg with_routed with_received_msg].
  rewrite app_nil_r, (split_frames_clean _ Hclean). cbn.
  now rewrite app_nil_r.
Qed.

End DispatcherProperties.

(** ** Concrete runs of the communicator *)

(** X13 on the sample connection, stalled with 3 commands in flight. *)
Lemma stall_recovery_restarts_count_run :
  let stalled := with_send_ready false (with_messages_in_flight 3 sample_comm) in
  messages_in_flight (CommM.final (_socket_writer_turn "WD:3E8" gate_timeout stalled)) = 1
  /\ send_ready (CommM.final (_socket_writer_turn "WD:3E8" gate_timeout stalled)) = true.
Proof.
  cbv zeta.
  destruct (stall_recovery_restarts_count
              (with_send_ready false (with_messages_in_flight 3 sample_comm)) "WD:3E8")
    as (H1 & H2 & _); [split; reflexivity |].
  split; [exact H1 | exact H2].
Defined.

(** X15 on the sample connection: three commands, two of them waited for. *)
Lemma sent_commands_are_written_in_order_run :
  written (CommM.final
             (_socket_writer [gate_passed; gate_timeout; gate_passed]
                (CommM.final (send_all ["WD:3E8"; "SA:"; "DN:05,01"] sample_comm))))
  = [(encode "WD:3E8" ++ [CR])%list; (encode "SA:" ++ [CR])%list;
     (encode "DN:05,01" ++ [CR])%list].
Proof.
  refine (proj1 (proj2 (proj2
            (sent_commands_are_written_in_order ["WD:3E8"; "SA:"; "DN:05,01"]
               [gate_passed; gate_timeout; gate_passed] sample_comm _ _)))).
  - left. reflexivity.
  - cbn. lia.
Defined.

(** X16 on the sample connection: [\xff] between two frames. *)
Lemma dispatcher_stops_at_undecodable_frame_run :
  _parse_msg (encode "-N:0A" ++ [CR; xff; CR] ++ encode "-L:01" ++ [CR; x2d])%list
    sample_comm
  = (Raised UnicodeDecodeError,
     with_routed [("-N:0A", "NET")]
       (with_received_msg (encode "-L:01" ++ [CR; x2d])%list sample_comm)).
Proof.
  apply (dispatcher_stops_at_undecodable_frame sample_comm
           (encode "-N:0A" ++ [CR; xff; CR] ++ encode "-L:01" ++ [CR; x2d])%list
           [encode "-N:0A"] [xff] [encode "-L:01"]).
  - reflexivity.
  - repeat constructor.
  - reflexivity.
Defined.

(** X18 on the sample chunk with a trailing partial frame. *)
Lemma dispatcher_leaves_partial_frame_run :
  ~ In CR (received_msg
             (CommM.final (_parse_msg (encode "-N:0A" ++ [CR] ++ encode "-L")%list
                             sample_comm)))
  /\ received_msg
       (CommM.final (_parse_msg (encode "-N:0A" ++ [CR] ++ encode "-L")%list
                       sample_comm))
     = encode "-L".
Proof.
  split; [| reflexivity].
  refine (proj1 (dispatcher_leaves_partial_frame sample_comm
                   (encode "-N:0A" ++ [CR] ++ encode "-L")%list _)).
  reflexivity.
Defined.


(* ===================================================================== *)
(** * Part IX.  Replies, the handshake, the reader task and shutdown      *)
(* ===================================================================== *)

Section ReplyProperties.

Local Open Scope list_scope.

Lemma bytes_eqb_single (x s : byte) : bytes_eqb [x] [s] = Byte.eqb x s.
Proof. cbn. apply andb_true_r. Qed.

Lemma bytes_eqb_length (a b : bytes) :
  bytes_eqb a b = true -> List.length a = List.length b.
Proof.
  revert b. induction a as [| x a IH]; intros [| y b]; cbn; intros H;
    try discriminate; [reflexivity |].
  apply andb_true_iff in H. now rewrite (IH b).
Qed.

(** The frame [readuntil] finds from a buffer: the separator is the first
    one at a position that makes the buffer long enough. *)
Lemma readuntil_from_spec (s : byte) (m : Z) (stream buffer : bytes) :
  match readuntil_from buffer [s] m stream with
  | Some (frame, rest) =>
      exists body,
        frame = buffer ++ body ++ [s] /\ stream = body ++ s :: rest
        /\ (Z.to_nat m - List.length buffer <= List.length body)%nat
        /\ ~ In s (skipn (Z.to_nat m - List.length buffer) body)
  | None => ~ In s (skipn (Z.to_nat m - List.length buffer) stream)
  end.
Proof.
  revert buffer. induction stream as [| char stream IH]; intros buffer.
  - cbn. rewrite skipn_nil. intros [].
  - cbn [readuntil_from]. rewrite bytes_eqb_single.
    assert (Hlen : List.length (buffer ++ [char]) = S (List.length buffer)).
    { rewrite length_app. cbn. lia. }
    destruct (Byte.eqb char s && (Z.of_nat (List.length (buffer ++ [char])) >? m)%Z)
      eqn:Htest.
    + apply andb_true_iff in Htest. destruct Htest as [E G].
      apply byte_dec_bl in E. subst char.
      rewrite Z.gtb_ltb in G. apply Z.ltb_lt in G.
      exists []. cbn [app List.length]. repeat split.
      * lia.
      * rewrite skipn_nil. intros [].
    + specialize (IH (buffer ++ [char])). rewrite Hlen in IH.
      assert (Hskip : forall l : bytes,
                 In s (skipn (Z.to_nat m - List.length buffer) (char :: l)) ->
                 In s (skipn (Z.to_nat m - S (List.length buffer)) l)).
      { intros l Hin.
        destruct (Z.to_nat m - List.length buffer)%nat as [| j] eqn:Hk.
        - replace (Z.to_nat m - S (List.length buffer))%nat with O by lia.
          cbn [skipn] in Hin |- *. destruct Hin as [<- | Hin]; [| exact Hin].
          rewrite (byte_dec_lb (eq_refl char)) in Htest. cbn [andb] in Htest.
          rewrite Z.gtb_ltb in Htest. apply Z.ltb_ge in Htest. lia.
        - replace (Z.to_nat m - S (List.length buffer))%nat with j by lia.
          exact Hin. }
      destruct (readuntil_from (buffer ++ [char]) [s] m stream) as [[frame rest] |].
      * destruct IH as (body & Hf & Hs & Hk & Hn).
        exists (char :: body). repeat split.
        -- rewrite Hf, <- app_assoc. reflexivity.
        -- rewrite Hs. reflexivity.
        -- cbn [List.length]. lia.
        -- intros Hin. exact (Hn (Hskip _ Hin)).
      * intros Hin. exact (IH (Hskip _ Hin)).
Qed.

(** Reading up to the first separator when every length will do. *)
Lemma readuntil_from_first (s : byte) (m : Z) (body rest buffer : bytes) :
  (m <= Z.of_nat (List.length buffer))%Z -> ~ In s body ->
  readuntil_from buffer [s] m (body ++ s :: rest) = Some (buffer ++ body ++ [s], rest).
Proof.
  revert buffer. induction body as [| x body IH]; intros buffer Hm Hn.
  - cbn [app readuntil_from]. rewrite bytes_eqb_single, (byte_dec_lb (eq_refl s)).
    replace (Z.of_nat (List.length (buffer ++ [s])) >? m)%Z with true; [reflexivity |].
    symmetry. rewrite Z.gtb_ltb. apply Z.ltb_lt. rewrite length_app. cbn. lia.
  - cbn [app readuntil_from]. rewrite bytes_eqb_single.
    destruct (Byte.eqb x s) eqn:E.
    + apply byte_dec_bl in E. subst x. exfalso. apply Hn. now left.
    + cbn [andb]. rewrite IH.
      * rewrite <- app_assoc. reflexivity.
      * rewrite length_app. cbn. lia.
      * intros Hin. apply Hn. now right.
Qed.

Lemma readuntil_from_none (separator : bytes) (m : Z) (stream buffer : bytes) :
  List.length separator <> 1%nat ->
  readuntil_from buffer separator m stream = None.
Proof.
  intros Hsep. revert buffer. induction stream as [| char stream IH]; intros buffer.
  - reflexivity.
  - cbn [readuntil_from].
    destruct (bytes_eqb [char] separator) eqn:E.
    + apply bytes_eqb_length in E. cbn in E. congruence.
    + cbn [andb]. apply IH.
Qed.

End ReplyProperties.

Section HandshakeProperties.

Lemma str_app_nil_r (s : string) : s ++ "" = s.
Proof. induction s as [| c s IH]; cbn; [reflexivity | now rewrite IH]. Qed.

Lemma str_app_assoc (a b c : string) : (a ++ b) ++ c = a ++ (b ++ c).
Proof. induction a as [| x a IH]; cbn; [reflexivity | now rewrite IH]. Qed.

Lemma whitespace_at_word_byte (c : ascii) (s : string) :
  word_byte c = true -> whitespace_at (String c s) = O.
Proof.
  unfold word_byte, whitespace_at. cbv zeta. intros H.
  apply negb_true_iff in H.
  apply orb_false_iff in H. destruct H as [H H227].
  apply orb_false_iff in H. destruct H as [H H226].
  apply orb_false_iff in H. destruct H as [H H225].
  apply orb_false_iff in H. destruct H as [H H194].
  rewrite H.
  destruct s as [| c1 [| c2 s2]]; rewrite ?H194, ?H225, ?H226, ?H227; reflexivity.
Qed.

Lemma split_scan_word (w acc s : string) :
  word_bytes w = true ->
  split_scan O acc (w ++ s) = split_scan O (acc ++ w) s.
Proof.
  revert acc. induction w as [| c w IH]; intros acc Hw.
  - cbn [append]. now rewrite str_app_nil_r.
  - cbn [word_bytes] in Hw. apply andb_true_iff in Hw. destruct Hw as [Hc Hw].
    cbn [append split_scan]. rewrite (whitespace_at_word_byte _ _ Hc).
    rewrite (IH _ Hw), str_app_assoc. reflexivity.
Qed.

Lemma split_scan_word_end (w s : string) (c : ascii) :
  is_word w = true -> whitespace_at (String c s) = 1%nat ->
  split_scan O "" (w ++ String c s) = w :: split_scan O "" s.
Proof.
  unfold is_word. intros Hw Hc. apply andb_true_iff in Hw. destruct Hw as [Hne Hw].
  rewrite (split_scan_word _ _ _ Hw). cbn [append split_scan]. rewrite Hc.
  destruct w; [discriminate | reflexivity].
Qed.

(** [str.split()] gives back the fields of a reply. *)
Lemma str_split_join (words : list string) :
  Forall (fun w => is_word w = true) words ->
  str_split (join_words words ++ String "013" "") = words.
Proof.
  unfold str_split. induction words as [| w words IH]; intros Hw.
  - reflexivity.
  - inversion Hw as [| ? ? Hw1 Hws]; subst. destruct words as [| w' words].
    + cbn [join_words]. rewrite split_scan_word_end; [reflexivity | exact Hw1 | reflexivity].
    + change (join_words (w :: w' :: words))
        with (w ++ " " ++ join_words (w' :: words)).
      rewrite str_app_assoc.
      change ((" " ++ join_words (w' :: words)) ++ String "013" "")
        with (String " " (join_words (w' :: words) ++ String "013" "")).
      rewrite split_scan_word_end; [| exact Hw1 | reflexivity].
      now rewrite (IH Hws).
Qed.

Lemma startswith_ID_not_XX (msg : string) :
  startswith msg "ID:" = true -> startswith msg "XX:" = false.
Proof.
  unfold startswith. destruct msg as [| c msg]; cbn [prefix]; [discriminate |].
  destruct (ascii_dec "I" c) as [<- |]; [| discriminate].
  intros _. reflexivity.
Qed.

Variable port_name : string.

Lemma skip_unrecognized_eq (msg : string) (replies : list (result string)) :
  skip_unrecognized msg replies
  = if startswith msg "XX:" then
      match replies with
      | [] => (None, [])
      | Ok msg' :: replies' => skip_unrecognized msg' replies'
      | Raised e :: replies' => (Some (Raised e), replies')
      end
    else (Some (Ok msg), replies).
Proof. destruct replies; reflexivity. Qed.

Lemma probe_loop_eq (budget : nat) (msg : string) (replies : list (result string)) :
  probe_loop port_name (S budget) (Ok msg :: replies)
  = match skip_unrecognized msg replies with
    | (None, _) => (query port_name, None)
    | (Some (Raised e), _) => (query port_name, Some (Raised e))
    | (Some (Ok msg), replies'') =>
        if startswith msg "ID:" then (query port_name, Some (Ok msg))
        else
          let '(events, r) := probe_loop port_name budget replies'' in
          ((query port_name ++ ev_sleep (1 # 2) :: events)%list, r)
    end.
Proof. reflexivity. Qed.

Lemma probe_loop_ending (budget : nat) (next : option (result string))
  (rest : list (result string)) :
  decides next ->
  probe_loop port_name (S budget) (ending next rest) = (queries port_name [], next).
Proof.
  intros Hd. destruct next as [[msg | e] |]; cbn [ending]; try reflexivity.
  cbn [decides decisive] in Hd. rewrite probe_loop_eq, skip_unrecognized_eq.
  rewrite (startswith_ID_not_XX _ Hd), Hd. reflexivity.
Qed.

Lemma queries_skip (msg : string) (junk : list string) :
  startswith msg "XX:" = true ->
  queries port_name (msg :: junk) = queries port_name junk.
Proof. intros H. unfold queries. cbn [filter]. rewrite H. reflexivity. Qed.

Lemma queries_pause (msg : string) (junk : list string) :
  startswith msg "XX:" = false ->
  queries port_name (msg :: junk)
  = (query port_name ++ ev_sleep (1 # 2) :: queries port_name junk)%list.
Proof.
  intros H. unfold queries. cbn [filter]. rewrite H. cbn [negb map List.concat].
  rewrite <- !app_assoc. reflexivity.
Qed.

Lemma probe_loop_junk (junk : list string) :
  forall (msg : string) (budget : nat) (next : option (result string))
         (rest : list (result string)),
    (List.length junk < budget)%nat ->
    undecided msg = true ->
    Forall (fun m => undecided m = true) junk ->
    decides next ->
    probe_loop port_name (S budget) (Ok msg :: map Ok junk ++ ending next rest)%list
    = (queries port_name (msg :: junk), next).
Proof.
  induction junk as [| j junk IH]; intros msg budget next rest Hb Hm Hj Hd;
    rewrite probe_loop_eq, skip_unrecognized_eq;
    unfold undecided in Hm; apply negb_true_iff in Hm;
    destruct (startswith msg "XX:") eqn:X.
  - rewrite (queries_skip _ _ X). cbn [map app].
    destruct next as [[m | e] |]; cbn [ending]; try reflexivity.
    cbn [decides decisive] in Hd. rewrite skip_unrecognized_eq.
    rewrite (startswith_ID_not_XX _ Hd), Hd. reflexivity.
  - rewrite Hm, (queries_pause _ _ X). cbn [map app].
    destruct budget as [| budget]; [cbn in Hb; lia |].
    rewrite (probe_loop_ending _ _ _ Hd). reflexivity.
  - rewrite (queries_skip _ _ X). cbn [map app].
    inversion Hj as [| ? ? Hj1 Hjs]; subst.
    rewrite <- (IH j budget next rest); [| cbn in Hb; lia | exact Hj1 | exact Hjs | exact Hd].
    rewrite probe_loop_eq. reflexivity.
  - rewrite Hm, (queries_pause _ _ X). cbn [map app].
    inversion Hj as [| ? ? Hj1 Hjs]; subst.
    destruct budget as [| budget]; [cbn in Hb; lia |].
    rewrite (IH j budget next rest); [reflexivity | cbn in Hb; lia | exact Hj1 | exact Hjs | exact Hd].
Qed.

Lemma probe_loop_spec (junk : list string) (next : option (result string))
  (rest : list (result string)) :
  Forall (fun m => undecided m = true) junk ->
  decides next ->
  probe_loop port_name
    (S (List.length (map Ok junk ++ ending next rest)%list))
    (map Ok junk ++ ending next rest)%list
  = (queries port_name junk, next).
Proof.
  intros Hj Hd. destruct junk as [| msg junk].
  - cbn [map app]. apply probe_loop_ending, Hd.
  - inversion Hj as [| ? ? Hj1 Hjs]; subst. cbn [map app].
    apply probe_loop_junk; [| exact Hj1 | exact Hjs | exact Hd].
    cbn [List.length]. rewrite length_app, length_map. lia.
Qed.

End HandshakeProperties.

Section ReplyTheorems.

Local Open Scope list_scope.

(** X19.  [readuntil] with a separator of one byte returns the shortest
    prefix of the stream that ends with the separator and is longer than
    [min_chars], and leaves what follows it unread; it keeps waiting exactly
    when the stream has no separator at a position that makes such a
    prefix. *)
Theorem readuntil_shortest_frame (s : byte) (min_chars : Z) (stream : bytes) :
  match readuntil [s] min_chars stream with
  | Some (frame, rest) =>
      stream = frame ++ rest
      /\ (min_chars < Z.of_nat (List.length frame))%Z
      /\ exists body, frame = body ++ [s] /\ ~ In s (skipn (Z.to_nat min_chars) body)
  | None => ~ In s (skipn (Z.to_nat min_chars) stream)
  end.
Proof.
  unfold readuntil. pose proof (readuntil_from_spec s min_chars stream []) as H.
  cbn [List.length app] in H. rewrite Nat.sub_0_r in H.
  destruct (readuntil_from [] [s] min_chars stream) as [[frame rest] |]; [| exact H].
  destruct H as (body & -> & -> & Hk & Hn). repeat split.
  - rewrite <- app_assoc. reflexivity.
  - rewrite length_app. cbn. lia.
  - exists body. split; [reflexivity | exact Hn].
Qed.

(** X20.  A separator that is not exactly one byte long is never found:
    [readuntil] compares it with the single byte just read, so it reads the
    whole stream and keeps waiting, whatever the stream holds. *)
Theorem readuntil_separator_of_other_length (separator : bytes) (min_chars : Z)
  (stream : bytes) :
  List.length separator <> 1%nat ->
  readuntil separator min_chars stream = None.
Proof. intros H. unfold readuntil. now apply readuntil_from_none. Qed.

(** X21.  A reply whose delimiter has not arrived when the timeout expires
    is lost: [_read_with_timeout] returns the empty text and leaves nothing
    in the reader, so that the next call sees the bytes that arrive later as
    if the first part had never been sent. *)
Theorem timeout_drops_partial_reply (part later : bytes) :
  ~ In CR part ->
  _read_with_timeout part = (Ok "", [])
  /\ _read_with_timeout (snd (_read_with_timeout part) ++ later)
     = _read_with_timeout later.
Proof.
  intros Hn.
  assert (E : _read_with_timeout part = (Ok "", [])).
  { unfold _read_with_timeout, readuntil.
    pose proof (readuntil_from_spec CR 0 part []) as H.
    destruct (readuntil_from [] [CR] 0 part) as [[frame rest] |]; [| reflexivity].
    destruct H as (body & _ & -> & _). exfalso. apply Hn.
    apply in_or_app. right. now left. }
  split; [exact E |]. rewrite E. reflexivity.
Qed.

(** X22.  When a delimiter has arrived in time, [_read_with_timeout]
    returns the text of the bytes up to the first delimiter, the delimiter
    included, raises [UnicodeDecodeError] when they are not UTF-8, and in
    both cases leaves the bytes behind the delimiter in the reader. *)
Theorem read_with_timeout_takes_first_frame (body rest : bytes) :
  ~ In CR body ->
  _read_with_timeout (body ++ CR :: rest) = (decode (body ++ [CR]), rest).
Proof.
  intros Hn. unfold _read_with_timeout, readuntil.
  rewrite (readuntil_from_first CR 0 body rest []); [reflexivity | cbn; lia | exact Hn].
Qed.

End ReplyTheorems.

Section ConnectTheorems.

Local Open Scope list_scope.

Variable port_name : string.
Variable baud : Z.


Lemma open_loop_retries (production : bool) (failures : nat) (more : list bool) :
  production = true \/ failures = O ->
  open_loop port_name baud production (repeat false failures ++ true :: more)
  = (List.concat
       (repeat [ev_open_serial_connection port_name baud;
                ev_sleep (1 # 10);
                ev_log_debug "Connection to %s failed. Will retry." [arg_str port_name]]
          failures)
     ++ [ev_open_serial_connection port_name baud], Some true).
Proof.
  intros [-> | ->]; [| reflexivity].
  induction failures as [| n IH]; [reflexivity |].
  cbn [repeat app open_loop negb]. rewrite IH. reflexivity.
Qed.


Lemma writes_app (a b : list connect_event) : writes (a ++ b) = writes a ++ writes b.
Proof. apply flat_map_app. Qed.

Lemma pauses_app (a b : list connect_event) : pauses (a ++ b) = pauses a ++ pauses b.
Proof. apply flat_map_app. Qed.

Lemma writes_queries (junk : list string) :
  writes (queries port_name junk)
  = repeat (encode "ID:" ++ [CR]) (S (unanswered junk)).
Proof.
  unfold queries, unanswered.
  induction (filter (fun msg => negb (startswith msg "XX:")) junk) as [| m l IH].
  - reflexivity.
  - cbn [map List.concat List.length]. rewrite <- app_assoc, writes_app, IH. reflexivity.
Qed.

Lemma pauses_queries (junk : list string) :
  pauses (queries port_name junk) = repeat (1 # 2)%Q (unanswered junk).
Proof.
  unfold queries, unanswered.
  induction (filter (fun msg => negb (startswith msg "XX:")) junk) as [| m l IH].
  - reflexivity.
  - cbn [map List.concat List.length]. rewrite <- app_assoc, pauses_app, IH. reflexivity.
Qed.

Lemma writes_opening (failures : nat) :
  writes (List.concat
            (repeat [ev_open_serial_connection port_name baud;
                     ev_sleep (1 # 10);
                     ev_log_debug "Connection to %s failed. Will retry." [arg_str port_name]]
               failures)
          ++ [ev_open_serial_connection port_name baud]) = [].
Proof. induction failures as [| n IH]; [reflexivity | exact IH]. Qed.

Lemma pauses_opening (failures : nat) :
  pauses (List.concat
            (repeat [ev_open_serial_connection port_name baud;
                     ev_sleep (1 # 10);
                     ev_log_debug "Connection to %s failed. Will retry." [arg_str port_name]]
               failures)
          ++ [ev_open_serial_connection port_name baud])
  = repeat (1 # 10)%Q failures.
Proof.
  induction failures as [| n IH]; [reflexivity |].
  cbn [repeat List.concat]. rewrite <- app_assoc. cbn [app pauses flat_map].
  fold (pauses (List.concat
            (repeat [ev_open_serial_connection port_name baud;
                     ev_sleep (1 # 10);
                     ev_log_debug "Connection to %s failed. Will retry." [arg_str port_name]]
               n)
          ++ [ev_open_serial_connection port_name baud])).
  rewrite IH. reflexivity.
Qed.

(** What [connect] does once the port is open and the replies are known
    up to the deciding one. *)
Lemma connect_run (production : bool) (failures : nat) (more : list bool)
  (low : low_latency) (junk : list string) (next : option (result string))
  (rest : list (result string)) :
  production = true \/ failures = O ->
  Forall (fun msg => undecided msg = true) junk ->
  decides next ->
  exists opening tuning closing,
    connect port_name baud production (repeat false failures ++ true :: more) low
      (map Ok junk ++ ending next rest)
    = (opening ++ tuning ++ queries port_name junk ++ closing,
       match next with
       | None => suspended
       | Some (Raised e) => raised_by_read e
       | Some (Ok msg) => identify msg
       end)
    /\ writes opening = [] /\ pauses opening = repeat (1 # 10)%Q failures
    /\ writes tuning = [filler] /\ pauses tuning = []
    /\ writes closing = [] /\ pauses closing = [].
Proof.
  intros Hopen Hjunk Hnext. unfold connect.
  rewrite (open_loop_retries production failures more Hopen).
  rewrite (probe_loop_spec port_name junk next rest Hjunk Hnext).
  set (start := [ev_log_info "Connecting to %s at %sbps" [arg_str port_name; arg_int baud]]).
  set (opening := List.concat (repeat _ failures) ++ _).
  set (tuning := _ ++ [ev_set_write_buffer_limits 2048 1024; _; _; _]).
  assert (Hw : writes (start ++ opening) = []).
  { rewrite writes_app. unfold opening. rewrite writes_opening. reflexivity. }
  assert (Hp : pauses (start ++ opening) = repeat (1 # 10)%Q failures).
  { rewrite pauses_app. unfold opening. rewrite pauses_opening. reflexivity. }
  assert (Htw : writes tuning = [filler]) by (unfold tuning; destruct low; reflexivity).
  assert (Htp : pauses tuning = []) by (unfold tuning; destruct low; reflexivity).
  destruct next as [[msg | e] |].
  - destruct (identify msg) as [p m f | | | e |] eqn:Hid.
    + exists (start ++ opening), tuning,
        [ev_log_info "Connected! Processor: %s, Board Type: %s, Firmware: %s"
           [arg_str p; arg_str m; arg_str f]].
      rewrite <- !app_assoc. repeat split; assumption || reflexivity.
    + exists (start ++ opening), tuning, []. rewrite <- !app_assoc, app_nil_r.
      repeat split; assumption || reflexivity.
    + exists (start ++ opening), tuning, []. rewrite <- !app_assoc, app_nil_r.
      repeat split; assumption || reflexivity.
    + exists (start ++ opening), tuning, []. rewrite <- !app_assoc, app_nil_r.
      repeat split; assumption || reflexivity.
    + exists (start ++ opening), tuning, []. rewrite <- !app_assoc, app_nil_r.
      repeat split; assumption || reflexivity.
  - exists (start ++ opening), tuning, []. rewrite <- !app_assoc, app_nil_r.
    repeat split; assumption || reflexivity.
  - exists (start ++ opening), tuning, []. rewrite <- !app_assoc, app_nil_r.
    repeat split; assumption || reflexivity.
Qed.


(** X24.  The traffic of the handshake.  When the port opens after some
    failed attempts (none outside production mode), [connect] pauses 0.1 s
    after each failure, then writes the filler of 1024 spaces and a carriage
    return, and then only [ID:] queries: one, and one more after a pause of
    0.5 s for every reply before the deciding one that is not an [XX:]
    reply (an empty reply after a timeout is such a reply).  An [XX:] reply
    is passed over without a new query. *)
Theorem connect_traffic (production : bool) (failures : nat) (more : list bool)
  (low : low_latency) (junk : list string) (next : option (result string))
  (rest : list (result string)) :
  production = true \/ failures = O ->
  Forall (fun msg => undecided msg = true) junk ->
  decides next ->
  let events :=
    fst (connect port_name baud production (repeat false failures ++ true :: more) low
           (map Ok junk ++ ending next rest)) in
  writes events = filler :: repeat (encode "ID:" ++ [CR]) (S (unanswered junk))
  /\ pauses events = repeat (1 # 10)%Q failures ++ repeat (1 # 2)%Q (unanswered junk).
Proof.
  intros Hopen Hjunk Hnext.
  destruct (connect_run production failures more low junk next rest Hopen Hjunk Hnext)
    as (opening & tuning & closing & E & Hw1 & Hp1 & Hw2 & Hp2 & Hw3 & Hp3).
  cbv zeta. rewrite E. cbn [fst].
  rewrite !writes_app, !pauses_app, Hw1, Hw2, Hw3, Hp1, Hp2, Hp3.
  rewrite writes_queries, pauses_queries, !app_nil_r. split; reflexivity.
Qed.

(** X25.  The identity reply.  [ID:] followed by three fields, a space
    between them and a carriage return at the end, gives the processor, the
    model and the firmware; with two fields they are the model and the
    firmware, and the processor is [NET]; with any other number of fields
    the reply is refused with [ValueError]. *)
Theorem identify_fields (words : list string) :
  Forall (fun w => is_word w = true) words ->
  identify (id_reply words)
  = match words with
    | [processor; model; firmware] => connected processor model firmware
    | [model; firmware] => connected "NET" model firmware
    | _ => raised_ValueError
    end.
Proof.
  intros Hw. unfold identify, id_reply.
  change (str_from 3 ("ID:" ++ join_words words ++ String "013" "")%string)
    with (join_words words ++ String "013" "")%string.
  rewrite (str_split_join words Hw).
  destruct words as [| a [| b [| c [| d l]]]]; reflexivity.
Qed.

(** X26.  [connect] takes the identity from the first reply that starts
    with [ID:]: the replies before it, empty ones and [XX:] ones among
    them, are dropped, and the replies behind it are not looked at.  An
    exception of [_read_with_timeout] before such a reply ends [connect],
    and without such a reply [connect] does not end. *)
Theorem connect_takes_first_identity (production : bool) (failures : nat)
  (more : list bool) (low : low_latency) (junk : list string)
  (next : option (result string)) (rest : list (result string)) :
  production = true \/ failures = O ->
  Forall (fun msg => undecided msg = true) junk ->
  decides next ->
  snd (connect port_name baud production (repeat false failures ++ true :: more) low
         (map Ok junk ++ ending next rest))
  = match next with
    | None => suspended
    | Some (Raised e) => raised_by_read e
    | Some (Ok msg) => identify msg
    end.
Proof.
  intros Hopen Hjunk Hnext.
  destruct (connect_run production failures more low junk next rest Hopen Hjunk Hnext)
    as (opening & tuning & closing & E & _).
  rewrite E. reflexivity.
Qed.

End ConnectTheorems.

Section ReaderTheorems.

Local Open Scope list_scope.
Import CommM.

Lemma _parse_msg_port (c : FastSerialCommunicator) (chunk : bytes) :
  port (final (_parse_msg chunk c)) = port c.
Proof.
  rewrite _parse_msg_run.
  destruct (dispatch_frames (remote_processor c)
              (fst (split_frames (received_msg c ++ chunk)))
              (snd (split_frames (received_msg c ++ chunk)))) as [[o r] buf].
  reflexivity.
Qed.

Lemma feed_chunks_port (chunks : list bytes) (c : FastSerialCommunicator) :
  port (final (feed_chunks chunks c)) = port c.
Proof.
  revert c. induction chunks as [| chunk chunks IH]; intros c; [reflexivity |].
  cbn [feed_chunks]. unfold bind.
  pose proof (_parse_msg_port c chunk) as Hp.
  destruct (_parse_msg chunk c) as [[u | e] c']; cbn [final snd] in *.
  - rewrite <- Hp. apply IH.
  - exact Hp.
Qed.

(** The reader task on reads that bring bytes is [feed_chunks]. *)
Lemma _socket_reader_chunks (chunks : list bytes) (reads : list stream_read)
  (c : FastSerialCommunicator) :
  Forall (fun chunk => chunk <> []) chunks ->
  _socket_reader (map stream_bytes chunks ++ reads) c
  = match feed_chunks chunks c with
    | (Ok _, c') => _socket_reader reads c'
    | (Raised e, c') => (reader_raised e, c', [])
    end.
Proof.
  intros Hne. revert c. induction Hne as [| chunk chunks Hc Hne IH]; intros c.
  - reflexivity.
  - cbn [map app _socket_reader feed_chunks]. unfold bind.
    destruct chunk as [| x chunk]; [congruence |]. cbn [read].
    destruct (_parse_msg (x :: chunk) c) as [[u | e] c']; [| reflexivity].
    rewrite IH. destruct (feed_chunks chunks c') as [[u' | e] c1]; [| reflexivity].
    destruct (_socket_reader reads c1) as [[e c2] events]. reflexivity.
Qed.

(** X27.  How the reader task ends.  After reads that brought bytes and
    were dispatched, an empty read (the stream is closed) makes it warn,
    call [machine.stop] and return; a read that fails makes it warn and
    return without [machine.stop]; a cancellation is let through; and as
    long as no such read comes it keeps waiting.  Reads behind the one that
    ended it are not made, and the buffer and the router are as the
    dispatched chunks left them. *)
Theorem reader_ends_on_closed_or_failed_read (chunks : list bytes)
  (c : FastSerialCommunicator) (more : list stream_read) (e : string) :
  Forall (fun chunk => chunk <> []) chunks ->
  outcome (feed_chunks chunks c) = Ok tt ->
  let c' := final (feed_chunks chunks c) in
  _socket_reader (map stream_bytes chunks ++ stream_bytes [] :: more) c
  = (reader_returned, c',
     [rd_log_warning "Serial closed.";
      rd_machine_stop ("Serial " ++ port c ++ " closed.")%string])
  /\ _socket_reader (map stream_bytes chunks ++ stream_error e :: more) c
     = (reader_returned, c', [rd_log_warning ("Serial error: " ++ e)%string])
  /\ _socket_reader (map stream_bytes chunks ++ stream_cancelled :: more) c
     = (reader_cancelled, c', [])
  /\ _socket_reader (map stream_bytes chunks ++ []) c = (reader_waiting, c', []).
Proof.
  intros Hne Hok. cbv zeta. rewrite !_socket_reader_chunks by exact Hne.
  pose proof (feed_chunks_port chunks c) as Hp.
  destruct (feed_chunks chunks c) as [[[] | e'] c1]; cbn [outcome final fst snd] in *;
    [| discriminate].
  cbn [_socket_reader read]. rewrite Hp. repeat split; reflexivity.
Qed.

(** X28.  A chunk with a frame that does not decode ends the reader task
    with the exception of [_parse_msg]: the task itself logs no warning and
    does not call [machine.stop], and it makes no further read. *)
Theorem reader_raises_on_undecodable_frame (chunks : list bytes)
  (c : FastSerialCommunicator) (more : list stream_read) (e : exn) :
  Forall (fun chunk => chunk <> []) chunks ->
  outcome (feed_chunks chunks c) = Raised e ->
  _socket_reader (map stream_bytes chunks ++ more) c
  = (reader_raised e, final (feed_chunks chunks c), []).
Proof.
  intros Hne Hraised. rewrite _socket_reader_chunks by exact Hne.
  destruct (feed_chunks chunks c) as [[u | e'] c1]; cbn [outcome final fst snd] in *;
    [discriminate |].
  congruence.
Qed.

(** X29.  [stop] releases everything and can be called again: after it no
    task and no writer is left, whatever was there, and a second call
    cancels nothing and closes nothing, it only logs the error once more. *)
Theorem stop_twice (has_wait_closed : bool) (c : FastSerialCommunicator) (h : Handles) :
  let stopped := fst (stop has_wait_closed c h) in
  stopped = {| write_task := false; read_task := false; writer := false |}
  /\ stop has_wait_closed c stopped
     = (stopped,
        [st_log_error "Stop called on serial connection %s"
           [arg_str (remote_processor c)]])
  /\ (forall ev, In ev (snd (stop has_wait_closed c h)) ->
      (ev = st_write_task_cancel -> write_task h = true)
      /\ (ev = st_read_task_cancel -> read_task h = true)
      /\ (ev = st_writer_close \/ ev = st_writer_wait_closed -> writer h = true)).
Proof.
  destruct h as [[] [] []], has_wait_closed; cbn;
    (split; [reflexivity |]); (split; [reflexivity |]);
    intros ev Hin; repeat split; intros Hev;
    try reflexivity;
    repeat (destruct Hin as [<- | Hin]; [try discriminate; try (destruct Hev; discriminate) |]);
    try contradiction.
Qed.

End ReaderTheorems.

(** ** Concrete runs *)

(** X20: the separator [\r\n] on a stream that holds it. *)
Lemma readuntil_separator_of_other_length_run :
  readuntil [CR; x0a] 0 (encode "ID:NET" ++ [CR; x0a])%list = None.
Proof.
  apply (readuntil_separator_of_other_length [CR; x0a] 0 (encode "ID:NET" ++ [CR; x0a])%list).
  discriminate.
Defined.

(** X21: an identity reply cut in two by the timeout. *)
Lemma timeout_drops_partial_reply_run :
  _read_with_timeout (encode "ID:NET FP-CPU") = (Ok "", [])
  /\ _read_with_timeout
       (snd (_read_with_timeout (encode "ID:NET FP-CPU"))
          ++ encode "-2000 1.05" ++ [CR])%list
     = _read_with_timeout (encode "-2000 1.05" ++ [CR])%list.
Proof.
  apply (timeout_drops_partial_reply (encode "ID:NET FP-CPU")
           (encode "-2000 1.05" ++ [CR])%list).
  cbn. intros H. repeat (destruct H as [H | H]; [discriminate |]). exact H.
Defined.

(** X22: an identity reply with the beginning of the next one behind it. *)
Lemma read_with_timeout_takes_first_frame_run :
  _read_with_timeout (encode "ID:NET FP-CPU-2000 1.05" ++ CR :: encode "WD")%list
  = (decode (encode "ID:NET FP-CPU-2000 1.05" ++ [CR])%list, encode "WD").
Proof.
  apply (read_with_timeout_takes_first_frame (encode "ID:NET FP-CPU-2000 1.05")
           (encode "WD")).
  cbn. intros H. repeat (destruct H as [H | H]; [discriminate |]). exact H.
Defined.

(** X24 on the sample handshake: two pauses of 0.1 s, the filler, three
    queries with two pauses of 0.5 s. *)
Lemma connect_traffic_run :
  let events :=
    fst (connect "/dev/ttyUSB0" 921600 true sample_attempts low_latency_accepted
           (map Ok sample_junk ++ [Ok (id_reply sample_identity)])%list) in
  writes events
  = [filler; (encode "ID:" ++ [CR])%list; (encode "ID:" ++ [CR])%list;
     (encode "ID:" ++ [CR])%list]
  /\ pauses events = [1 # 10; 1 # 10; 1 # 2; 1 # 2]%Q.
Proof.
  apply (connect_traffic "/dev/ttyUSB0" 921600 true 2 [] low_latency_accepted
           sample_junk (Some (Ok (id_reply sample_identity))) []).
  - left. reflexivity.
  - repeat constructor.
  - reflexivity.
Defined.

(** X25: the reply of a board that does not name its processor. *)
Lemma identify_fields_run :
  identify (id_reply ["FP-CPU-2000"; "1.05"]) = connected "NET" "FP-CPU-2000" "1.05".
Proof.
  apply (identify_fields ["FP-CPU-2000"; "1.05"]). repeat constructor.
Defined.

(** X26 on the sample handshake, outside production mode. *)
Lemma connect_takes_first_identity_run :
  snd (connect "/dev/ttyUSB0" 921600 false [true] no_low_latency_mode
         (map Ok sample_junk ++ [Ok (id_reply sample_identity); Ok "ID:X"])%list)
  = identify (id_reply sample_identity).
Proof.
  apply (connect_takes_first_identity "/dev/ttyUSB0" 921600 false 0 []
           no_low_latency_mode sample_junk (Some (Ok (id_reply sample_identity)))
           [Ok "ID:X"]).
  - right. reflexivity.
  - repeat constructor.
  - reflexivity.
Defined.

(** X27 on the sample chunks, the stream closed behind them. *)
Lemma reader_ends_on_closed_or_failed_read_run :
  _socket_reader (map stream_bytes sample_chunks ++ [stream_bytes []])%list sample_comm
  = (reader_returned, CommM.final (feed_chunks sample_chunks sample_comm),
     [rd_log_warning "Serial closed."; rd_machine_stop "Serial /dev/ttyUSB0 closed."]).
Proof.
  refine (proj1 (reader_ends_on_closed_or_failed_read sample_chunks sample_comm [] "" _ _)).
  - repeat constructor; discriminate.
  - reflexivity.
Defined.

(** X28 on the sample connection: [\xff] between two frames, then the
    stream closed. *)
Lemma reader_raises_on_undecodable_frame_run :
  _socket_reader
    (map stream_bytes [(encode "-N:0A" ++ [CR; xff; CR])%list] ++ [stream_bytes []])%list
    sample_comm
  = (reader_raised UnicodeDecodeError,
     CommM.final (feed_chunks [(encode "-N:0A" ++ [CR; xff; CR])%list] sample_comm), []).
Proof.
  apply (reader_raises_on_undecodable_frame [(encode "-N:0A" ++ [CR; xff; CR])%list]
           sample_comm [stream_bytes []] UnicodeDecodeError).
  - repeat constructor; discriminate.
  - reflexivity.
Defined.
